(** * make_image.py: build-plan resolution, Dockerfile ARG rewriting and
      the docker build / test / push sequence

    A shallow embedding of [make_image.py].  The script is a flat sequence
    of statements; the embedding follows it block by block:

    - [parse_args]      lines 66-86   the [argparse] declarations
    - [resolve]         lines 87-116  [ver], [py_ver], [target],
                                      [dockerfile], the tag, [build_args]
    - [template_output] lines 118-134 the [--output] branch
    - [build_commands]  lines 136-155 [cmd_base] and [cmd]
    - [build_phase]     lines 156-172
    - [s2i_phase]       lines 174-189
    - [test_push_phase] lines 191-211

    Text is modelled as [string] over 8-bit characters, read as the code
    points U+0000..U+00FF.  Python dictionaries are insertion ordered
    association lists, because the script renders [build_args.items()] into
    a command line.  External effects (the file system, [subprocess.run],
    [random.randint], [print]) go through a small state-and-exception monad
    whose answers come from a [World]. *)

From Stdlib Require Import String Ascii List ZArith Lia Bool Arith DecimalString Sorted
  DecimalPos.
Import ListNotations.

Local Open Scope list_scope.
Local Open Scope string_scope.

(* ================================================================== *)
(** * Python primitives used by the script *)
(* ================================================================== *)

Module Py.

(** Truthiness of [str] and of optional values ([None] is falsy). *)
Definition truthy (s : string) : bool :=
  match s with EmptyString => false | String _ _ => true end.

Definition truthy_opt (o : option string) : bool :=
  match o with None => false | Some s => truthy s end.

(** [s[i:j]] for non-negative [i <= j]; out-of-range bounds are clipped. *)
Definition slice (i j : nat) (s : string) : string := substring i (j - i) s.

(** [s.split(sep, maxsplit)] for a one-character separator: cut at the
    first [maxsplit] occurrences of [sep], keep the remainder whole. *)
Fixpoint split (sep : ascii) (maxsplit : nat) (s : string) : list string :=
  match s with
  | EmptyString => [EmptyString]
  | String c s' =>
      if Ascii.eqb c sep then
        match maxsplit with
        | O => [s]
        | S m => EmptyString :: split sep m s'
        end
      else
        match split sep maxsplit s' with
        | h :: t => String c h :: t
        | [] => [String c EmptyString]
        end
  end.

(** [sep.join(l)]. *)
Fixpoint join (sep : string) (l : list string) : string :=
  match l with
  | [] => EmptyString
  | [x] => x
  | x :: rest => x ++ sep ++ join sep rest
  end.

(** [str(n)] for an [int]. *)
Definition str (n : Z) : string := NilZero.string_of_int (Z.to_int n).

(** ** Character classes of [str] patterns and of [str.strip]

    Python classifies by the Unicode database; these are its values on
    U+0000..U+00FF. *)
Definition code (c : ascii) : nat := nat_of_ascii c.

Definition between (lo hi : nat) (c : ascii) : bool :=
  (lo <=? code c)%nat && (code c <=? hi)%nat.

Definition newline : ascii := ascii_of_nat 10.
Definition carriage_return : ascii := ascii_of_nat 13.

(** [\s], also the characters removed by [str.strip()]. *)
Definition is_space (c : ascii) : bool :=
  between 9 13 c || between 28 32 c || (code c =? 133)%nat || (code c =? 160)%nat.

(** [\w]: alphanumeric or underscore. *)
Definition is_word (c : ascii) : bool :=
  between 48 57 c || between 65 90 c || (code c =? 95)%nat || between 97 122 c
  || (code c =? 170)%nat || between 178 179 c || (code c =? 181)%nat
  || between 185 186 c || between 188 190 c || between 192 214 c
  || between 216 246 c || between 248 255 c.

(** [.] without DOTALL: anything but a newline. *)
Definition not_newline (c : ascii) : bool := negb (Ascii.eqb c newline).

Fixpoint take_while (p : ascii -> bool) (s : string) : string :=
  match s with
  | EmptyString => EmptyString
  | String c s' => if p c then String c (take_while p s') else EmptyString
  end.

Fixpoint drop_while (p : ascii -> bool) (s : string) : string :=
  match s with
  | EmptyString => EmptyString
  | String c s' => if p c then drop_while p s' else s
  end.

Fixpoint rev_onto (acc s : string) : string :=
  match s with
  | EmptyString => acc
  | String c s' => rev_onto (String c acc) s'
  end.

Definition rev (s : string) : string := rev_onto EmptyString s.

(** [s.strip()]. *)
Definition strip (s : string) : string :=
  rev (drop_while is_space (rev (drop_while is_space s))).

(** ** Insertion-ordered dictionaries with [str] keys and values *)
Definition dict := list (string * string).

Fixpoint get (d : dict) (k : string) : option string :=
  match d with
  | [] => None
  | (k', v) :: d' => if String.eqb k k' then Some v else get d' k
  end.

(** [d.get(k, default)]. *)
Definition get_default (d : dict) (k default : string) : string :=
  match get d k with Some v => v | None => default end.

(** [d[k] = v]: an existing key keeps its position, a new key goes last. *)
Fixpoint set (d : dict) (k v : string) : dict :=
  match d with
  | [] => [(k, v)]
  | (k', v') :: d' =>
      if String.eqb k k' then (k', v) :: d' else (k', v') :: set d' k v
  end.

(** [d.update(other)]. *)
Definition update (d other : dict) : dict :=
  fold_left (fun acc kv => set acc (fst kv) (snd kv)) other d.

(** [d.items()]. *)
Definition items (d : dict) : list (string * string) := d.

(** ** Text files

    Reading in text mode with the default [newline=None] turns
    [\r\n] and a lone [\r] into [\n]; iterating the file then yields
    the lines, each with its terminating [\n] (the last line may have
    none). *)
Fixpoint universal_newlines (s : string) : string :=
  match s with
  | EmptyString => EmptyString
  | String c s' =>
      if Ascii.eqb c carriage_return then
        match s' with
        | String c' s'' =>
            if Ascii.eqb c' newline then String newline (universal_newlines s'')
            else String newline (universal_newlines s')
        | EmptyString => String newline EmptyString
        end
      else String c (universal_newlines s')
  end.

Fixpoint lines (s : string) : list string :=
  match s with
  | EmptyString => []
  | String c s' =>
      if Ascii.eqb c newline then String c EmptyString :: lines s'
      else
        match lines s' with
        | [] => [String c EmptyString]
        | l :: rest => String c l :: rest
        end
  end.

(** ** [int(s)] on ASCII text: optional surrounding whitespace, an
    optional sign, decimal digits with single underscores between them. *)
Definition digit (c : ascii) : option Z :=
  if between 48 57 c then Some (Z.of_nat (code c) - 48)%Z else None.

Fixpoint int_digits (acc : Z) (after_digit : bool) (s : string) : option Z :=
  match s with
  | EmptyString => if after_digit then Some acc else None
  | String c s' =>
      match digit c with
      | Some d => int_digits (10 * acc + d)%Z true s'
      | None =>
          if Ascii.eqb c "_"%char && after_digit then int_digits acc false s'
          else None
      end
  end.

Definition int (s : string) : option Z :=
  match strip s with
  | String "+"%char r => int_digits 0 false r
  | String "-"%char r => option_map Z.opp (int_digits 0 false r)
  | t => int_digits 0 false t
  end.

(** [b.decode('ascii')] succeeds exactly on 7-bit input. *)
Fixpoint is_ascii (s : string) : bool :=
  match s with
  | EmptyString => true
  | String c s' => (code c <? 128)%nat && is_ascii s'
  end.

(** [int / float] converts the integer to a double first, which
    overflows from [2^1024 - 2^970] on (round half to even). *)
Definition fits_float (n : Z) : bool :=
  (Z.abs n <? 2 ^ 1024 - 2 ^ 970)%Z.

End Py.

(* ================================================================== *)
(** * The fragment of [re] used by the script *)
(* ================================================================== *)

Module Re.

(** Patterns: literals, character classes, anchors, concatenation,
    greedy [?], greedy [*] and [+] over a class, capturing groups. *)
Inductive regex : Type :=
| Chr (c : ascii)
| Bol
| Eol
| Cat (r1 r2 : regex)
| Opt (r : regex)
| Star (p : ascii -> bool)
| Plus (p : ascii -> bool)
| Group (r : regex).

(** A continuation receives the position, the unread input and the
    groups closed so far. *)
Definition cont := nat -> string -> list string -> option (list string).

(** Greedy repetition of a class: take one more character if possible,
    come back to this position when the rest fails. *)
Fixpoint star (p : ascii -> bool) (pos : nat) (s : string)
         (caps : list string) (k : cont) : option (list string) :=
  match s with
  | String c s' =>
      if p c then
        match star p (S pos) s' caps k with
        | Some r => Some r
        | None => k pos s caps
        end
      else k pos s caps
  | EmptyString => k pos s caps
  end.

(** Backtracking matcher.  [$] (no MULTILINE) holds at the end of the
    input and just before a newline that ends the input. *)
Fixpoint run (r : regex) (pos : nat) (s : string)
         (caps : list string) (k : cont) : option (list string) :=
  match r with
  | Chr c =>
      match s with
      | String c' s' => if Ascii.eqb c' c then k (S pos) s' caps else None
      | EmptyString => None
      end
  | Bol => if (pos =? 0)%nat then k pos s caps else None
  | Eol =>
      match s with
      | EmptyString => k pos s caps
      | String c EmptyString => if Ascii.eqb c Py.newline then k pos s caps else None
      | String _ (String _ _) => None
      end
  | Cat r1 r2 => run r1 pos s caps (fun pos' s' caps' => run r2 pos' s' caps' k)
  | Opt r1 =>
      match run r1 pos s caps k with
      | Some res => Some res
      | None => k pos s caps
      end
  | Star p => star p pos s caps k
  | Plus p =>
      match s with
      | String c s' => if p c then star p (S pos) s' caps k else None
      | EmptyString => None
      end
  | Group r1 =>
      run r1 pos s caps
          (fun pos' s' caps' => k pos' s' (caps' ++ [substring 0 (pos' - pos) s])%list)
  end.

(** [re.match(r, s)]: match at the start of [s]; the result lists the
    groups, [group 1] first. *)
Definition match_ (r : regex) (s : string) : option (list string) :=
  run r 0 s [] (fun _ _ caps => Some caps).

Definition group (n : nat) (m : list string) : string :=
  nth (n - 1) m EmptyString.

(** [seq r0 [r1; ...; rn]] is the concatenation [r0 r1 ... rn]. *)
Fixpoint seq (r : regex) (l : list regex) : regex :=
  match l with
  | [] => r
  | r' :: rest => Cat r (seq r' rest)
  end.

End Re.

(* ================================================================== *)
(** * The script: constants and command line (lines 10-86) *)
(* ================================================================== *)

(** An entry of [VERSIONS]: optional ["version"], ["path"] and
    ["python_version"], and the ["args"] dictionary. *)
Module ver.
Record t : Type := {
  version : option string;
  path : option string;
  python_version : option string;
  args : Py.dict
}.
End ver.

Definition VERSIONS : list (string * ver.t) :=
  [ ("dev-441",
     {| ver.version := Some "indy1.3.1-dev-441-ew";
        ver.path := None;
        ver.python_version := None;
        ver.args :=
          [ ("indy_sdk_repo", "https://github.com/bcgov/indy-sdk.git");
            ("indy_sdk_rev", "574ca3a881d188c3fd7400d27acbe5edc4c7f666");
            ("indy_crypto_repo", "https://github.com/hyperledger/indy-crypto.git");
            ("indy_crypto_rev", "96c79b36c5056eade5a8e3bae418f5a733cc8d8d") ] |});
    ("1.0",
     {| ver.version := Some "1.0rc3";
        ver.path := None;
        ver.python_version := None;
        ver.args :=
          [ ("indy_sdk_url", "https://codeload.github.com/ianco/indy-sdk/tar.gz/50ede4563a6a303b09d78ca97d3238e6c10333f6");
            ("indy_crypto_url", "https://codeload.github.com/hyperledger/indy-crypto/tar.gz/96c79b36c5056eade5a8e3bae418f5a733cc8d8d") ] |});
    ("1.0std",
     {| ver.version := None;
        ver.path := Some "1.0";
        ver.python_version := None;
        ver.args :=
          [ ("indy_sdk_url", "https://codeload.github.com/hyperledger/indy-sdk/tar.gz/e0ef8889e9f3b9abd706628fe259f56501d492d9");
            ("indy_crypto_url", "https://codeload.github.com/hyperledger/indy-crypto/tar.gz/96c79b36c5056eade5a8e3bae418f5a733cc8d8d") ] |});
    ("1.5",
     {| ver.version := Some "1.5-0";
        ver.path := None;
        ver.python_version := None;
        ver.args :=
          [ ("indy_sdk_url", "https://codeload.github.com/hyperledger/indy-sdk/tar.gz/16c637cbe855c46bf1d3a869e9ebcfc99bb9aabf");
            ("indy_crypto_url", "https://codeload.github.com/hyperledger/indy-crypto/tar.gz/9586d6a24f53f2aa0621249f2266d0f129253c48") ] |});
    ("1.6",
     {| ver.version := Some "1.6-11";
        ver.path := None;
        ver.python_version := None;
        ver.args :=
          [ ("indy_sdk_url", "https://codeload.github.com/hyperledger/indy-sdk/tar.gz/5a37407baaf756b3c4f5cac802717dc4a2bd1660");
            ("indy_crypto_url", "https://codeload.github.com/hyperledger/indy-crypto/tar.gz/a2864642430064c6f00902e9b999cc6356eed9f1") ] |});
    ("1.6-ew",
     {| ver.version := Some "1.6-ew-11";
        ver.path := None;
        ver.python_version := None;
        ver.args :=
          [ ("indy_sdk_url", "https://codeload.github.com/bcgov/indy-sdk/tar.gz/88424a10f53a7e47c49143b9866a0d531c1d9420");
            ("indy_crypto_url", "https://codeload.github.com/hyperledger/indy-crypto/tar.gz/a2864642430064c6f00902e9b999cc6356eed9f1") ] |}) ].

Definition DEFAULT_NAME : string := "bcgovimages/von-image".
Definition PY_35_VERSION : string := "3.5.5".
Definition PY_36_VERSION : string := "3.6.7".

(** [VERSIONS[key]] and [VERSIONS.keys()]. *)
Fixpoint lookup_version (cat : list (string * ver.t)) (key : string) : option ver.t :=
  match cat with
  | [] => None
  | (k, v) :: rest => if String.eqb key k then Some v else lookup_version rest key
  end.

Definition keys (cat : list (string * ver.t)) : list string := map fst cat.

(** The options declared with [parser.add_argument], after [argparse] has
    recognised them on the command line. *)
Inductive cli_option : Type :=
| OptName (s : string)        (* -n, --name *)
| OptTag (s : string)         (* -t, --tag *)
| OptFile (s : string)        (* -f, --file *)
| OptBuildArg (s : string)    (* --build-arg ARG=VAL *)
| OptDebug                    (* --debug *)
| OptDryRun                   (* --dry-run *)
| OptNoCache                  (* --no-cache *)
| OptOutput (s : string)      (* -o, --output *)
| OptPy35                     (* --py35 *)
| OptPy36                     (* --py36 *)
| OptPython (s : string)      (* --python *)
| OptPush                     (* --push *)
| OptQuiet                    (* -q, --quiet *)
| OptRelease                  (* --release *)
| OptS2i                      (* --s2i *)
| OptSquash                   (* --squash *)
| OptTest.                    (* --test *)

(** The namespace returned by [parser.parse_args()]. *)
Module args.
Record t : Type := {
  name : string;
  tag : option string;
  file : option string;
  build_arg : option (list string);
  debug : bool;
  dry_run : bool;
  no_cache : bool;
  output : option string;
  python : option string;
  push : bool;
  quiet : bool;
  s2i : bool;
  squash : bool;
  test : bool;
  version : string
}.
End args.

(** What terminates the script other than running off its end. *)
Inductive exn : Type :=
| ValueError | KeyError | OSError | FileNotFoundError
| UnicodeDecodeError | OverflowError.

Inductive Result (A : Type) : Type :=
| Ok (a : A)
| Exit (status : Z)
| Raise (e : exn).
Arguments Ok {A} a.
Arguments Exit {A} status.
Arguments Raise {A} e.

(** The exit status of the interpreter: an uncaught exception gives 1. *)
Definition exit_status {A} (r : Result A) : Z :=
  match r with
  | Ok _ => 0
  | Exit n => n
  | Raise _ => 1
  end.

(** Sequencing of fallible and of effectful statements. *)
Class Monad (m : Type -> Type) : Type := {
  ret : forall {A}, A -> m A;
  bind : forall {A B}, m A -> (A -> m B) -> m B
}.

Declare Scope monad_scope.
Delimit Scope monad_scope with monad.
Notation "x <- c1 ;; c2" := (bind c1 (fun x => c2))
  (at level 61, c1 at next level, right associativity) : monad_scope.
Notation "' pat <- c1 ;; c2" := (bind c1 (fun x => match x with pat => c2 end))
  (at level 61, pat pattern, c1 at next level, right associativity) : monad_scope.
Notation "c1 ;; c2" := (bind c1 (fun _ => c2))
  (at level 61, right associativity) : monad_scope.
Local Open Scope monad_scope.

#[export] Instance Monad_Result : Monad Result := {
  ret := fun A a => Ok a;
  bind := fun A B r f =>
    match r with
    | Ok a => f a
    | Exit n => Exit n
    | Raise e => Raise e
    end
}.

(** Actions of [argparse]: [store] and [store_const] keep the last
    occurrence, [append] collects every occurrence in order, and a
    destination takes the default of the first action declared for it
    ([--debug] before [--release], so [debug] defaults to [False]). *)
Definition last_of {A} (f : cli_option -> option A) (opts : list cli_option) : option A :=
  fold_left (fun acc o => match f o with Some x => Some x | None => acc end) opts None.

Definition all_of {A} (f : cli_option -> option A) (opts : list cli_option) : option (list A) :=
  fold_left
    (fun acc o =>
       match f o with
       | Some x => Some (match acc with Some l => l ++ [x] | None => [x] end)%list
       | None => acc
       end)
    opts None.

Definition default {A} (d : A) (o : option A) : A :=
  match o with Some x => x | None => d end.

Definition store_true (f : cli_option -> bool) (opts : list cli_option) : bool :=
  existsb f opts.

Definition namespace (opts : list cli_option) (version : string) : args.t :=
  {| args.name :=
       default DEFAULT_NAME (last_of (fun o => match o with OptName s => Some s | _ => None end) opts);
     args.tag := last_of (fun o => match o with OptTag s => Some s | _ => None end) opts;
     args.file := last_of (fun o => match o with OptFile s => Some s | _ => None end) opts;
     args.build_arg :=
       all_of (fun o => match o with OptBuildArg s => Some s | _ => None end) opts;
     args.debug :=
       default false
         (last_of (fun o => match o with
                            | OptDebug => Some true
                            | OptRelease => Some false
                            | _ => None
                            end) opts);
     args.dry_run := store_true (fun o => match o with OptDryRun => true | _ => false end) opts;
     args.no_cache := store_true (fun o => match o with OptNoCache => true | _ => false end) opts;
     args.output := last_of (fun o => match o with OptOutput s => Some s | _ => None end) opts;
     args.python :=
       last_of (fun o => match o with
                         | OptPy35 => Some PY_35_VERSION
                         | OptPy36 => Some PY_36_VERSION
                         | OptPython s => Some s
                         | _ => None
                         end) opts;
     args.push := store_true (fun o => match o with OptPush => true | _ => false end) opts;
     args.quiet := store_true (fun o => match o with OptQuiet => true | _ => false end) opts;
     args.s2i := store_true (fun o => match o with OptS2i => true | _ => false end) opts;
     args.squash := store_true (fun o => match o with OptSquash => true | _ => false end) opts;
     args.test := store_true (fun o => match o with OptTest => true | _ => false end) opts;
     args.version := version |}.

(** [parser.parse_args()]: the positional [version] is checked against
    [choices=VERSIONS.keys()]; [parser.error] exits with status 2. *)
Definition parse_args (opts : list cli_option) (version : string) : Result args.t :=
  if existsb (String.eqb version) (keys VERSIONS) then Ok (namespace opts version)
  else Exit 2.

(* ================================================================== *)
(** * Resolution of the build plan (lines 87-116) *)
(* ================================================================== *)

(** The script's global variables once line 116 is reached. *)
Record Resolved : Type := {
  py_ver : string;
  target : string;
  dockerfile : string;
  tag : string;
  tag_name : string;
  tag_version : string;
  build_args : Py.dict
}.

(** [a, b = l]: anything but two elements is a [ValueError]. *)
Definition unpack2 (l : list string) : Result (string * string) :=
  match l with
  | [a; b] => Ok (a, b)
  | _ => Raise ValueError
  end.

(** Line 88: [args.python or ver.get('python_version', PY_35_VERSION)]. *)
Definition resolve_py_ver (a : args.t) (v : ver.t) : string :=
  if Py.truthy_opt (args.python a) then default EmptyString (args.python a)
  else default PY_35_VERSION (ver.python_version v).

(** Lines 90-93. *)
Definition resolve_target (a : args.t) (v : ver.t) : string :=
  default (args.version a) (ver.path v).

Definition resolve_dockerfile (a : args.t) (v : ver.t) : string :=
  if Py.truthy_opt (args.file a) then default EmptyString (args.file a)
  else resolve_target a v ++ "/Dockerfile.ubuntu".

(** Lines 95-104: the result is [(tag_name, tag_version, tag)]. *)
Definition resolve_tag (a : args.t) (v : ver.t) (py_ver : string)
  : Result (string * string * string) :=
  if Py.truthy_opt (args.tag a) then
    let tag := default EmptyString (args.tag a) in
    '(tag_name, tag_version) <- unpack2 (Py.split ":" 2 tag) ;;
    ret (tag_name, tag_version, tag)
  else
    let tag_name := args.name a in
    let pfx := "py" ++ Py.slice 0 1 py_ver ++ Py.slice 2 3 py_ver ++ "-" in
    let tag_version := pfx ++ default (args.version a) (ver.version v) in
    let tag_version := if args.debug a then tag_version ++ "-debug" else tag_version in
    ret (tag_name, tag_version, tag_name ++ ":" ++ tag_version).

(** Lines 114-116: the loop over [args.build_arg]. *)
Fixpoint add_build_args (toks : list string) (build_args : Py.dict) : Result Py.dict :=
  match toks with
  | [] => ret build_args
  | arg :: rest =>
      '(key, val) <- unpack2 (Py.split "=" 2 arg) ;;
      add_build_args rest (Py.set build_args key val)
  end.

(** Lines 106-116.  [args.build_arg] is [None] or a non-empty list. *)
Definition resolve_build_args (a : args.t) (v : ver.t)
           (py_ver tag_name tag_version : string) : Result Py.dict :=
  let build_args := Py.update [] (ver.args v) in
  let build_args := Py.set build_args "python_version" py_ver in
  let build_args := Py.set build_args "tag_name" tag_name in
  let build_args := Py.set build_args "tag_version" tag_version in
  let build_args :=
    if negb (args.debug a) then Py.set build_args "indy_build_flags" "--release"
    else build_args in
  match args.build_arg a with
  | Some toks => add_build_args toks build_args
  | None => ret build_args
  end.

(** Lines 87-116. *)
Definition resolve (a : args.t) : Result Resolved :=
  match lookup_version VERSIONS (args.version a) with
  | None => Raise KeyError
  | Some v =>
      let py_ver := resolve_py_ver a v in
      '(tag_name, tag_version, tag) <- resolve_tag a v py_ver ;;
      build_args <- resolve_build_args a v py_ver tag_name tag_version ;;
      ret {| py_ver := py_ver;
             target := resolve_target a v;
             dockerfile := resolve_dockerfile a v;
             tag := tag;
             tag_name := tag_name;
             tag_version := tag_version;
             build_args := build_args |}
  end.

(* ================================================================== *)
(** * Effects: files, subprocesses, standard output *)
(* ================================================================== *)

(** The external commands of the script, by the place that runs them. *)
Inductive step : Type :=
| BaseBuild     (* line 160 *)
| MainBuild     (* line 164 *)
| Inspect       (* line 170 *)
| S2iBuild      (* line 184 *)
| TestBuild     (* line 195 *)
| TestRun       (* line 200 *)
| Push.         (* line 208 *)

Record CompletedProcess : Type := {
  returncode : Z;
  stdout : string
}.

(** What [print] receives.  The [repr] of a list and the ['%0.2f']
    rendering of the size are kept as data. *)
Inductive output : Type :=
| Text (s : string)
| ListRepr (l : list string)
| SizeMB (bytes : Z).

Inductive event : Type :=
| Run (st : step) (argv : list string) (capture : bool) (res : option CompletedProcess)
| Print (o : output).

(** The environment of one run: the files present at start, which paths
    can be opened for writing, the source of [random], and what each
    external command answers ([None]: the process cannot be started). *)
Record World : Type := {
  files : string -> option string;
  writable : string -> bool;
  entropy : Z;
  docker : step -> list string -> option CompletedProcess
}.

Record State : Type := {
  trace : list event;
  fs : string -> option string
}.

Definition M (A : Type) : Type := State -> Result A * State.

#[export] Instance Monad_M : Monad M := {
  ret := fun A a st => (Ok a, st);
  bind := fun A B m f st =>
    match m st with
    | (Ok a, st') => f a st'
    | (Exit n, st') => (Exit n, st')
    | (Raise e, st') => (Raise e, st')
    end
}.

Definition lift {A} (r : Result A) : M A := fun st => (r, st).

Definition sys_exit {A} (status : Z) : M A := fun st => (Exit status, st).

Definition when (b : bool) (m : M unit) : M unit := if b then m else ret tt.

Fixpoint for_each {A} (l : list A) (body : A -> M unit) : M unit :=
  match l with
  | [] => ret tt
  | x :: rest => body x ;; for_each rest body
  end.

Definition log (e : event) (st : State) : State :=
  {| trace := trace st ++ [e]; fs := fs st |}.

Definition store (path content : string) (st : State) : State :=
  {| trace := trace st;
     fs := fun q => if String.eqb q path then Some content else fs st q |}.

Definition print (o : output) : M unit := fun st => (Ok tt, log (Print o) st).

(** [file.write(s)] appends to what the file holds; on a POSIX system
    writing leaves [\n] as it is. *)
Definition write (path s : string) : M unit :=
  fun st => (Ok tt, store path (default EmptyString (fs st path) ++ s) st).

(** [open(path)] in text mode, and the lines its iteration yields. *)
Definition open_r (path : string) : M (list string) :=
  fun st =>
    match fs st path with
    | Some content => (Ok (Py.lines (Py.universal_newlines content)), st)
    | None => (Raise FileNotFoundError, st)
    end.

Definition nl : string := String Py.newline EmptyString.

Section Script.

Variable w : World.

(** [open(path, 'w')] creates or truncates the file. *)
Definition open_w (path : string) : M unit :=
  fun st =>
    if writable w path then (Ok tt, store path EmptyString st)
    else (Raise OSError, st).

(** [subprocess.run(argv, ...)]. *)
Definition subprocess_run (s : step) (argv : list string) (capture : bool)
  : M CompletedProcess :=
  fun st =>
    match docker w s argv with
    | Some proc => (Ok proc, log (Run s argv capture (Some proc)) st)
    | None => (Raise OSError, log (Run s argv capture None) st)
    end.

(** [random.randint(lo, hi)]: some integer of [lo..hi]. *)
Definition randint (lo hi : Z) : M Z :=
  fun st => (Ok (lo + entropy w mod (hi - lo + 1))%Z, st).

(** ** Template output (lines 118-134) *)

(** The pattern of line 130: "ARG" at the start, whitespace, a group of
    word characters, an optional "=", a group with the rest of the line,
    the end of the line. *)
Definition ARG_PATTERN : Re.regex :=
  Re.seq Re.Bol
    [ Re.Chr "A"; Re.Chr "R"; Re.Chr "G";
      Re.Plus Py.is_space;
      Re.Group (Re.Plus Py.is_word);
      Re.Opt (Re.Chr "=");
      Re.Group (Re.Star Py.not_newline);
      Re.Eol ].

(** Lines 119-126: [(src_path, src_replace)]. *)
Definition template_source (a : args.t) (p : Resolved) : string * Py.dict :=
  if args.test a then (target p ++ "/Dockerfile.test", [("base_image", tag p)])
  else if args.s2i a then (target p ++ "/Dockerfile.s2i", [("base_image", tag p)])
  else (dockerfile p, build_args p).

(** Lines 130-132. *)
Definition rewrite_line (src_replace : Py.dict) (line : string) : string :=
  match Re.match_ ARG_PATTERN line with
  | Some m =>
      "ARG " ++ Re.group 1 m ++ "="
        ++ Py.get_default src_replace (Re.group 1 m) (Re.group 2 m) ++ nl
  | None => line
  end.

Definition template_output (a : args.t) (p : Resolved) : M unit :=
  let '(src_path, src_replace) := template_source a p in
  let out := default EmptyString (args.output a) in
  open_w out ;;
  src <- open_r src_path ;;
  for_each src (fun line => write out (rewrite_line src_replace line)) ;;
  sys_exit 0.

(** ** The docker command lines (lines 136-155) *)

Definition render_build_args (build_args : Py.dict) : list string :=
  flat_map (fun kv => ["--build-arg"; fst kv ++ "=" ++ snd kv]) (Py.items build_args).

(** The result is [(cmd_base, cmd)]. *)
Definition build_commands (a : args.t) (p : Resolved) (cachebust : Z)
  : list string * list string :=
  let cmd_args := render_build_args (build_args p) in
  let cmd_args_base := cmd_args in
  let '(cmd_args_base, cmd_args) :=
    if Py.truthy (dockerfile p) then
      (cmd_args_base ++ ["-f"; (dockerfile p ++ "_indy")%string],
       cmd_args ++ ["-f"; (dockerfile p ++ "_von")%string])%list
    else (cmd_args_base, cmd_args) in
  let '(cmd_args_base, cmd_args) :=
    if args.no_cache a then
      (cmd_args_base ++ ["--no-cache"], cmd_args ++ ["--no-cache"])%list
    else (cmd_args_base, cmd_args) in
  let '(cmd_args_base, cmd_args) :=
    if args.squash a then
      (cmd_args_base ++ ["--squash"], cmd_args ++ ["--squash"])%list
    else (cmd_args_base, cmd_args) in
  let cmd_args_base := (cmd_args_base ++ ["-t"; "local_indy_base"])%list in
  let cmd_args := (cmd_args ++ ["-t"; tag p])%list in
  let cmd_args := (cmd_args ++ ["--build-arg"; ("CACHEBUST=" ++ Py.str cachebust)%string])%list in
  let cmd_args_base := (cmd_args_base ++ [target p])%list in
  let cmd_args := (cmd_args ++ [target p])%list in
  (["docker"; "build"] ++ cmd_args_base, ["docker"; "build"] ++ cmd_args)%list.

(** ** Build (lines 156-172) *)

(** Line 171: [int(proc_sz.stdout.decode('ascii').strip())] and its
    conversion to [float] by the division. *)
Definition image_size (out : string) : Result Z :=
  if Py.is_ascii out then
    match Py.int (Py.strip out) with
    | Some n => if Py.fits_float n then Ok n else Raise OverflowError
    | None => Raise ValueError
    end
  else Raise UnicodeDecodeError.

Definition nonzero (n : Z) : bool := negb (n =? 0)%Z.

Definition build_phase (a : args.t) (p : Resolved) (cmd_base cmd : list string)
  : M unit :=
  if args.dry_run a then print (Text (Py.join " " cmd))
  else
    print (Text "Building docker image...") ;;
    proc <- subprocess_run BaseBuild cmd_base (args.quiet a) ;;
    when (nonzero (returncode proc))
         (print (Text "build failed") ;; sys_exit 1) ;;
    proc <- subprocess_run MainBuild cmd (args.quiet a) ;;
    when (nonzero (returncode proc))
         (print (Text "build failed") ;; sys_exit 1) ;;
    when (args.quiet a) (print (Text ("Successfully tagged " ++ tag p))) ;;
    proc_sz <- subprocess_run Inspect
                 ["docker"; "image"; "inspect"; tag p; "--format={{.Size}}"] true ;;
    size <- lift (image_size (stdout proc_sz)) ;;
    print (SizeMB size).

(** ** s2i image (lines 174-189) *)

Definition s2i_tag (p : Resolved) : string := tag p ++ "-s2i".

Definition s2i_phase (a : args.t) (p : Resolved) : M unit :=
  when (args.s2i a)
    (let s2i_cmd :=
       [ "docker"; "build"; "--build-arg"; "base_image=" ++ tag p; "-t"; s2i_tag p;
         "-f"; target p ++ "/Dockerfile.s2i"; target p ] in
     if args.dry_run a then print (Text (Py.join " " s2i_cmd))
     else
       print (ListRepr s2i_cmd) ;;
       proc <- subprocess_run S2iBuild s2i_cmd (args.quiet a) ;;
       when (nonzero (returncode proc))
            (print (Text "s2i build failed") ;; sys_exit 1) ;;
       when (args.quiet a) (print (Text ("Successfully tagged " ++ s2i_tag p)))).

(** ** Test and push (lines 191-211) *)

Definition test_push_phase (a : args.t) (p : Resolved) : M unit :=
  when (negb (args.dry_run a))
    (when (args.test a || args.push a)
       (let test_path := target p ++ "/Dockerfile.test" in
        let test_tag := tag p ++ "-test" in
        proc_bt <- subprocess_run TestBuild
                     [ "docker"; "build"; "--build-arg"; "base_image=" ++ tag p;
                       "-t"; test_tag; "-f"; test_path; target p ] false ;;
        when (nonzero (returncode proc_bt))
             (print (Text "test image build failed") ;; sys_exit 1) ;;
        proc_test <- subprocess_run TestRun ["docker"; "run"; "--rm"; "-i"; test_tag] false ;;
        when (nonzero (returncode proc_test))
             (print (Text "One or more tests failed") ;; sys_exit 1) ;;
        print (Text "All tests passed")) ;;
     when (args.push a)
       (print (Text "Pushing docker image...") ;;
        proc <- subprocess_run Push
                  ["docker"; "push"; if args.s2i a then s2i_tag p else tag p] false ;;
        when (nonzero (returncode proc))
             (print (Text "push failed") ;; sys_exit 1))).

(** ** The whole script *)

(** Lines 136-211. *)
Definition build_plan (a : args.t) (p : Resolved) : M unit :=
  cachebust <- randint 100000 999999 ;;
  let '(cmd_base, cmd) := build_commands a p cachebust in
  build_phase a p cmd_base cmd ;;
  s2i_phase a p ;;
  test_push_phase a p.

(** Lines 118-211. *)
Definition run_plan (a : args.t) (p : Resolved) : M unit :=
  when (Py.truthy_opt (args.output a)) (template_output a p) ;;
  build_plan a p.

Definition make_image (opts : list cli_option) (version : string) : M unit :=
  a <- lift (parse_args opts version) ;;
  p <- lift (resolve a) ;;
  run_plan a p.

Definition initial : State := {| trace := []; fs := files w |}.

(** One run: how it ended and the state it left. *)
Definition main (opts : list cli_option) (version : string) : Result unit * State :=
  make_image opts version initial.

End Script.

(* ================================================================== *)
(** * Vocabulary of the statements *)
(* ================================================================== *)

(** The [i]-th character of [s] as a string, empty when [s] is shorter. *)
Definition char_at (i : nat) (s : string) : string :=
  match String.get i s with
  | Some c => String c EmptyString
  | None => EmptyString
  end.

(** The tag as the specification words it:
    [<name>:py<major><minor>-<version-label>[-debug]]. *)
Definition spec_tag (name py label : string) (debug : bool) : string :=
  name ++ ":" ++ "py" ++ char_at 0 py ++ char_at 2 py ++ "-" ++ label
       ++ (if debug then "-debug" else "").

(** The version label: the entry's ["version"], else the key. *)
Definition version_label (a : args.t) (v : ver.t) : string :=
  default (args.version a) (ver.version v).

(** [c in s]. *)
Fixpoint contains (c : ascii) (s : string) : bool :=
  match s with
  | EmptyString => false
  | String c' s' => Ascii.eqb c' c || contains c s'
  end.

(** The last binding of [k] in a list of bindings. *)
Fixpoint last_binding (l : list (string * string)) (k : string) : option string :=
  match l with
  | [] => None
  | (k', v) :: rest =>
      match last_binding rest k with
      | Some v' => Some v'
      | None => if String.eqb k k' then Some v else None
      end
  end.

(** Lookup through three layers, a later layer winning. *)
Definition merged_lookup (catalog derived user : list (string * string)) (k : string)
  : option string :=
  match last_binding user k with
  | Some v => Some v
  | None =>
      match last_binding derived k with
      | Some v => Some v
      | None => last_binding catalog k
      end
  end.

(** The bindings the script derives itself (lines 108-112). *)
Definition derived_args (a : args.t) (p : Resolved) : list (string * string) :=
  [ ("python_version", py_ver p); ("tag_name", tag_name p);
    ("tag_version", tag_version p) ]
  ++ (if args.debug a then [] else [("indy_build_flags", "--release")]).

(** The token [KEY=VAL]. *)
Definition key_val (k v : string) : string := k ++ "=" ++ v.

(** A [--build-arg] token read as the pair it denotes. *)
Definition token_denotes (tok : string) (kv : string * string) : Prop :=
  unpack2 (Py.split "=" 2 tok) = Ok kv.

(** Every character of [s] satisfies [p]. *)
Fixpoint all (p : ascii -> bool) (s : string) : bool :=
  match s with
  | EmptyString => true
  | String c s' => p c && all p s'
  end.

(** The text made of the given pieces, in order. *)
Fixpoint text_of (pieces : list string) : string :=
  match pieces with
  | [] => EmptyString
  | x :: rest => x ++ text_of rest
  end.

(** ** A direct reading of the ARG pattern

    One pass from left to right without backtracking: the literal, the
    longest run of whitespace, the longest run of word characters, one
    ["="] if it is next, then everything up to the first newline, which
    must end the input. *)
Fixpoint strip_prefix (pre s : string) : option string :=
  match pre, s with
  | EmptyString, _ => Some s
  | String c pre', String c' s' =>
      if Ascii.eqb c' c then strip_prefix pre' s' else None
  | String _ _, EmptyString => None
  end.

Definition strip_eq (s : string) : string :=
  match s with
  | String c s' => if Ascii.eqb c "=" then s' else s
  | EmptyString => s
  end.

Definition at_eol (s : string) : bool :=
  match s with
  | EmptyString => true
  | String c EmptyString => Ascii.eqb c Py.newline
  | String _ (String _ _) => false
  end.

Definition arg_scan (line : string) : option (list string) :=
  match strip_prefix "ARG" line with
  | Some rest =>
      let ws := Py.take_while Py.is_space rest in
      let rest := Py.drop_while Py.is_space rest in
      let name := Py.take_while Py.is_word rest in
      let rest := strip_eq (Py.drop_while Py.is_word rest) in
      let dflt := Py.take_while Py.not_newline rest in
      let rest := Py.drop_while Py.not_newline rest in
      if Py.truthy ws && Py.truthy name && at_eol rest then Some [name; dflt]
      else None
  | None => None
  end.

(** The lines read from a template and the lines written for them. *)
Definition template_lines (content : string) : list string :=
  Py.lines (Py.universal_newlines content).

Definition rewritten_lines (src_replace : Py.dict) (content : string) : list string :=
  map (rewrite_line src_replace) (template_lines content).

(** ** Runs and their traces *)

(** The steps whose return code the script tests: all but the size
    inspection. *)
Definition checked (s : step) : bool :=
  match s with
  | Inspect => false
  | _ => true
  end.

(** A tested step that returned a non-zero code. *)
Definition failed (e : event) : bool :=
  match e with
  | Run s _ _ (Some proc) => checked s && nonzero (returncode proc)
  | _ => false
  end.

Definition is_run (e : event) : bool :=
  match e with
  | Run _ _ _ _ => true
  | Print _ => false
  end.

(** No tested step has failed so far. *)
Definition clean (tr : list event) : Prop :=
  forallb (fun e => negb (failed e)) tr = true.

(** A failed step, its message, and nothing after. *)
Definition aborted (tr : list event) : Prop :=
  exists pre e msg, tr = (pre ++ [e; Print (Text msg)])%list /\ clean pre /\ failed e = true.

(** [m] keeps the trace clean or stops with status 1 at the first
    failed step. *)
Definition safe {A} (m : M A) : Prop :=
  forall st,
    clean (trace st) ->
    clean (trace (snd (m st))) \/
    (fst (m st) = Exit 1 /\ aborted (trace (snd (m st)))).

(** [m] only adds to the trace. *)
Definition grows {A} (m : M A) : Prop :=
  forall st, exists more, trace (snd (m st)) = (trace st ++ more)%list.

(** [m] prints one message and exits with status 1. *)
Definition aborts {A} (m : M A) : Prop :=
  forall st, exists msg, m st = (Exit 1, log (Print (Text msg)) st).

(** The argument built at line 151. *)
Definition cachebust_arg (r : Z) : string := "CACHEBUST=" ++ Py.str r.

(** The number drawn at line 151. *)
Definition cachebust (w : World) : Z :=
  (100000 + entropy w mod (999999 - 100000 + 1))%Z.

(** The occurrences of an option on the command line, in order. *)
Fixpoint collect {A} (f : cli_option -> option A) (opts : list cli_option) : list A :=
  match opts with
  | [] => []
  | o :: rest =>
      match f o with
      | Some x => x :: collect f rest
      | None => collect f rest
      end
  end.

(** The continuation that ends a match and returns the groups. *)
Definition final : Re.cont := fun _ _ caps => Some caps.

(** [s] is empty or starts outside the class [p]. *)
Definition blocked (p : ascii -> bool) (s : string) : bool :=
  match s with
  | EmptyString => true
  | String c _ => negb (p c)
  end.

(** The rest of the line after the first newline decides the match. *)
Definition line_ends (s : string) : bool := at_eol (Py.drop_while Py.not_newline s).

(* ================================================================== *)
(** * Sample runs *)
(* ================================================================== *)

(** Python 3.6, a debug build and a custom name for version [1.0std]. *)
Definition derived_tag_example : args.t :=
  namespace [OptPy36; OptDebug; OptName "von"] "1.0std".

(** The same key given twice on the command line. *)
Definition precedence_example : args.t :=
  namespace [OptBuildArg "python_version=9"; OptBuildArg "indy_sdk_url=u";
             OptBuildArg "python_version=8"] "1.6".

(** Every command succeeds and nothing is on disk. *)
Definition quiet_world : World := {|
  files := fun _ => None;
  writable := fun _ => true;
  entropy := 0;
  docker := fun _ _ => Some {| returncode := 0; stdout := "0" |}
|}.

(** The main-image build returns 2. *)
Definition failing_world : World := {|
  files := fun _ => None;
  writable := fun _ => true;
  entropy := 7;
  docker := fun s _ =>
    match s with
    | MainBuild => Some {| returncode := 2; stdout := "" |}
    | _ => Some {| returncode := 0; stdout := "" |}
    end
|}.

(** Both builds succeed and the inspection prints nothing. *)
Definition unreadable_world : World := {|
  files := fun _ => None;
  writable := fun _ => true;
  entropy := 0;
  docker := fun s _ =>
    match s with
    | Inspect => Some {| returncode := 1; stdout := "" |}
    | _ => Some {| returncode := 0; stdout := "" |}
    end
|}.

(** A tree with a Dockerfile and a test Dockerfile for version [1.6]. *)
Definition template_world : World := {|
  files := fun q =>
    if String.eqb q "1.6/Dockerfile.ubuntu" then
      Some ("FROM ubuntu:16.04" ++ nl ++ "ARG FOO=bar" ++ nl
            ++ "ARG  python_version" ++ nl ++ "RUN make" ++ nl)
    else if String.eqb q "1.6/Dockerfile.test" then
      Some ("ARG base_image" ++ nl ++ "FROM $base_image" ++ nl)
    else None;
  writable := fun _ => true;
  entropy := 0;
  docker := fun _ _ => None
|}.

(** A Dockerfile with DOS line endings and no ARG line. *)
Definition crlf_template : string :=
  "FROM a" ++ String Py.carriage_return nl ++ "RUN b" ++ String Py.carriage_return nl.

(** A tree whose Dockerfile for version [1.6] is [crlf_template]. *)
Definition crlf_world : World := {|
  files := fun q =>
    if String.eqb q "1.6/Dockerfile.ubuntu" then Some crlf_template else None;
  writable := fun _ => true;
  entropy := 0;
  docker := fun _ _ => None
|}.

(* ================================================================== *)
(** * Further vocabulary: resolution *)
(* ================================================================== *)

(** The number of occurrences of [c] in [s]. *)
Fixpoint count (c : ascii) (s : string) : nat :=
  match s with
  | EmptyString => 0
  | String c' s' => (if Ascii.eqb c' c then 1 else 0) + count c s'
  end.

(** The tag is absent (or empty) or has exactly one [":"]. *)
Definition tag_accepted (a : args.t) : bool :=
  negb (Py.truthy_opt (args.tag a))
  || (count ":" (default EmptyString (args.tag a)) =? 1)%nat.

(** Every [--build-arg] token has exactly one ["="]. *)
Definition build_args_accepted (a : args.t) : bool :=
  forallb (fun tok => (count "=" tok =? 1)%nat) (default [] (args.build_arg a)).

(* ================================================================== *)
(** * Further vocabulary: runs *)
(* ================================================================== *)

(** [triple P m N E]: started in a state of [P], [m] returns [x] in a
    state of [N x], or ends the script with exit status [n] in a state
    of [E n]. *)
Definition triple {A} (P : State -> Prop) (m : M A)
           (N : A -> State -> Prop) (E : Z -> State -> Prop) : Prop :=
  forall st,
    P st ->
    match m st with
    | (Ok x, st') => N x st'
    | (Exit n, st') => E n st'
    | (Raise _, st') => E 1%Z st'
    end.

(** [m] keeps [I], however it ends. *)
Definition inv {A} (I : State -> Prop) (m : M A) : Prop :=
  triple I m (fun _ => I) (fun _ => I).

(** The external commands of a trace, in the order they were run. *)
Fixpoint calls_of (tr : list event) : list (step * list string) :=
  match tr with
  | [] => []
  | Run s argv _ _ :: rest => (s, argv) :: calls_of rest
  | Print _ :: rest => calls_of rest
  end.

Definition steps_of (tr : list event) : list step := map fst (calls_of tr).

(** The place of a step in the script. *)
Definition rank (s : step) : nat :=
  match s with
  | BaseBuild => 0
  | MainBuild => 1
  | Inspect => 2
  | S2iBuild => 3
  | TestBuild => 4
  | TestRun => 5
  | Push => 6
  end.

(** The steps of the trace are in script order and all before place [r]. *)
Definition below (r : nat) (st : State) : Prop :=
  StronglySorted lt (map rank (steps_of (trace st)))
  /\ Forall (fun s => rank s < r) (steps_of (trace st)).

(** However the script ends, its steps are in script order. *)
Definition in_order : Z -> State -> Prop := fun _ => below 7.

(** The test run of the trace returned 0. *)
Definition tests_passed (tr : list event) : Prop :=
  exists argv cap proc,
    In (Run TestRun argv cap (Some proc)) tr /\ returncode proc = 0%Z.

(** No push has been run. *)
Definition before_push (st : State) : Prop := ~ In Push (steps_of (trace st)).

(** No push has been run, or the test run returned 0. *)
Definition push_justified (st : State) : Prop :=
  before_push st \/ tests_passed (trace st).

(** The external commands run so far are [l]. *)
Definition called (l : list (step * list string)) (st : State) : Prop :=
  calls_of (trace st) = l.

(** An exit that does not happen. *)
Definition never : Z -> State -> Prop := fun _ _ => False.

(** The argument vectors of lines 170, 176-179, 195-196, 200 and 208. *)
Definition inspect_cmd (p : Resolved) : list string :=
  ["docker"; "image"; "inspect"; tag p; "--format={{.Size}}"].

Definition s2i_cmd (p : Resolved) : list string :=
  [ "docker"; "build"; "--build-arg"; "base_image=" ++ tag p; "-t"; s2i_tag p;
    "-f"; target p ++ "/Dockerfile.s2i"; target p ].

Definition test_build_cmd (p : Resolved) : list string :=
  [ "docker"; "build"; "--build-arg"; "base_image=" ++ tag p;
    "-t"; tag p ++ "-test"; "-f"; target p ++ "/Dockerfile.test"; target p ].

Definition test_run_cmd (p : Resolved) : list string :=
  ["docker"; "run"; "--rm"; "-i"; tag p ++ "-test"].

Definition push_cmd (a : args.t) (p : Resolved) : list string :=
  ["docker"; "push"; if args.s2i a then s2i_tag p else tag p].

(** The commands of a run in which every step succeeds. *)
Definition full_sequence (w : World) (a : args.t) (p : Resolved)
  : list (step * list string) :=
  ([ (BaseBuild, fst (build_commands a p (cachebust w)));
     (MainBuild, snd (build_commands a p (cachebust w)));
     (Inspect, inspect_cmd p) ]
     ++ (if args.s2i a then [(S2iBuild, s2i_cmd p)] else []))
    ++ (if args.test a || args.push a
        then [(TestBuild, test_build_cmd p); (TestRun, test_run_cmd p)]
        else [])
    ++ (if args.push a then [(Push, push_cmd a p)] else []).

(** The namespace with its empty strings taken for absent values. *)
Definition absent_if_empty (o : option string) : option string :=
  match o with
  | Some EmptyString => None
  | _ => o
  end.

Definition without_empty (a : args.t) : args.t :=
  {| args.name := args.name a;
     args.tag := absent_if_empty (args.tag a);
     args.file := absent_if_empty (args.file a);
     args.build_arg := args.build_arg a;
     args.debug := args.debug a;
     args.dry_run := args.dry_run a;
     args.no_cache := args.no_cache a;
     args.output := absent_if_empty (args.output a);
     args.python := absent_if_empty (args.python a);
     args.push := args.push a;
     args.quiet := args.quiet a;
     args.s2i := args.s2i a;
     args.squash := args.squash a;
     args.test := args.test a;
     args.version := args.version a |}.

(** The flags both build commands share (lines 143-148). *)
Definition cache_flags (a : args.t) : list string :=
  (if args.no_cache a then ["--no-cache"] else [])
    ++ (if args.squash a then ["--squash"] else []).

(** Neither a newline nor a carriage return. *)
Definition not_break (c : ascii) : bool :=
  negb (Ascii.eqb c Py.newline) && negb (Ascii.eqb c Py.carriage_return).

Definition not_cr (c : ascii) : bool := negb (Ascii.eqb c Py.carriage_return).

(** Lines as a file yields them: each ends with its only newline, except
    that the last one may have none. *)
Inductive proper : list string -> Prop :=
| proper_nil : proper []
| proper_open (l : string) :
    all Py.not_newline l = true -> l <> EmptyString -> proper [l]
| proper_closed (body : string) (rest : list string) :
    all Py.not_newline body = true -> proper rest -> proper ((body ++ nl) :: rest).

(** A 7-bit character that is not whitespace. *)
Definition solid (c : ascii) : bool :=
  negb (Py.is_space c) && (Py.code c <? 128)%nat.

(** What the accumulator of a decimal reading becomes after more digits. *)
Definition read_on (d : Decimal.uint) (acc : N) : N :=
  match acc with
  | N0 => Pos.of_uint d
  | Npos a => Npos (Pos.of_uint_acc d a)
  end.

(** The events a dry run may log, and the events before any push. *)
Definition is_print (e : event) : bool := negb (is_run e).

Definition not_push (e : event) : bool :=
  match e with
  | Run Push _ _ _ => false
  | _ => true
  end.

Definition any_event (e : event) : bool := true.

(** The exit statuses the script sets itself. *)
Definition status_0_or_1 (n : Z) (st : State) : Prop := n = 0%Z \/ n = 1%Z.

(* ================================================================== *)
(** * Facts about the Python primitives *)
(* ================================================================== *)

Lemma append_assoc (s1 s2 s3 : string) : (s1 ++ s2) ++ s3 = s1 ++ (s2 ++ s3).
Proof.
  induction s1 as [|c s1 IH]; simpl; [reflexivity | now rewrite IH].
Qed.

Lemma append_nil_r (s : string) : s ++ "" = s.
Proof.
  induction s as [|c s IH]; simpl; [reflexivity | now rewrite IH].
Qed.

Lemma slice_0_1 (s : string) : Py.slice 0 1 s = char_at 0 s.
Proof. destruct s as [|c [|c' s]]; reflexivity. Qed.

Lemma slice_2_3 (s : string) : Py.slice 2 3 s = char_at 2 s.
Proof.
  destruct s as [|c0 [|c1 [|c2 [|c3 s]]]]; reflexivity.
Qed.

(** A string without the separator is not cut. *)
Lemma split_no_sep (sep : ascii) (n : nat) (s : string) :
  contains sep s = false -> Py.split sep n s = [s].
Proof.
  induction s as [|c s IH]; simpl; intros H; [reflexivity|].
  apply orb_false_iff in H as [Hc Hs].
  rewrite Hc, (IH Hs). reflexivity.
Qed.

(** Unpacking the parts of a split ends in a pair or in [ValueError]. *)
Lemma unpack2_cases (l : list string) :
  (exists a b, unpack2 l = Ok (a, b)) \/ unpack2 l = Raise ValueError.
Proof.
  destruct l as [|a [|b [|c l]]]; simpl; eauto.
Qed.

Lemma add_build_args_cases (toks : list string) (d : Py.dict) :
  (exists d', add_build_args toks d = Ok d') \/ add_build_args toks d = Raise ValueError.
Proof.
  revert d; induction toks as [|tok toks IH]; intros d; simpl.
  - eauto.
  - destruct (unpack2_cases (Py.split "=" 2 tok)) as [(k & v & E) | E]; rewrite E.
    + apply IH.
    + now right.
Qed.

(** One token without ['='] makes the whole loop fail. *)
Lemma add_build_args_malformed (toks : list string) (tok : string) (d : Py.dict) :
  In tok toks -> contains "=" tok = false ->
  add_build_args toks d = Raise ValueError.
Proof.
  revert d; induction toks as [|t toks IH]; intros d Hin Hno; [destruct Hin|].
  simpl. destruct Hin as [-> | Hin].
  - rewrite (split_no_sep _ _ _ Hno). reflexivity.
  - destruct (unpack2_cases (Py.split "=" 2 t)) as [(k & v & E) | E]; rewrite E.
    + now apply IH.
    + reflexivity.
Qed.

Lemma resolve_tag_cases (a : args.t) (v : ver.t) (py : string) :
  (exists r, resolve_tag a v py = Ok r) \/ resolve_tag a v py = Raise ValueError.
Proof.
  unfold resolve_tag. destruct (Py.truthy_opt (args.tag a)).
  - destruct (unpack2_cases (Py.split ":" 2 (default "" (args.tag a))))
      as [(x & y & E) | E]; rewrite E; simpl; eauto.
  - simpl; eauto.
Qed.

(** ** The namespace built from the options *)

Lemma all_of_fold {A} (f : cli_option -> option A) (opts : list cli_option)
      (acc : option (list A)) :
  fold_left
    (fun acc o =>
       match f o with
       | Some x => Some (match acc with Some l => l ++ [x] | None => [x] end)%list
       | None => acc
       end) opts acc
  = match collect f opts with
    | [] => acc
    | l => Some (default [] acc ++ l)%list
    end.
Proof.
  revert acc; induction opts as [|o opts IH]; intros acc; simpl; [reflexivity|].
  rewrite IH. destruct (f o) as [x|]; [|reflexivity].
  simpl. destruct (collect f opts) as [|y l]; destruct acc as [l0|]; simpl;
    rewrite <- ?app_assoc; reflexivity.
Qed.

Lemma all_of_collect {A} (f : cli_option -> option A) (opts : list cli_option) :
  all_of f opts = match collect f opts with [] => None | l => Some l end.
Proof.
  unfold all_of. rewrite all_of_fold. reflexivity.
Qed.

Lemma build_arg_given (opts : list cli_option) (version tok : string) :
  In (OptBuildArg tok) opts ->
  exists toks, args.build_arg (namespace opts version) = Some toks /\ In tok toks.
Proof.
  intros Hin. simpl. rewrite all_of_collect.
  assert (H : In tok (collect (fun o => match o with OptBuildArg s => Some s | _ => None end) opts)).
  { induction opts as [|o opts IH]; [destruct Hin|].
    destruct Hin as [-> | Hin]; simpl; [now left|].
    destruct o; simpl; auto. }
  destruct (collect _ opts) as [|x l]; [destruct H|].
  eexists; split; [reflexivity | exact H].
Qed.

Lemma lookup_version_known (cat : list (string * ver.t)) (key : string) :
  existsb (String.eqb key) (keys cat) = true ->
  exists v, lookup_version cat key = Some v.
Proof.
  induction cat as [|[k v] cat IH]; simpl; [discriminate|].
  destruct (String.eqb key k); simpl; eauto.
Qed.

Lemma known_version_iff (version : string) :
  existsb (String.eqb version) (keys VERSIONS) = true <-> In version (keys VERSIONS).
Proof.
  rewrite existsb_exists. split.
  - intros (k & Hin & E). apply String.eqb_eq in E. now subst.
  - intros Hin. exists version. split; [exact Hin | apply String.eqb_refl].
Qed.

(* ================================================================== *)
(** * The resolved plan *)
(* ================================================================== *)

(** C1.  Invoked with version ["1.6"] and no option, the script resolves
    a build-argument mapping that holds the catalog's [indy_sdk_url] and
    [indy_crypto_url], [python_version=3.5.5] and
    [indy_build_flags=--release], and the tag is
    [bcgovimages/von-image:py35-1.6-11]. *)
Theorem version_1_6_defaults :
  exists a p v,
    parse_args [] "1.6" = Ok a /\
    resolve a = Ok p /\
    lookup_version VERSIONS "1.6" = Some v /\
    Py.get (build_args p) "indy_sdk_url" = Py.get (ver.args v) "indy_sdk_url" /\
    Py.get (build_args p) "indy_sdk_url"
      = Some "https://codeload.github.com/hyperledger/indy-sdk/tar.gz/5a37407baaf756b3c4f5cac802717dc4a2bd1660" /\
    Py.get (build_args p) "indy_crypto_url" = Py.get (ver.args v) "indy_crypto_url" /\
    Py.get (build_args p) "indy_crypto_url"
      = Some "https://codeload.github.com/hyperledger/indy-crypto/tar.gz/a2864642430064c6f00902e9b999cc6356eed9f1" /\
    Py.get (build_args p) "python_version" = Some "3.5.5" /\
    Py.get (build_args p) "indy_build_flags" = Some "--release" /\
    tag p = "bcgovimages/von-image:py35-1.6-11".
Proof.
  do 3 eexists. repeat split; reflexivity.
Qed.

(** C2.  Without [--tag], the tag is
    [<name>:py<major><minor>-<version-label>[-debug]]: [<major>] and
    [<minor>] are the first and the third character of the resolved python
    version, the label is the entry's version field or else the version
    key, and [-debug] is there exactly when the debug flag is set. *)
Theorem derived_tag_format (a : args.t) (v : ver.t) :
  args.tag a = None ->
  (forall py,
      resolve_tag a v py
      = Ok (args.name a,
            "py" ++ char_at 0 py ++ char_at 2 py ++ "-" ++ version_label a v
                 ++ (if args.debug a then "-debug" else ""),
            spec_tag (args.name a) py (version_label a v) (args.debug a))) /\
  (forall p,
      lookup_version VERSIONS (args.version a) = Some v ->
      resolve a = Ok p ->
      py_ver p = resolve_py_ver a v /\
      tag p = spec_tag (args.name a) (py_ver p) (version_label a v) (args.debug a)).
Proof.
  intros Htag.
  assert (T : forall py,
             resolve_tag a v py
             = Ok (args.name a,
                   "py" ++ char_at 0 py ++ char_at 2 py ++ "-" ++ version_label a v
                        ++ (if args.debug a then "-debug" else ""),
                   spec_tag (args.name a) py (version_label a v) (args.debug a))).
  { intros py. unfold resolve_tag, spec_tag, version_label. rewrite Htag. simpl.
    rewrite slice_0_1, slice_2_3.
    destruct (args.debug a); simpl;
      rewrite ?append_assoc, ?append_nil_r; reflexivity. }
  split; [exact T|].
  intros p Hv Hres. unfold resolve in Hres. rewrite Hv, T in Hres. simpl in Hres.
  destruct (resolve_build_args _ _ _ _ _) as [d | n | e]; inversion Hres; subst.
  simpl. split; reflexivity.
Qed.

Lemma derived_tag_format_witness :
  exists v p,
    lookup_version VERSIONS "1.0std" = Some v /\
    resolve derived_tag_example = Ok p /\
    tag p = "von:py36-1.0std-debug".
Proof.
  eexists. eexists. split; [reflexivity|]. split; [reflexivity|].
  exact (proj2 (proj2 (derived_tag_format derived_tag_example _ eq_refl) _ eq_refl eq_refl)).
Defined.

(* ================================================================== *)
(** * Merging of the build arguments *)
(* ================================================================== *)

Lemma get_set (d : Py.dict) (k k' v : string) :
  Py.get (Py.set d k' v) k = if String.eqb k k' then Some v else Py.get d k.
Proof.
  induction d as [|[k0 v0] d IH]; simpl.
  - reflexivity.
  - destruct (String.eqb_spec k' k0) as [-> | Hne]; simpl.
    + destruct (String.eqb k k0); reflexivity.
    + destruct (String.eqb_spec k k0) as [-> | Hne'].
      * destruct (String.eqb_spec k0 k') as [E | _]; [congruence | reflexivity].
      * exact IH.
Qed.

Lemma get_update (l : list (string * string)) (d : Py.dict) (k : string) :
  Py.get (Py.update d l) k
  = match last_binding l k with Some v => Some v | None => Py.get d k end.
Proof.
  unfold Py.update. revert d; induction l as [|[k' v] l IH]; intros d; simpl.
  - reflexivity.
  - rewrite IH. destruct (last_binding l k); [reflexivity|].
    rewrite get_set. destruct (String.eqb k k'); reflexivity.
Qed.

Lemma add_build_args_update (toks : list string) (d d' : Py.dict) :
  add_build_args toks d = Ok d' ->
  exists user, Forall2 token_denotes toks user /\ d' = Py.update d user.
Proof.
  revert d; induction toks as [|tok toks IH]; intros d H; simpl in H.
  - inversion H; subst. exists []. split; [constructor | reflexivity].
  - destruct (unpack2 (Py.split "=" 2 tok)) as [[k v] | n | e] eqn:E; try discriminate.
    destruct (IH _ H) as (user & HF & ->).
    exists ((k, v) :: user). split; [constructor; assumption | reflexivity].
Qed.

(** The mapping is the three updates in the order of the script. *)
Lemma build_args_merge (a : args.t) (v : ver.t) (p : Resolved) :
  lookup_version VERSIONS (args.version a) = Some v ->
  resolve a = Ok p ->
  exists user,
    Forall2 token_denotes (default [] (args.build_arg a)) user /\
    build_args p = Py.update (Py.update (Py.update [] (ver.args v)) (derived_args a p)) user.
Proof.
  intros Hv Hres. unfold resolve in Hres. rewrite Hv in Hres.
  destruct (resolve_tag a v (resolve_py_ver a v)) as [[[tn tv] tg] | n | e];
    try discriminate.
  simpl in Hres.
  destruct (resolve_build_args a v (resolve_py_ver a v) tn tv) as [d | n | e] eqn:E;
    try discriminate.
  inversion Hres; subst; clear Hres. simpl.
  unfold resolve_build_args in E. unfold derived_args; simpl.
  destruct (args.build_arg a) as [toks|]; simpl.
  - apply add_build_args_update in E as (user & HF & ->).
    exists user. split; [exact HF|].
    destruct (args.debug a); reflexivity.
  - inversion E; subst. exists []. split; [constructor|].
    destruct (args.debug a); reflexivity.
Qed.

Lemma split_nonempty (sep : ascii) (n : nat) (s : string) : Py.split sep n s <> [].
Proof.
  destruct s as [|c s]; simpl; [discriminate|].
  destruct (Ascii.eqb c sep); [destruct n; discriminate|].
  destruct (Py.split sep n s); discriminate.
Qed.

Lemma split_single (sep : ascii) (n : nat) (s x : string) :
  Py.split sep n s = [x] -> x = s.
Proof.
  revert n x; induction s as [|c s IH]; intros n x H; simpl in H.
  - now inversion H.
  - destruct (Ascii.eqb c sep).
    + destruct n; inversion H; subst; [reflexivity|].
      exfalso. eapply split_nonempty; eauto.
    + destruct (Py.split sep n s) as [|h t] eqn:E; inversion H; subst.
      * exfalso. eapply split_nonempty; eauto.
      * now rewrite (IH _ _ E).
Qed.

Lemma split_key (sep : ascii) (n : nat) (k rest : string) :
  contains sep k = false ->
  Py.split sep (S n) (k ++ String sep rest) = k :: Py.split sep n rest.
Proof.
  induction k as [|c k IH]; simpl; intros H.
  - now rewrite Ascii.eqb_refl.
  - apply orb_false_iff in H as [Hc Hk]. rewrite Hc, (IH Hk). reflexivity.
Qed.

(** A token [k=val] that is accepted denotes the pair [(k, val)]. *)
Lemma token_denotes_key (k val : string) (kv : string * string) :
  contains "=" k = false ->
  token_denotes (key_val k val) kv -> kv = (k, val).
Proof.
  unfold token_denotes, key_val. intros Hk H. simpl in H.
  rewrite (split_key _ _ _ _ Hk) in H.
  destruct (Py.split "=" 1 val) as [|x [|y l]] eqn:E; simpl in H; try discriminate.
  inversion H; subst. now rewrite (split_single _ _ _ _ E).
Qed.

Lemma last_binding_app (l1 l2 : list (string * string)) (k : string) :
  last_binding (l1 ++ l2) k
  = match last_binding l2 k with Some v => Some v | None => last_binding l1 k end.
Proof.
  induction l1 as [|[k' v] l1 IH]; simpl.
  - destruct (last_binding l2 k); reflexivity.
  - rewrite IH. destruct (last_binding l2 k); reflexivity.
Qed.

(** C3.  The mapping is merged in the order catalog args, derived args
    ([python_version], [tag_name], [tag_version], the release flag), user
    [--build-arg] overrides, a later write winning; when [--build-arg] gives
    the same key twice, the mapping holds the value given last. *)
Theorem build_args_precedence (a : args.t) (v : ver.t) (p : Resolved) :
  lookup_version VERSIONS (args.version a) = Some v ->
  resolve a = Ok p ->
  exists user,
    Forall2 token_denotes (default [] (args.build_arg a)) user /\
    build_args p = Py.update (Py.update (Py.update [] (ver.args v)) (derived_args a p)) user /\
    (forall k,
        Py.get (build_args p) k = merged_lookup (ver.args v) (derived_args a p) user k) /\
    (forall k v1 v2 before between,
        contains "=" k = false ->
        args.build_arg a
        = Some (before ++ key_val k v1 :: between ++ [key_val k v2])%list ->
        Py.get (build_args p) k = Some v2).
Proof.
  intros Hv Hres.
  destruct (build_args_merge a v p Hv Hres) as (user & HF & Hb).
  assert (Hget : forall k,
             Py.get (build_args p) k
             = merged_lookup (ver.args v) (derived_args a p) user k).
  { intros k. rewrite Hb. unfold merged_lookup. rewrite !get_update. simpl.
    destruct (last_binding (ver.args v) k); reflexivity. }
  exists user. repeat split; try assumption.
  intros k v1 v2 before between Hk Htoks.
  rewrite Hget. unfold merged_lookup.
  rewrite Htoks in HF. simpl in HF.
  replace (before ++ key_val k v1 :: between ++ [key_val k v2])%list
    with ((before ++ key_val k v1 :: between) ++ [key_val k v2])%list in HF
    by (rewrite <- app_assoc; reflexivity).
  apply Forall2_app_inv_l in HF as (u1 & u2 & _ & H2 & ->).
  inversion H2 as [|tok kv l l' Hd Hnil]; subst.
  inversion Hnil; subst.
  apply (token_denotes_key _ _ _ Hk) in Hd. subst kv.
  rewrite last_binding_app. simpl. now rewrite String.eqb_refl.
Qed.

Lemma build_args_precedence_witness :
  exists v p,
    lookup_version VERSIONS "1.6" = Some v /\
    resolve precedence_example = Ok p /\
    Py.get (build_args p) "python_version" = Some "8".
Proof.
  eexists. eexists. split; [reflexivity|]. split; [reflexivity|].
  destruct (build_args_precedence precedence_example _ _ eq_refl eq_refl)
    as (user & _ & _ & _ & Hlast).
  exact (Hlast "python_version" "9" "8" [] ["indy_sdk_url=u"] eq_refl eq_refl).
Defined.

(* ================================================================== *)
(** * Fatal errors of the resolution *)
(* ================================================================== *)

Lemma resolve_malformed_build_arg (opts : list cli_option) (version tok : string) :
  In version (keys VERSIONS) ->
  In (OptBuildArg tok) opts ->
  contains "=" tok = false ->
  resolve (namespace opts version) = Raise ValueError.
Proof.
  intros Hver Hin Hno.
  apply known_version_iff in Hver.
  destruct (lookup_version_known _ _ Hver) as (v & Hv).
  destruct (build_arg_given opts version tok Hin) as (toks & Htoks & Htok).
  unfold resolve.
  replace (args.version (namespace opts version)) with version by reflexivity.
  rewrite Hv.
  destruct (resolve_tag_cases (namespace opts version) v
              (resolve_py_ver (namespace opts version) v)) as [([[tn tv] tg] & E) | E];
    rewrite E; [|reflexivity].
  cbn [bind Monad_Result].
  unfold resolve_build_args. rewrite Htoks.
  rewrite (add_build_args_malformed toks tok _ Htok Hno). reflexivity.
Qed.

(** C8.  An unknown version key and a [--build-arg] token without ['=']
    both end the run at once: nothing is run, printed or written, and the
    exit status is not zero. *)
Theorem unknown_version_and_malformed_build_arg_are_fatal
        (w : World) (opts : list cli_option) (version : string) :
  (~ In version (keys VERSIONS) ->
   main w opts version = (Exit 2, initial w)) /\
  (forall tok,
      In version (keys VERSIONS) ->
      In (OptBuildArg tok) opts ->
      contains "=" tok = false ->
      main w opts version = (Raise ValueError, initial w) /\
      exit_status (fst (main w opts version)) = 1%Z).
Proof.
  split.
  - intros Hnot. unfold main, make_image, parse_args.
    destruct (existsb (String.eqb version) (keys VERSIONS)) eqn:E.
    + apply known_version_iff in E. contradiction.
    + reflexivity.
  - intros tok Hver Hin Hno.
    assert (Hmain : main w opts version = (Raise ValueError, initial w)).
    { unfold main, make_image, parse_args.
      rewrite (proj2 (known_version_iff version) Hver).
      cbn [bind Monad_M lift].
      rewrite (resolve_malformed_build_arg opts version tok Hver Hin Hno).
      reflexivity. }
    rewrite Hmain. split; reflexivity.
Qed.

Lemma unknown_version_and_malformed_build_arg_are_fatal_witness :
  main quiet_world [] "2.0" = (Exit 2, initial quiet_world) /\
  main quiet_world [OptBuildArg "FOO"] "1.6" = (Raise ValueError, initial quiet_world).
Proof.
  split.
  - apply (proj1 (unknown_version_and_malformed_build_arg_are_fatal quiet_world [] "2.0")).
    simpl. intros H. repeat (destruct H as [H | H]; [discriminate H|]). exact H.
  - apply (proj2 (unknown_version_and_malformed_build_arg_are_fatal
                    quiet_world [OptBuildArg "FOO"] "1.6") "FOO").
    + simpl. tauto.
    + simpl. tauto.
    + reflexivity.
Defined.

(** C7.  What the script does with a second separator: [split] with
    [maxsplit = 2] cuts at the second one too, and the unpacking into two
    names raises [ValueError] before anything is run. *)
Theorem second_separator_raises (w : World) :
  Py.split "=" 2 "FOO=a=b" = ["FOO"; "a"; "b"] /\
  main w [OptBuildArg "FOO=a=b"] "1.6" = (Raise ValueError, initial w) /\
  Py.split ":" 2 "localhost:5000/von-image:dev" = ["localhost"; "5000/von-image"; "dev"] /\
  main w [OptTag "localhost:5000/von-image:dev"] "1.6" = (Raise ValueError, initial w).
Proof.
  repeat split; reflexivity.
Qed.

(* ================================================================== *)
(** * The ARG pattern *)
(* ================================================================== *)

Section Repetition.

Variable p : ascii -> bool.
Variable k : Re.cont.

Lemma take_drop_while (s : string) :
  Py.take_while p s ++ Py.drop_while p s = s.
Proof.
  induction s as [|c s IH]; simpl; [reflexivity|].
  destruct (p c); simpl; [now rewrite IH | reflexivity].
Qed.

Lemma substring_take_while (s : string) :
  substring 0 (String.length (Py.take_while p s)) s = Py.take_while p s.
Proof.
  induction s as [|c s IH]; simpl; [reflexivity|].
  destruct (p c); simpl; [now rewrite IH | reflexivity].
Qed.

(** When the continuation cannot start on a character of the class,
    the repetition is the longest run. *)
Lemma star_longest_blocked :
  (forall pos c t caps, p c = true -> k pos (String c t) caps = None) ->
  forall s pos caps,
    Re.star p pos s caps k
    = k (pos + String.length (Py.take_while p s)) (Py.drop_while p s) caps.
Proof.
  intros Hk s; induction s as [|c s IH]; intros pos caps; simpl.
  - now rewrite Nat.add_0_r.
  - destruct (p c) eqn:Hc; simpl.
    + rewrite IH, (Hk _ _ _ _ Hc), Nat.add_succ_r, Nat.add_succ_l.
      destruct (k _ _ _); reflexivity.
    + now rewrite Nat.add_0_r.
Qed.

(** When the success of the continuation is the same all along a run
    of the class, backtracking into the run cannot help. *)
Variable good : string -> bool.

Lemma good_drop_while :
  (forall c t, p c = true -> good (String c t) = good t) ->
  forall s, good (Py.drop_while p s) = good s.
Proof.
  intros Hg s; induction s as [|c s IH]; simpl; [reflexivity|].
  destruct (p c) eqn:Hc; [|reflexivity].
  now rewrite IH, (Hg _ _ Hc).
Qed.

Lemma star_longest_stable :
  (forall pos t caps, good t = false -> k pos t caps = None) ->
  (forall pos t caps, good t = true -> k pos t caps <> None) ->
  (forall c t, p c = true -> good (String c t) = good t) ->
  forall s pos caps,
    Re.star p pos s caps k
    = k (pos + String.length (Py.take_while p s)) (Py.drop_while p s) caps.
Proof.
  intros Hbad Hgood Hg s; induction s as [|c s IH]; intros pos caps; simpl.
  - now rewrite Nat.add_0_r.
  - destruct (p c) eqn:Hc; simpl.
    + rewrite IH, Nat.add_succ_r, Nat.add_succ_l.
      destruct (k (S (pos + _)) _ caps) eqn:E; [reflexivity|].
      apply Hbad. rewrite (Hg _ _ Hc), <- (good_drop_while Hg s).
      destruct (good (Py.drop_while p s)) eqn:G; [|reflexivity].
      exfalso. exact (Hgood _ _ caps G E).
    + now rewrite Nat.add_0_r.
Qed.

End Repetition.

Lemma space_not_word (c : ascii) : Py.is_space c = true -> Py.is_word c = false.
Proof.
  destruct c as [[] [] [] [] [] [] [] []]; vm_compute; congruence.
Qed.

Lemma word_not_newline (c : ascii) : Py.is_word c = true -> Py.not_newline c = true.
Proof.
  unfold Py.not_newline. destruct (Ascii.eqb_spec c Py.newline) as [-> | _];
    [vm_compute; congruence | reflexivity].
Qed.

Lemma word_not_eq (c : ascii) : Py.is_word c = true -> Ascii.eqb c "=" = false.
Proof.
  destruct (Ascii.eqb_spec c "=") as [-> | _]; [vm_compute; congruence | reflexivity].
Qed.

Lemma line_ends_cons (c : ascii) (t : string) :
  Py.not_newline c = true -> line_ends (String c t) = line_ends t.
Proof.
  unfold line_ends. simpl. now intros ->.
Qed.

Lemma line_ends_strip_eq (t : string) : line_ends (strip_eq t) = line_ends t.
Proof.
  destruct t as [|c t]; simpl; [reflexivity|].
  destruct (Ascii.eqb_spec c "=") as [-> | _]; [|reflexivity].
  symmetry. now apply line_ends_cons.
Qed.

(** Unfolding equations of the matcher. *)
Lemma run_Cat r1 r2 pos s caps k :
  Re.run (Re.Cat r1 r2) pos s caps k
  = Re.run r1 pos s caps (fun pos' s' caps' => Re.run r2 pos' s' caps' k).
Proof. reflexivity. Qed.

Lemma run_Chr c pos s caps k :
  Re.run (Re.Chr c) pos s caps k
  = match s with
    | String c' s' => if Ascii.eqb c' c then k (S pos) s' caps else None
    | EmptyString => None
    end.
Proof. reflexivity. Qed.

Lemma run_Opt r pos s caps k :
  Re.run (Re.Opt r) pos s caps k
  = match Re.run r pos s caps k with
    | Some res => Some res
    | None => k pos s caps
    end.
Proof. reflexivity. Qed.

Lemma run_Star p pos s caps k :
  Re.run (Re.Star p) pos s caps k = Re.star p pos s caps k.
Proof. reflexivity. Qed.

Lemma run_Plus p pos s caps k :
  Re.run (Re.Plus p) pos s caps k
  = match s with
    | String c s' => if p c then Re.star p (S pos) s' caps k else None
    | EmptyString => None
    end.
Proof. reflexivity. Qed.

Lemma run_Group r pos s caps k :
  Re.run (Re.Group r) pos s caps k
  = Re.run r pos s caps
           (fun pos' s' caps' => k pos' s' (caps' ++ [substring 0 (pos' - pos) s])%list).
Proof. reflexivity. Qed.

Lemma run_Eol pos s caps k :
  Re.run Re.Eol pos s caps k = if at_eol s then k pos s caps else None.
Proof.
  destruct s as [|c [|c' s]]; reflexivity.
Qed.

(** The second group and the end of the line. *)
Lemma run_rest_of_line (pos : nat) (t : string) (caps : list string) :
  Re.run (Re.Cat (Re.Group (Re.Star Py.not_newline)) Re.Eol) pos t caps final
  = if line_ends t then Some (caps ++ [Py.take_while Py.not_newline t])%list else None.
Proof.
  rewrite run_Cat, run_Group, run_Star.
  rewrite star_longest_blocked.
  - rewrite run_Eol.
    replace (pos + String.length (Py.take_while Py.not_newline t) - pos)
      with (String.length (Py.take_while Py.not_newline t)) by lia.
    rewrite substring_take_while. reflexivity.
  - intros pos' c r caps' Hc. rewrite run_Eol.
    unfold Py.not_newline in Hc. apply negb_true_iff in Hc.
    destruct r; simpl; [now rewrite Hc | reflexivity].
Qed.

(** The optional ["="], the second group and the end of the line. *)
Lemma run_after_name (pos : nat) (t : string) (caps : list string) :
  Re.run (Re.Cat (Re.Opt (Re.Chr "=")) (Re.Cat (Re.Group (Re.Star Py.not_newline)) Re.Eol))
         pos t caps final
  = if line_ends t
    then Some (caps ++ [Py.take_while Py.not_newline (strip_eq t)])%list
    else None.
Proof.
  rewrite run_Cat, run_Opt, run_Chr.
  destruct t as [|c t].
  - rewrite run_rest_of_line. reflexivity.
  - unfold strip_eq. destruct (Ascii.eqb_spec c "=") as [-> | Hne].
    + rewrite !run_rest_of_line.
      rewrite (line_ends_cons "=" t eq_refl).
      destruct (line_ends t); reflexivity.
    + now rewrite run_rest_of_line.
Qed.

(** The first group and all that follows it. *)
Lemma run_from_name (pos : nat) (t : string) (caps : list string) :
  Re.run (Re.Cat (Re.Group (Re.Plus Py.is_word))
            (Re.Cat (Re.Opt (Re.Chr "="))
               (Re.Cat (Re.Group (Re.Star Py.not_newline)) Re.Eol)))
         pos t caps final
  = let name := Py.take_while Py.is_word t in
    let rest := strip_eq (Py.drop_while Py.is_word t) in
    if Py.truthy name && line_ends rest
    then Some (caps ++ [name; Py.take_while Py.not_newline rest])%list
    else None.
Proof.
  rewrite run_Cat, run_Group, run_Plus.
  destruct t as [|c t]; [reflexivity|].
  cbn [Py.take_while Py.drop_while].
  destruct (Py.is_word c) eqn:Hc; [|reflexivity].
  rewrite (star_longest_stable Py.is_word _ line_ends).
  - rewrite run_after_name.
    replace (S pos + String.length (Py.take_while Py.is_word t) - pos)
      with (S (String.length (Py.take_while Py.is_word t))) by lia.
    cbn [substring]. rewrite substring_take_while.
    rewrite line_ends_strip_eq. cbn [Py.truthy andb].
    destruct (line_ends (Py.drop_while Py.is_word t)); [|reflexivity].
    now rewrite <- app_assoc.
  - intros pos' r caps' Hr. rewrite run_after_name, Hr. reflexivity.
  - intros pos' r caps' Hr. rewrite run_after_name, Hr. discriminate.
  - intros c' r Hc'. apply line_ends_cons. now apply word_not_newline.
Qed.

(** The backtracking matcher and the direct reading agree on every input. *)
Lemma match_arg_scan (line : string) :
  Re.match_ ARG_PATTERN line = arg_scan line.
Proof.
  unfold Re.match_, ARG_PATTERN, arg_scan. cbn [Re.seq].
  change (fun (_ : nat) (_ : string) (caps : list string) => Some caps) with final.
  rewrite run_Cat. cbn [Re.run Nat.eqb].
  destruct line as [|c1 line]; [reflexivity|]. cbn [strip_prefix].
  destruct (Ascii.eqb c1 "A"); [|reflexivity].
  destruct line as [|c2 line]; [reflexivity|]. cbn [strip_prefix].
  destruct (Ascii.eqb c2 "R"); [|reflexivity].
  destruct line as [|c3 line]; [reflexivity|]. cbn [strip_prefix].
  destruct (Ascii.eqb c3 "G"); [|reflexivity].
  destruct line as [|c line]; [reflexivity|].
  cbn [Py.take_while Py.drop_while].
  destruct (Py.is_space c) eqn:Hc; [|reflexivity].
  rewrite star_longest_blocked.
  - pose proof (run_from_name (4 + String.length (Py.take_while Py.is_space line))
                  (Py.drop_while Py.is_space line) []) as H.
    cbn [Re.run] in H. cbn [Nat.add] in H |- *. rewrite H. clear H.
    cbn zeta. cbn [Py.truthy andb app].
    reflexivity.
  - intros pos' c' t caps' Hc'. apply space_not_word in Hc'.
    now rewrite Hc'.
Qed.

(** ** Lines of the shape [ARG <name>=<default>] *)

Lemma take_while_app (p : ascii -> bool) (x y : string) :
  all p x = true -> blocked p y = true -> Py.take_while p (x ++ y) = x.
Proof.
  intros Hx Hy. induction x as [|c x IH]; simpl in *.
  - destruct y as [|c y]; simpl in *; [reflexivity|].
    apply negb_true_iff in Hy. now rewrite Hy.
  - apply andb_true_iff in Hx as [Hc Hx]. now rewrite Hc, (IH Hx).
Qed.

Lemma drop_while_app (p : ascii -> bool) (x y : string) :
  all p x = true -> blocked p y = true -> Py.drop_while p (x ++ y) = y.
Proof.
  intros Hx Hy. induction x as [|c x IH]; simpl in *.
  - destruct y as [|c y]; simpl in *; [reflexivity|].
    apply negb_true_iff in Hy. now rewrite Hy.
  - apply andb_true_iff in Hx as [Hc Hx]. now rewrite Hc, (IH Hx).
Qed.

Lemma arg_scan_shape (ws name dflt ending : string) :
  Py.truthy ws = true -> all Py.is_space ws = true ->
  Py.truthy name = true -> all Py.is_word name = true ->
  all Py.not_newline dflt = true ->
  ending = "" \/ ending = nl ->
  arg_scan ("ARG" ++ ws ++ name ++ "=" ++ dflt ++ ending) = Some [name; dflt].
Proof.
  intros Hws1 Hws Hn1 Hn Hd He.
  assert (Hb1 : blocked Py.is_space (name ++ "=" ++ dflt ++ ending) = true).
  { destruct name as [|c name]; [discriminate|]. simpl in *.
    apply andb_true_iff in Hn as [Hc _].
    destruct (Py.is_space c) eqn:Hs; [|reflexivity].
    apply space_not_word in Hs. congruence. }
  assert (Hb2 : blocked Py.not_newline ending = true)
    by (destruct He as [-> | ->]; reflexivity).
  assert (Hscan : forall rest,
             arg_scan ("ARG" ++ rest)
             = let ws := Py.take_while Py.is_space rest in
               let rest := Py.drop_while Py.is_space rest in
               let name := Py.take_while Py.is_word rest in
               let rest := strip_eq (Py.drop_while Py.is_word rest) in
               let dflt := Py.take_while Py.not_newline rest in
               let rest := Py.drop_while Py.not_newline rest in
               if Py.truthy ws && Py.truthy name && at_eol rest
               then Some [name; dflt] else None) by reflexivity.
  rewrite Hscan. cbv zeta.
  rewrite (take_while_app _ _ _ Hws Hb1), (drop_while_app _ _ _ Hws Hb1).
  rewrite (take_while_app Py.is_word name ("=" ++ dflt ++ ending) Hn eq_refl).
  rewrite (drop_while_app Py.is_word name ("=" ++ dflt ++ ending) Hn eq_refl).
  change (strip_eq ("=" ++ dflt ++ ending)) with (dflt ++ ending).
  rewrite (take_while_app _ _ _ Hd Hb2), (drop_while_app _ _ _ Hd Hb2).
  rewrite Hws1, Hn1. destruct He as [-> | ->]; reflexivity.
Qed.

Lemma match_groups (line : string) (m : list string) :
  Re.match_ ARG_PATTERN line = Some m -> exists name dflt, m = [name; dflt].
Proof.
  rewrite match_arg_scan. unfold arg_scan.
  destruct (strip_prefix "ARG" line); [|discriminate].
  destruct (_ && _); [|discriminate].
  intros H; inversion H; eauto.
Qed.

(* ================================================================== *)
(** * Template output *)
(* ================================================================== *)

(** The lines of a text make up the text. *)
Lemma text_of_lines (s : string) : text_of (Py.lines s) = s.
Proof.
  induction s as [|c s IH]; simpl; [reflexivity|].
  destruct (Ascii.eqb c Py.newline).
  - simpl. now rewrite IH.
  - destruct (Py.lines s) as [|l rest]; simpl in *.
    + now rewrite <- IH.
    + now rewrite <- IH.
Qed.

(** The loop of lines 129-133 appends the rewritten lines to [out] and
    touches nothing else. *)
Lemma for_each_write (out : string) (f : string -> string) (ls : list string)
      (st : State) (cur : string) :
  fs st out = Some cur ->
  let r := for_each ls (fun line => write out (f line)) st in
  fst r = Ok tt /\
  trace (snd r) = trace st /\
  fs (snd r) out = Some (cur ++ text_of (map f ls)) /\
  (forall q, q <> out -> fs (snd r) q = fs st q).
Proof.
  revert st cur; induction ls as [|l ls IH]; intros st cur Hcur.
  - simpl. rewrite append_nil_r. repeat split; auto.
  - set (st1 := store out (default "" (fs st out) ++ f l) st).
    assert (H1 : fs st1 out = Some (cur ++ f l)).
    { unfold st1, store; simpl. now rewrite String.eqb_refl, Hcur. }
    destruct (IH st1 _ H1) as (Hr & Ht & Hf & Hq).
    change (for_each (l :: ls) (fun line => write out (f line)) st)
      with (for_each ls (fun line => write out (f line)) st1).
    cbv zeta. repeat split.
    + exact Hr.
    + exact Ht.
    + rewrite Hf. simpl. now rewrite append_assoc.
    + intros q Hne. rewrite (Hq q Hne). unfold st1, store; simpl.
      destruct (String.eqb_spec q out); [contradiction | reflexivity].
Qed.

(** ** Stepping through a sequence *)

Lemma bind_Ok {A B} (m : M A) (f : A -> M B) (st st' : State) (x : A) :
  m st = (Ok x, st') -> bind m f st = f x st'.
Proof. intros H. cbn. now rewrite H. Qed.

Lemma bind_Exit {A B} (m : M A) (f : A -> M B) (st st' : State) (n : Z) :
  m st = (Exit n, st') -> bind m f st = (Exit n, st').
Proof. intros H. cbn. now rewrite H. Qed.

Lemma bind_Raise {A B} (m : M A) (f : A -> M B) (st st' : State) (e : exn) :
  m st = (Raise e, st') -> bind m f st = (Raise e, st').
Proof. intros H. cbn. now rewrite H. Qed.

Lemma make_image_resolved (w : World) (opts : list cli_option) (version : string)
      (a : args.t) (p : Resolved) (st : State) :
  parse_args opts version = Ok a ->
  resolve a = Ok p ->
  make_image w opts version st = run_plan w a p st.
Proof.
  intros Ha Hp. unfold make_image. rewrite Ha.
  rewrite (bind_Ok _ _ st st a eq_refl).
  rewrite Hp. now rewrite (bind_Ok _ _ st st p eq_refl).
Qed.

Section TemplateMode.

Variable w : World.
Variables (opts : list cli_option) (version : string).
Variables (a : args.t) (p : Resolved).
Variables (out src_path content : string) (src_replace : Py.dict).

Hypothesis Hparse : parse_args opts version = Ok a.
Hypothesis Hresolve : resolve a = Ok p.
Hypothesis Houtput : args.output a = Some out.
Hypothesis Hout : out <> "".
Hypothesis Hwritable : writable w out = true.
Hypothesis Hsource : template_source a p = (src_path, src_replace).
Hypothesis Hdistinct : src_path <> out.
Hypothesis Hcontent : files w src_path = Some content.

Lemma template_output_run :
  exists st,
    template_output w a p (initial w) = (Exit 0, st) /\
    trace st = [] /\
    fs st out = Some (text_of (rewritten_lines src_replace content)).
Proof.
  unfold template_output. rewrite Hsource, Houtput. cbn [default].
  set (st1 := store out "" (initial w)).
  assert (Hopen : open_w w out (initial w) = (Ok tt, st1))
    by (unfold open_w; now rewrite Hwritable).
  assert (Hread : open_r src_path st1 = (Ok (template_lines content), st1)).
  { unfold open_r, st1, store, initial; simpl.
    destruct (String.eqb_spec src_path out); [contradiction|].
    now rewrite Hcontent. }
  assert (Hcur : fs st1 out = Some "")
    by (unfold st1, store; simpl; now rewrite String.eqb_refl).
  destruct (for_each_write out (rewrite_line src_replace) (template_lines content)
              st1 "" Hcur) as (Hr & Ht & Hf & _).
  destruct (for_each (template_lines content) _ st1) as [r st2] eqn:Hloop.
  simpl in Hr, Ht, Hf. subst r.
  exists st2.
  rewrite (bind_Ok _ _ _ _ _ Hopen), (bind_Ok _ _ _ _ _ Hread), (bind_Ok _ _ _ _ _ Hloop).
  repeat split; assumption.
Qed.

Lemma main_template_output :
  fst (main w opts version) = Exit 0 /\
  trace (snd (main w opts version)) = [] /\
  fs (snd (main w opts version)) out
  = Some (text_of (rewritten_lines src_replace content)).
Proof.
  destruct template_output_run as (st & Hrun & Ht & Hf).
  unfold main. rewrite (make_image_resolved w opts version a p _ Hparse Hresolve).
  unfold run_plan. rewrite Houtput.
  replace (Py.truthy_opt (Some out)) with true
    by (destruct out; [contradiction | reflexivity]).
  cbn [when]. rewrite (bind_Exit _ _ _ _ _ Hrun).
  repeat split; assumption.
Qed.

End TemplateMode.

(** In template mode nothing is run or printed, however the run ends,
    and the statements after line 134 are never reached. *)
Lemma template_output_silent (w : World) (a : args.t) (p : Resolved) (st : State) :
  trace (snd (template_output w a p st)) = trace st /\
  (forall u, fst (template_output w a p st) <> Ok u).
Proof.
  unfold template_output. destruct (template_source a p) as [src_path src_replace].
  set (out := default "" (args.output a)).
  destruct (writable w out) eqn:Hw.
  - set (st1 := store out "" st).
    assert (Hopen : open_w w out st = (Ok tt, st1))
      by (unfold open_w; now rewrite Hw).
    rewrite (bind_Ok _ _ _ _ _ Hopen).
    destruct (fs st1 src_path) as [content|] eqn:Hsrc.
    + assert (Hread : open_r src_path st1
                      = (Ok (Py.lines (Py.universal_newlines content)), st1))
        by (unfold open_r; now rewrite Hsrc).
      rewrite (bind_Ok _ _ _ _ _ Hread).
      assert (Hcur : fs st1 out = Some "")
        by (unfold st1, store; simpl; now rewrite String.eqb_refl).
      destruct (for_each_write out (rewrite_line src_replace)
                  (Py.lines (Py.universal_newlines content)) st1 "" Hcur)
        as (Hr & Ht & _).
      destruct (for_each _ _ st1) as [r st2] eqn:Hloop.
      simpl in Hr, Ht. subst r.
      rewrite (bind_Ok _ _ _ _ _ Hloop). simpl.
      split; [exact Ht | discriminate].
    + assert (Hread : open_r src_path st1 = (Raise FileNotFoundError, st1))
        by (unfold open_r; now rewrite Hsrc).
      rewrite (bind_Raise _ _ _ _ _ Hread). simpl.
      split; [reflexivity | discriminate].
  - assert (Hopen : open_w w out st = (Raise OSError, st))
      by (unfold open_w; now rewrite Hw).
    rewrite (bind_Raise _ _ _ _ _ Hopen). simpl.
    split; [reflexivity | discriminate].
Qed.

Lemma main_template_silent (w : World) (opts : list cli_option) (version : string)
      (a : args.t) :
  parse_args opts version = Ok a ->
  Py.truthy_opt (args.output a) = true ->
  trace (snd (main w opts version)) = [].
Proof.
  intros Ha Hout. unfold main, make_image. rewrite Ha.
  rewrite (bind_Ok _ _ _ _ a eq_refl).
  destruct (resolve a) as [p | n | e] eqn:Hp.
  - rewrite (bind_Ok _ _ _ _ p eq_refl). unfold run_plan. rewrite Hout. cbn [when].
    destruct (template_output_silent w a p (initial w)) as (Ht & Hok).
    destruct (template_output w a p (initial w)) as [[u | n | e] st] eqn:E;
      simpl in Ht, Hok.
    + exfalso. exact (Hok u eq_refl).
    + now rewrite (bind_Exit _ _ _ _ _ E).
    + now rewrite (bind_Raise _ _ _ _ _ E).
  - now rewrite (bind_Exit (lift (Exit n)) _ (initial w) (initial w) n eq_refl).
  - now rewrite (bind_Raise (lift (Raise e)) _ (initial w) (initial w) e eq_refl).
Qed.

Lemma rewrite_line_match (d : Py.dict) (line name dflt : string) :
  Re.match_ ARG_PATTERN line = Some [name; dflt] ->
  rewrite_line d line
  = "ARG " ++ name ++ "=" ++ default dflt (Py.get d name) ++ nl.
Proof.
  intros H. unfold rewrite_line. rewrite H. unfold Py.get_default.
  change (Re.group 1 [name; dflt]) with name.
  change (Re.group 2 [name; dflt]) with dflt.
  destruct (Py.get d name); reflexivity.
Qed.

Lemma rewrite_line_no_match (d : Py.dict) (line : string) :
  Re.match_ ARG_PATTERN line = None -> rewrite_line d line = line.
Proof.
  intros H. unfold rewrite_line. now rewrite H.
Qed.

Lemma rewritten_nth (d : Py.dict) (content : string) (i : nat) (line : string) :
  nth_error (template_lines content) i = Some line ->
  nth_error (rewritten_lines d content) i = Some (rewrite_line d line).
Proof.
  intros H. unfold rewritten_lines. now rewrite nth_error_map, H.
Qed.

Lemma rewritten_identity (d : Py.dict) (ls : list string) :
  (forall line, In line ls -> Re.match_ ARG_PATTERN line = None) ->
  map (rewrite_line d) ls = ls.
Proof.
  induction ls as [|l ls IH]; intros H; simpl; [reflexivity|].
  rewrite (rewrite_line_no_match d l (H l (or_introl eq_refl))).
  rewrite IH; [reflexivity|]. intros line Hin. apply H. now right.
Qed.

(** C4.  Plain template output (neither [--test] nor [--s2i]): a line
    that matches the ARG pattern with name [name] is written as
    [ARG <name>=<value>], the value being the one the merged mapping gives
    to [name] and, when the mapping has none, the default found on the
    line; a line [ARG <name>=<default>] matches with that name and that
    default. *)
Theorem arg_lines_rewritten
        (w : World) (opts : list cli_option) (version : string)
        (a : args.t) (p : Resolved) (out content : string) :
  parse_args opts version = Ok a ->
  resolve a = Ok p ->
  args.output a = Some out -> out <> "" ->
  args.test a = false -> args.s2i a = false ->
  writable w out = true ->
  dockerfile p <> out ->
  files w (dockerfile p) = Some content ->
  fs (snd (main w opts version)) out
  = Some (text_of (rewritten_lines (build_args p) content)) /\
  (forall i line name dflt,
      nth_error (template_lines content) i = Some line ->
      Re.match_ ARG_PATTERN line = Some [name; dflt] ->
      nth_error (rewritten_lines (build_args p) content) i
      = Some ("ARG " ++ name ++ "="
                ++ match Py.get (build_args p) name with
                   | Some value => value
                   | None => dflt
                   end ++ nl)) /\
  (forall ws name dflt ending,
      Py.truthy ws = true -> all Py.is_space ws = true ->
      Py.truthy name = true -> all Py.is_word name = true ->
      all Py.not_newline dflt = true ->
      ending = "" \/ ending = nl ->
      Re.match_ ARG_PATTERN ("ARG" ++ ws ++ name ++ "=" ++ dflt ++ ending)
      = Some [name; dflt]).
Proof.
  intros Ha Hp Ho Hne Htest Hs2i Hw Hd Hc.
  assert (Hsrc : template_source a p = (dockerfile p, build_args p))
    by (unfold template_source; now rewrite Htest, Hs2i).
  destruct (main_template_output w opts version a p out (dockerfile p) content
              (build_args p) Ha Hp Ho Hne Hw Hsrc Hd Hc) as (_ & _ & Hf).
  split; [exact Hf|]. split.
  - intros i line name dflt Hi Hm.
    rewrite (rewritten_nth _ _ _ _ Hi), (rewrite_line_match _ _ _ _ Hm).
    destruct (Py.get (build_args p) name); reflexivity.
  - intros ws name dflt ending H1 H2 H3 H4 H5 H6.
    rewrite match_arg_scan. now apply arg_scan_shape.
Qed.

(** C5, amended.  Template output, in each of its three variants: the
    lines read are those of the template after the newline translation of
    text mode (a [\r\n] or a lone [\r] is read as [\n]); a line read
    that does not match the ARG pattern is written as it was read, so only
    matching lines can change; the [i]-th line written comes from the
    [i]-th line read; a template without matching lines is written as its
    translated text.  The file itself is copied byte for byte only when it
    has no carriage return. *)
Theorem other_lines_pass_through
        (w : World) (opts : list cli_option) (version : string)
        (a : args.t) (p : Resolved) (out src_path content : string)
        (src_replace : Py.dict) :
  parse_args opts version = Ok a ->
  resolve a = Ok p ->
  args.output a = Some out -> out <> "" ->
  writable w out = true ->
  template_source a p = (src_path, src_replace) ->
  src_path <> out ->
  files w src_path = Some content ->
  let read := template_lines content in
  let written := rewritten_lines src_replace content in
  text_of read = Py.universal_newlines content /\
  fs (snd (main w opts version)) out = Some (text_of written) /\
  length written = length read /\
  (forall i line,
      nth_error read i = Some line ->
      Re.match_ ARG_PATTERN line = None ->
      nth_error written i = Some line) /\
  (forall i line line',
      nth_error read i = Some line ->
      nth_error written i = Some line' ->
      line' <> line ->
      Re.match_ ARG_PATTERN line <> None) /\
  ((forall line, In line read -> Re.match_ ARG_PATTERN line = None) ->
   fs (snd (main w opts version)) out = Some (Py.universal_newlines content)).
Proof.
  intros Ha Hp Ho Hne Hw Hsrc Hd Hc read written.
  destruct (main_template_output w opts version a p out src_path content
              src_replace Ha Hp Ho Hne Hw Hsrc Hd Hc) as (_ & _ & Hf).
  split; [apply text_of_lines|].
  split; [exact Hf|].
  split; [apply length_map|].
  split; [|split].
  - intros i line Hi Hm. unfold written.
    now rewrite (rewritten_nth _ _ _ _ Hi), (rewrite_line_no_match _ _ Hm).
  - intros i line line' Hi Hi' Hdiff Hm. unfold written in Hi'.
    rewrite (rewritten_nth _ _ _ _ Hi), (rewrite_line_no_match _ _ Hm) in Hi'.
    inversion Hi'. congruence.
  - intros Hnone. rewrite Hf. unfold written, rewritten_lines.
    fold read. rewrite (rewritten_identity _ _ Hnone).
    unfold read, template_lines. now rewrite text_of_lines.
Qed.

(** C10, amended.  With a non-empty [--output] the script runs no
    external command and prints nothing, however the run ends.  When the
    plan resolves, the output path can be opened for writing and the
    template is present, it reads [<target>/Dockerfile.test] under
    [--test], else [<target>/Dockerfile.s2i] under [--s2i], else the
    Dockerfile, rewrites it with the mapping [{base_image: <tag>}] in the
    first two cases and with the merged build arguments otherwise, writes
    the result to the output path and exits with status 0. *)
Theorem template_mode
        (w : World) (opts : list cli_option) (version : string)
        (a : args.t) (out : string) :
  parse_args opts version = Ok a ->
  args.output a = Some out -> out <> "" ->
  trace (snd (main w opts version)) = [] /\
  (forall p content,
      resolve a = Ok p ->
      writable w out = true ->
      let src_path :=
        if args.test a then target p ++ "/Dockerfile.test"
        else if args.s2i a then target p ++ "/Dockerfile.s2i"
        else dockerfile p in
      let src_replace :=
        if args.test a || args.s2i a then [("base_image", tag p)]
        else build_args p in
      src_path <> out ->
      files w src_path = Some content ->
      fst (main w opts version) = Exit 0 /\
      exit_status (fst (main w opts version)) = 0%Z /\
      fs (snd (main w opts version)) out
      = Some (text_of (rewritten_lines src_replace content))).
Proof.
  intros Ha Ho Hne. split.
  - apply (main_template_silent w opts version a Ha).
    rewrite Ho. destruct out; [contradiction | reflexivity].
  - intros p content Hp Hw src_path src_replace Hd Hc.
    assert (Hsrc : template_source a p = (src_path, src_replace)).
    { unfold template_source, src_path, src_replace.
      destruct (args.test a), (args.s2i a); reflexivity. }
    destruct (main_template_output w opts version a p out src_path content
                src_replace Ha Hp Ho Hne Hw Hsrc Hd Hc) as (Hr & _ & Hf).
    rewrite Hr. repeat split. exact Hf.
Qed.

(* ================================================================== *)
(** * Traces of the build, test and push sequence *)
(* ================================================================== *)

Create HintDb effects.

Section Effects.

Variable w : World.

(** ** The trace only grows *)

Lemma grows_ret {A} (x : A) : grows (ret x : M A).
Proof. intros st. exists []. simpl. now rewrite app_nil_r. Qed.

Lemma grows_lift {A} (r : Result A) : grows (lift r).
Proof. intros st. exists []. simpl. now rewrite app_nil_r. Qed.

Lemma grows_sys_exit {A} (n : Z) : grows (sys_exit n : M A).
Proof. intros st. exists []. simpl. now rewrite app_nil_r. Qed.

Lemma grows_print (o : output) : grows (print o).
Proof. intros st. now exists [Print o]. Qed.

Lemma grows_randint (lo hi : Z) : grows (randint w lo hi).
Proof. intros st. exists []. simpl. now rewrite app_nil_r. Qed.

Lemma grows_subprocess_run (s : step) (argv : list string) (cap : bool) :
  grows (subprocess_run w s argv cap).
Proof.
  intros st. unfold subprocess_run.
  destruct (docker w s argv); eexists; reflexivity.
Qed.

Lemma grows_bind {A B} (m : M A) (f : A -> M B) :
  grows m -> (forall x, grows (f x)) -> grows (bind m f).
Proof.
  intros Hm Hf st. destruct (Hm st) as (more & E). cbn.
  destruct (m st) as [[x | n | e] st1]; simpl in E.
  - destruct (Hf x st1) as (more' & E'). exists (more ++ more')%list.
    now rewrite E', E, app_assoc.
  - now exists more.
  - now exists more.
Qed.

Lemma grows_when (b : bool) (m : M unit) : grows m -> grows (when b m).
Proof. destruct b; [trivial | intros _; apply grows_ret]. Qed.

Hint Resolve grows_ret grows_lift grows_sys_exit grows_print grows_randint
     grows_subprocess_run grows_bind grows_when : effects.

Lemma grows_s2i_phase (a : args.t) (p : Resolved) : grows (s2i_phase w a p).
Proof. unfold s2i_phase. destruct (args.dry_run a); auto 10 with effects. Qed.

Lemma grows_test_push_phase (a : args.t) (p : Resolved) :
  grows (test_push_phase w a p).
Proof. unfold test_push_phase. auto 20 with effects. Qed.

(** What follows a statement can only add to its trace. *)
Lemma trace_after {A B} (m : M A) (f : A -> M B) (st : State) :
  (forall x, grows (f x)) ->
  exists more, trace (snd (bind m f st)) = (trace (snd (m st)) ++ more)%list.
Proof.
  intros Hf. cbn. destruct (m st) as [[x | n | e] st1]; simpl.
  - apply Hf.
  - exists []. now rewrite app_nil_r.
  - exists []. now rewrite app_nil_r.
Qed.

(** ** A failed step ends the run *)

Lemma clean_app (t1 t2 : list event) : clean (t1 ++ t2) <-> clean t1 /\ clean t2.
Proof. unfold clean. rewrite forallb_app. apply andb_true_iff. Qed.

Lemma safe_silent {A} (m : M A) :
  (forall st, trace (snd (m st)) = trace st) -> safe m.
Proof. intros H st Hc. left. now rewrite H. Qed.

Lemma safe_ret {A} (x : A) : safe (ret x : M A).
Proof. now apply safe_silent. Qed.

Lemma safe_lift {A} (r : Result A) : safe (lift r).
Proof. now apply safe_silent. Qed.

Lemma safe_sys_exit {A} (n : Z) : safe (sys_exit n : M A).
Proof. now apply safe_silent. Qed.

Lemma safe_randint (lo hi : Z) : safe (randint w lo hi).
Proof. now apply safe_silent. Qed.

Lemma safe_print (o : output) : safe (print o).
Proof.
  intros st Hc. left. simpl. apply clean_app. split; [exact Hc | reflexivity].
Qed.

Lemma safe_bind {A B} (m : M A) (f : A -> M B) :
  safe m -> (forall x, safe (f x)) -> safe (bind m f).
Proof.
  intros Hm Hf st Hc. specialize (Hm st Hc). cbn.
  destruct (m st) as [[x | n | e] st1]; simpl in Hm.
  - destruct Hm as [Hm | [Hm _]]; [now apply Hf | discriminate].
  - destruct Hm as [Hm | [Hm Ha]]; [now left | right].
    split; [now inversion Hm | exact Ha].
  - destruct Hm as [Hm | [Hm _]]; [now left | discriminate].
Qed.

Lemma safe_when (b : bool) (m : M unit) : safe m -> safe (when b m).
Proof. destruct b; [trivial | intros _; apply safe_ret]. Qed.

(** The size inspection is run without a test of its return code. *)
Lemma safe_unchecked (s : step) (argv : list string) (cap : bool) :
  checked s = false -> safe (subprocess_run w s argv cap).
Proof.
  intros Hs st Hc. left. unfold subprocess_run.
  destruct (docker w s argv) as [proc|]; simpl;
    apply clean_app; (split; [exact Hc|]); unfold clean; simpl;
    rewrite ?Hs; reflexivity.
Qed.

(** A step followed by the test of its return code. *)
Lemma safe_tested {B} (s : step) (argv : list string) (cap : bool)
      (g : CompletedProcess -> M B) :
  (forall proc, nonzero (returncode proc) = false -> safe (g proc)) ->
  (forall proc, nonzero (returncode proc) = true -> aborts (g proc)) ->
  safe (bind (subprocess_run w s argv cap) g).
Proof.
  intros Hok Hfail st Hc. cbn. unfold subprocess_run.
  destruct (docker w s argv) as [proc|].
  - set (st1 := log (Run s argv cap (Some proc)) st).
    destruct (nonzero (returncode proc)) eqn:Hrc.
    + destruct (Hfail proc Hrc st1) as (msg & E). rewrite E. simpl.
      destruct (checked s) eqn:Hs.
      * right. split; [reflexivity|].
        exists (trace st), (Run s argv cap (Some proc)), msg.
        split; [now rewrite <- app_assoc|]. split; [exact Hc|].
        simpl. now rewrite Hs, Hrc.
      * left. rewrite <- app_assoc. apply clean_app. split; [exact Hc|].
        unfold clean. simpl. now rewrite Hs.
    + apply Hok; [exact Hrc|].
      unfold st1. simpl. apply clean_app. split; [exact Hc|].
      unfold clean. simpl. rewrite Hrc, andb_false_r. reflexivity.
  - left. simpl. apply clean_app. split; [exact Hc | reflexivity].
Qed.

Lemma aborts_when_bind {B} (msg : string) (k : unit -> M B) :
  aborts (bind (when true (bind (print (Text msg)) (fun _ => sys_exit 1))) k).
Proof. intros st. now exists msg. Qed.

Lemma aborts_when (msg : string) :
  aborts (when true (bind (print (Text msg)) (fun _ => sys_exit 1))).
Proof. intros st. now exists msg. Qed.

Hint Resolve safe_ret safe_lift safe_sys_exit safe_randint safe_print
     safe_bind safe_when : effects.

(** Discharges [safe] for a step with its test and what follows. *)
Ltac tested :=
  let H := fresh "Hrc" in
  apply safe_tested;
  [ intros ? H; rewrite H; clear H
  | intros ? H; rewrite H; first [apply aborts_when_bind | apply aborts_when] ].

Lemma safe_build_phase (a : args.t) (p : Resolved) (cmd_base cmd : list string) :
  safe (build_phase w a p cmd_base cmd).
Proof.
  unfold build_phase. destruct (args.dry_run a); [auto with effects|].
  apply safe_bind; [auto with effects | intros _].
  tested. apply safe_bind; [auto with effects | intros _].
  tested. do 2 (apply safe_bind; [auto with effects | intros _]).
  apply safe_bind; [now apply safe_unchecked | intros proc_sz].
  auto with effects.
Qed.

Lemma safe_s2i_phase (a : args.t) (p : Resolved) : safe (s2i_phase w a p).
Proof.
  unfold s2i_phase. apply safe_when.
  destruct (args.dry_run a); [auto with effects|].
  apply safe_bind; [auto with effects | intros _].
  tested. auto with effects.
Qed.

Lemma safe_test_push_phase (a : args.t) (p : Resolved) :
  safe (test_push_phase w a p).
Proof.
  unfold test_push_phase. apply safe_when.
  apply safe_bind; [apply safe_when | intros _; apply safe_when].
  - tested. apply safe_bind; [auto with effects | intros _].
    tested. auto with effects.
  - apply safe_bind; [auto with effects | intros _].
    tested. auto with effects.
Qed.

Lemma safe_template_output (a : args.t) (p : Resolved) :
  safe (template_output w a p).
Proof.
  apply safe_silent. intros st. apply template_output_silent.
Qed.

Lemma safe_make_image (opts : list cli_option) (version : string) :
  safe (make_image w opts version).
Proof.
  unfold make_image, run_plan, build_plan.
  apply safe_bind; [auto with effects | intros a].
  apply safe_bind; [auto with effects | intros p].
  apply safe_bind; [apply safe_when, safe_template_output | intros _].
  apply safe_bind; [auto with effects | intros r].
  destruct (build_commands a p r) as [cmd_base cmd].
  apply safe_bind; [apply safe_build_phase | intros _].
  apply safe_bind; [apply safe_s2i_phase | intros _].
  apply safe_test_push_phase.
Qed.

End Effects.

Lemma clean_In (tr : list event) (e : event) :
  clean tr -> In e tr -> failed e = false.
Proof.
  unfold clean. rewrite forallb_forall. intros H Hin.
  apply negb_true_iff. now apply H.
Qed.

(** In an aborted trace the failed step is followed by its message only. *)
Lemma aborted_tail (pre' pre post : list event) (e e0 m : event) :
  (pre' ++ [e0; m] = pre ++ e :: post)%list ->
  clean pre' -> failed e = true -> failed m = false ->
  post = [m].
Proof.
  revert pre; induction pre' as [|x pre' IH]; intros pre Heq Hc He Hm.
  - destruct pre as [|y [|z pre]]; simpl in Heq; inversion Heq; subst.
    + reflexivity.
    + congruence.
    + exfalso. eapply app_cons_not_nil; eauto.
  - destruct pre as [|y pre]; simpl in Heq; inversion Heq; subst.
    + unfold clean in Hc. simpl in Hc. rewrite He in Hc. discriminate.
    + apply (IH pre); auto.
      unfold clean in *. simpl in Hc. now apply andb_true_iff in Hc.
Qed.

(** C6.  When a build, s2i build, test build, test run or push step
    returns a non-zero code, no later step is run and the exit status
    is 1; with exit status 0, every such step that was run returned 0. *)
Theorem failed_step_aborts (w : World) (opts : list cli_option) (version : string) :
  (forall pre s argv cap proc post,
      trace (snd (main w opts version))
      = (pre ++ Run s argv cap (Some proc) :: post)%list ->
      checked s = true ->
      returncode proc <> 0%Z ->
      exit_status (fst (main w opts version)) = 1%Z /\
      forallb (fun e => negb (is_run e)) post = true) /\
  (exit_status (fst (main w opts version)) = 0%Z ->
   forall s argv cap proc,
     In (Run s argv cap (Some proc)) (trace (snd (main w opts version))) ->
     checked s = true ->
     returncode proc = 0%Z).
Proof.
  assert (Hfailed : forall s argv cap proc,
             checked s = true -> returncode proc <> 0%Z ->
             failed (Run s argv cap (Some proc)) = true).
  { intros s argv cap proc Hs Hrc. simpl. rewrite Hs. unfold nonzero.
    apply Z.eqb_neq in Hrc. now rewrite Hrc. }
  destruct (safe_make_image w opts version (initial w) eq_refl)
    as [Hclean | [Hexit (pre' & e0 & msg & Htr & Hpre & He0)]];
    fold (main w opts version) in *.
  - split.
    + intros pre s argv cap proc post Htr Hs Hrc. exfalso.
      assert (Hin : In (Run s argv cap (Some proc)) (trace (snd (main w opts version))))
        by (rewrite Htr; apply in_elt).
      pose proof (clean_In _ _ Hclean Hin) as Hf.
      rewrite (Hfailed _ argv cap _ Hs Hrc) in Hf. discriminate.
    + intros _ s argv cap proc Hin Hs.
      pose proof (clean_In _ _ Hclean Hin) as Hf. simpl in Hf.
      rewrite Hs in Hf. simpl in Hf. unfold nonzero in Hf.
      apply negb_false_iff, Z.eqb_eq in Hf. exact Hf.
  - split.
    + intros pre s argv cap proc post Htr' Hs Hrc.
      rewrite Hexit. split; [reflexivity|].
      rewrite Htr in Htr'.
      rewrite (aborted_tail _ _ _ _ _ _ Htr' Hpre (Hfailed _ argv cap _ Hs Hrc) eq_refl).
      reflexivity.
    + rewrite Hexit. discriminate.
Qed.

Lemma failed_step_aborts_witness :
  exit_status (fst (main failing_world [OptTest; OptPush] "1.6")) = 1%Z /\
  exists pre cmd,
    trace (snd (main failing_world [OptTest; OptPush] "1.6"))
    = (pre ++ [Run MainBuild cmd false (Some {| returncode := 2; stdout := "" |});
               Print (Text "build failed")])%list.
Proof.
  split.
  - refine (proj1 (proj1 (failed_step_aborts failing_world [OptTest; OptPush] "1.6")
                     [_; _] MainBuild _ false {| returncode := 2; stdout := "" |}
                     [Print (Text "build failed")] _ _ _)).
    + vm_compute. reflexivity.
    + reflexivity.
    + discriminate.
  - eexists [_; _], _. vm_compute. reflexivity.
Defined.

(* ================================================================== *)
(** * The two build invocations *)
(* ================================================================== *)

Lemma cachebust_range (w : World) : (100000 <= cachebust w <= 999999)%Z.
Proof.
  unfold cachebust.
  pose proof (Z.mod_pos_bound (entropy w) (999999 - 100000 + 1)%Z eq_refl). lia.
Qed.

Lemma indy_not_flag (s : string) : s ++ "_indy" <> "--build-arg".
Proof.
  intros H.
  repeat (destruct s as [|? s]; simpl in H; [discriminate H | injection H as _ H]).
  destruct s; discriminate H.
Qed.

Lemma target_not_flag (a : args.t) (p : Resolved) :
  resolve a = Ok p -> target p <> "--build-arg".
Proof.
  unfold resolve. destruct (lookup_version VERSIONS (args.version a)) as [v|] eqn:Hv;
    [|discriminate].
  destruct (resolve_tag a v (resolve_py_ver a v)) as [[[tn tv] tg] | n | e];
    try discriminate.
  cbn [bind Monad_Result].
  destruct (resolve_build_args _ _ _ _ _) as [d | n | e]; try discriminate.
  intros H; inversion H; subst; clear H. cbn [target]. unfold resolve_target.
  unfold VERSIONS in Hv. cbn [lookup_version] in Hv.
  repeat match type of Hv with
         | (if String.eqb ?x ?y then _ else _) = _ =>
             destruct (String.eqb_spec x y) as [E | _];
             [rewrite E; inversion Hv; discriminate |]
         end.
  discriminate Hv.
Qed.

Lemma get_In (d : Py.dict) (k v : string) : Py.get d k = Some v -> In (k, v) d.
Proof.
  induction d as [|[k' v'] d IH]; simpl; [discriminate|].
  destruct (String.eqb_spec k k') as [-> | _].
  - intros H; inversion H. now left.
  - intros H. right. now apply IH.
Qed.

Lemma build_commands_shape (a : args.t) (p : Resolved) (r : Z) :
  exists rest_base rest,
    build_commands a p r
    = ((["docker"; "build"] ++ render_build_args (build_args p) ++ rest_base)%list,
       (["docker"; "build"] ++ render_build_args (build_args p) ++ rest
          ++ ["--build-arg"; cachebust_arg r; target p])%list) /\
    (target p <> "--build-arg" -> ~ In "--build-arg" rest_base).
Proof.
  exists ((if Py.truthy (dockerfile p) then ["-f"; (dockerfile p ++ "_indy")%string] else [])
            ++ (if args.no_cache a then ["--no-cache"] else [])
            ++ (if args.squash a then ["--squash"] else [])
            ++ ["-t"; "local_indy_base"; target p])%list.
  exists ((if Py.truthy (dockerfile p) then ["-f"; (dockerfile p ++ "_von")%string] else [])
            ++ (if args.no_cache a then ["--no-cache"] else [])
            ++ (if args.squash a then ["--squash"] else [])
            ++ ["-t"; tag p])%list.
  split.
  - unfold build_commands.
    destruct (Py.truthy (dockerfile p)), (args.no_cache a), (args.squash a);
      cbn [app]; rewrite <- ?app_assoc; reflexivity.
  - intros Ht Hin.
    pose proof (indy_not_flag (dockerfile p)) as Hi.
    destruct (Py.truthy (dockerfile p)), (args.no_cache a), (args.squash a);
      simpl in Hin;
      repeat (destruct Hin as [Hin | Hin]; [try discriminate Hin; congruence|]);
      exact Hin.
Qed.

#[export] Hint Resolve grows_ret grows_lift grows_sys_exit grows_print grows_randint
  grows_subprocess_run grows_bind grows_when grows_s2i_phase grows_test_push_phase
  : effects.

Lemma subprocess_run_trace (w : World) (s : step) (argv : list string) (cap : bool)
      (st : State) :
  trace (snd (subprocess_run w s argv cap st))
  = (trace st ++ [Run s argv cap (docker w s argv)])%list.
Proof.
  unfold subprocess_run. destruct (docker w s argv); reflexivity.
Qed.

Lemma build_phase_trace (w : World) (a : args.t) (p : Resolved)
      (cmd_base cmd : list string) (st : State) :
  args.dry_run a = false ->
  exists more,
    trace (snd (build_phase w a p cmd_base cmd st))
    = (trace st ++ Print (Text "Building docker image...")
         :: Run BaseBuild cmd_base (args.quiet a) (docker w BaseBuild cmd_base)
         :: more)%list /\
    (forall proc,
        docker w BaseBuild cmd_base = Some proc ->
        returncode proc = 0%Z ->
        exists more',
          more = Run MainBuild cmd (args.quiet a) (docker w MainBuild cmd) :: more').
Proof.
  intros Hdry. unfold build_phase. rewrite Hdry.
  set (st1 := log (Print (Text "Building docker image...")) st).
  rewrite (bind_Ok (print _) _ st st1 tt eq_refl).
  destruct (docker w BaseBuild cmd_base) as [proc|] eqn:Hbase.
  - set (st2 := log (Run BaseBuild cmd_base (args.quiet a) (Some proc)) st1).
    assert (Hrun : subprocess_run w BaseBuild cmd_base (args.quiet a) st1 = (Ok proc, st2))
      by (unfold subprocess_run; now rewrite Hbase).
    rewrite (bind_Ok _ _ _ _ _ Hrun).
    destruct (nonzero (returncode proc)) eqn:Hrc; cbn [when].
    + match goal with
      | |- context [bind ?m ?f st2] =>
          rewrite (bind_Exit m f st2 (log (Print (Text "build failed")) st2) 1 eq_refl)
      end.
      exists [Print (Text "build failed")]. split.
      * simpl. now rewrite <- !app_assoc.
      * intros proc' E Hz. inversion E; subst. unfold nonzero in Hrc.
        rewrite Hz in Hrc. discriminate.
    + rewrite (bind_Ok (@ret M Monad_M unit tt) _ st2 st2 tt eq_refl).
      match goal with
      | |- context [bind (subprocess_run w MainBuild cmd ?q) ?f st2] =>
          destruct (trace_after (subprocess_run w MainBuild cmd q) f st2)
            as (more' & E); [intros; auto 10 with effects|]
      end.
      rewrite subprocess_run_trace in E.
      exists (Run MainBuild cmd (args.quiet a) (docker w MainBuild cmd) :: more').
      split.
      * rewrite E. simpl. now rewrite <- !app_assoc.
      * intros proc' _ _. now exists more'.
  - assert (Hrun : subprocess_run w BaseBuild cmd_base (args.quiet a) st1
                   = (Raise OSError, log (Run BaseBuild cmd_base (args.quiet a) None) st1))
      by (unfold subprocess_run; now rewrite Hbase).
    rewrite (bind_Raise _ _ _ _ _ Hrun).
    exists []. split.
    + simpl. now rewrite <- !app_assoc.
    + discriminate.
Qed.

(** C9.  In build mode the base-image and the main-image command both
    carry the [--build-arg] rendering of the whole merged mapping; the
    main-image command alone gets one more [--build-arg], [CACHEBUST=<r>]
    with [r] the integer drawn from [100000..999999]; the base-image
    command has no [--build-arg] outside the rendering.  These are the
    commands that are run. *)
Theorem build_invocations
        (w : World) (opts : list cli_option) (version : string)
        (a : args.t) (p : Resolved) :
  parse_args opts version = Ok a ->
  resolve a = Ok p ->
  Py.truthy_opt (args.output a) = false ->
  args.dry_run a = false ->
  exists rest_base rest more,
    let rendered := render_build_args (build_args p) in
    let cmd_base := (["docker"; "build"] ++ rendered ++ rest_base)%list in
    let cmd :=
      (["docker"; "build"] ++ rendered ++ rest
         ++ ["--build-arg"; cachebust_arg (cachebust w); target p])%list in
    (100000 <= cachebust w <= 999999)%Z /\
    (forall k v, Py.get (build_args p) k = Some v ->
                 exists l1 l2, rendered = (l1 ++ "--build-arg" :: key_val k v :: l2)%list) /\
    build_commands a p (cachebust w) = (cmd_base, cmd) /\
    ~ In "--build-arg" rest_base /\
    trace (snd (main w opts version))
    = Print (Text "Building docker image...")
        :: Run BaseBuild cmd_base (args.quiet a) (docker w BaseBuild cmd_base)
        :: more /\
    (forall proc,
        docker w BaseBuild cmd_base = Some proc ->
        returncode proc = 0%Z ->
        exists more',
          more = Run MainBuild cmd (args.quiet a) (docker w MainBuild cmd) :: more').
Proof.
  intros Ha Hp Hout Hdry.
  destruct (build_commands_shape a p (cachebust w)) as (rest_base & rest & Hcmd & Hflag).
  set (cmd_base := (["docker"; "build"] ++ render_build_args (build_args p) ++ rest_base)%list) in *.
  set (cmd := (["docker"; "build"] ++ render_build_args (build_args p) ++ rest
                 ++ ["--build-arg"; cachebust_arg (cachebust w); target p])%list) in *.
  assert (Hmain : main w opts version
                  = bind (build_phase w a p cmd_base cmd)
                         (fun _ => bind (s2i_phase w a p) (fun _ => test_push_phase w a p))
                         (initial w)).
  { unfold main. rewrite (make_image_resolved w opts version a p _ Ha Hp).
    unfold run_plan. rewrite Hout. cbn [when].
    rewrite (bind_Ok (@ret M Monad_M unit tt) _ (initial w) (initial w) tt eq_refl).
    unfold build_plan.
    rewrite (bind_Ok (randint w 100000 999999) _ (initial w) (initial w)
               (cachebust w) eq_refl).
    now rewrite Hcmd. }
  destruct (build_phase_trace w a p cmd_base cmd (initial w) Hdry) as (more1 & Ht & Hnext).
  destruct (trace_after (build_phase w a p cmd_base cmd)
              (fun _ => bind (s2i_phase w a p) (fun _ => test_push_phase w a p))
              (initial w)) as (more2 & Hafter); [intros; auto with effects|].
  exists rest_base, rest, (more1 ++ more2)%list. cbv zeta.
  split; [apply cachebust_range|].
  split.
  { intros k v Hget. apply get_In in Hget. unfold render_build_args, Py.items.
    apply in_split in Hget as (d1 & d2 & ->).
    rewrite flat_map_app. simpl. eauto. }
  split; [exact Hcmd|].
  split; [exact (Hflag (target_not_flag a p Hp))|].
  split.
  - rewrite Hmain, Hafter, Ht. reflexivity.
  - intros proc Hproc Hz. destruct (Hnext proc Hproc Hz) as (more' & ->).
    now exists (more' ++ more2)%list.
Qed.

Lemma build_invocations_witness :
  (100000 <= cachebust quiet_world <= 999999)%Z /\
  exists cmd_base more,
    trace (snd (main quiet_world [] "1.6"))
    = Print (Text "Building docker image...")
        :: Run BaseBuild cmd_base false (Some {| returncode := 0; stdout := "0" |})
        :: more.
Proof.
  destruct (build_invocations quiet_world [] "1.6" _ _ eq_refl eq_refl eq_refl eq_refl)
    as (rest_base & rest & more & Hr & _ & _ & _ & Ht & _).
  split; [exact Hr|].
  eexists. exists more. exact Ht.
Defined.

(* ================================================================== *)
(** * Template output on a concrete tree *)
(* ================================================================== *)

Lemma arg_lines_rewritten_witness :
  fs (snd (main template_world [OptOutput "Dockerfile.out"; OptBuildArg "FOO=baz"] "1.6"))
     "Dockerfile.out"
  = Some ("FROM ubuntu:16.04" ++ nl ++ "ARG FOO=baz" ++ nl
          ++ "ARG python_version=3.5.5" ++ nl ++ "RUN make" ++ nl).
Proof.
  refine (proj1 (arg_lines_rewritten template_world
                   [OptOutput "Dockerfile.out"; OptBuildArg "FOO=baz"] "1.6"
                   _ _ "Dockerfile.out" _
                   eq_refl eq_refl eq_refl _ eq_refl eq_refl eq_refl _ eq_refl));
    discriminate.
Defined.

Lemma other_lines_pass_through_witness :
  nth_error
    (rewritten_lines
       [("base_image", "bcgovimages/von-image:py35-1.6-11")]
       ("ARG base_image" ++ nl ++ "FROM $base_image" ++ nl)) 1
  = Some ("FROM $base_image" ++ nl).
Proof.
  refine (proj1 (proj2 (proj2 (proj2
            (other_lines_pass_through template_world
               [OptOutput "Dockerfile.out"; OptTest] "1.6"
               _ _ "Dockerfile.out" "1.6/Dockerfile.test" _ _
               eq_refl eq_refl eq_refl _ eq_refl eq_refl _ eq_refl))))
            1 _ eq_refl eq_refl);
    discriminate.
Defined.

Lemma template_mode_witness :
  trace (snd (main template_world [OptOutput "Dockerfile.out"; OptTest] "1.6")) = [] /\
  fst (main template_world [OptOutput "Dockerfile.out"; OptTest] "1.6") = Exit 0 /\
  fs (snd (main template_world [OptOutput "Dockerfile.out"; OptTest] "1.6"))
     "Dockerfile.out"
  = Some ("ARG base_image=bcgovimages/von-image:py35-1.6-11" ++ nl
          ++ "FROM $base_image" ++ nl).
Proof.
  assert (Hne : "Dockerfile.out" <> "") by discriminate.
  destruct (template_mode template_world [OptOutput "Dockerfile.out"; OptTest] "1.6"
              _ "Dockerfile.out" eq_refl eq_refl Hne) as [Htrace Hfile].
  split; [exact Htrace|].
  assert (Hd : "1.6/Dockerfile.test" <> "Dockerfile.out") by discriminate.
  destruct (Hfile _ _ eq_refl eq_refl Hd eq_refl) as (Hexit & _ & Hout).
  split; [exact Hexit | exact Hout].
Defined.

(** C5 as the specification words it fails on a template with DOS line
    endings.  Its first line, as it stands in the file, does not match the
    ARG pattern, and no line read matches; yet the first line is written
    without its carriage return, and the file written is not the file
    read. *)
Lemma other_lines_pass_through_counterexample :
  files crlf_world "1.6/Dockerfile.ubuntu" = Some crlf_template /\
  Re.match_ ARG_PATTERN ("FROM a" ++ String Py.carriage_return nl) = None /\
  forallb (fun line => match Re.match_ ARG_PATTERN line with
                       | None => true
                       | Some _ => false
                       end) (template_lines crlf_template) = true /\
  fst (main crlf_world [OptOutput "Dockerfile.out"] "1.6") = Exit 0 /\
  fs (snd (main crlf_world [OptOutput "Dockerfile.out"] "1.6")) "Dockerfile.out"
  = Some ("FROM a" ++ nl ++ "RUN b" ++ nl) /\
  fs (snd (main crlf_world [OptOutput "Dockerfile.out"] "1.6")) "Dockerfile.out"
  <> files crlf_world "1.6/Dockerfile.ubuntu".
Proof.
  repeat split; try reflexivity. discriminate.
Qed.

(** C10 as the specification words it fails in two ways.  [--output]
    given with an empty value does not select template output: the base
    build, the main build and the inspection are run and no file is
    written.  And with a non-empty [--output], when the template is
    missing, the run ends with status 1, not 0. *)
Lemma template_mode_counterexample :
  args.output (namespace [OptOutput ""] "1.6") = Some "" /\
  map fst (calls_of (trace (snd (main quiet_world [OptOutput ""] "1.6"))))
  = [BaseBuild; MainBuild; Inspect] /\
  fs (snd (main quiet_world [OptOutput ""] "1.6")) "" = None /\
  args.output (namespace [OptOutput "Dockerfile.out"] "1.6") = Some "Dockerfile.out" /\
  exit_status (fst (main quiet_world [OptOutput "Dockerfile.out"] "1.6")) = 1%Z.
Proof.
  repeat split; reflexivity.
Qed.

(* ================================================================== *)
(** * Which command lines resolve *)
(* ================================================================== *)

Lemma split_length (sep : ascii) (n : nat) (s : string) :
  length (Py.split sep n s) = S (Nat.min n (count sep s)).
Proof.
  revert n; induction s as [|c s IH]; intros n; simpl.
  - now rewrite Nat.min_0_r.
  - destruct (Ascii.eqb c sep).
    + destruct n; simpl; [reflexivity | now rewrite IH].
    + specialize (IH n). destruct (Py.split sep n s); simpl in *; [discriminate | exact IH].
Qed.

Lemma unpack2_length (l : list string) :
  if (length l =? 2)%nat then exists kv, unpack2 l = Ok kv
  else unpack2 l = Raise ValueError.
Proof.
  destruct l as [|a [|b [|c l]]]; simpl; eauto.
Qed.

(** Unpacking a split with [maxsplit = 2] works for one separator only. *)
Lemma unpack2_split (sep : ascii) (s : string) :
  if (count sep s =? 1)%nat then exists kv, unpack2 (Py.split sep 2 s) = Ok kv
  else unpack2 (Py.split sep 2 s) = Raise ValueError.
Proof.
  pose proof (unpack2_length (Py.split sep 2 s)) as H.
  rewrite split_length in H.
  destruct (count sep s) as [|[|n]]; exact H.
Qed.

Lemma add_build_args_accepts (toks : list string) (d : Py.dict) :
  if forallb (fun tok => (count "=" tok =? 1)%nat) toks
  then exists d', add_build_args toks d = Ok d'
  else add_build_args toks d = Raise ValueError.
Proof.
  revert d; induction toks as [|tok toks IH]; intros d; simpl.
  - eauto.
  - pose proof (unpack2_split "=" tok) as H.
    destruct (count "=" tok =? 1)%nat; simpl.
    + destruct H as ([k v] & ->). apply IH.
    + now rewrite H.
Qed.

Lemma resolve_tag_accepts (a : args.t) (v : ver.t) (py : string) :
  if tag_accepted a then exists r, resolve_tag a v py = Ok r
  else resolve_tag a v py = Raise ValueError.
Proof.
  unfold tag_accepted, resolve_tag.
  destruct (Py.truthy_opt (args.tag a)); simpl; [|eauto].
  pose proof (unpack2_split ":" (default "" (args.tag a))) as H.
  destruct (count ":" (default "" (args.tag a)) =? 1)%nat.
  - destruct H as ([x y] & ->). simpl. eauto.
  - now rewrite H.
Qed.

Lemma resolve_accepts (a : args.t) (v : ver.t) :
  lookup_version VERSIONS (args.version a) = Some v ->
  if tag_accepted a && build_args_accepted a
  then exists p, resolve a = Ok p
  else resolve a = Raise ValueError.
Proof.
  intros Hv. unfold resolve. rewrite Hv.
  pose proof (resolve_tag_accepts a v (resolve_py_ver a v)) as Ht.
  destruct (tag_accepted a); simpl.
  - destruct Ht as ([[tn tv] tg] & ->). cbn [bind Monad_Result].
    unfold resolve_build_args, build_args_accepted.
    destruct (args.build_arg a) as [toks|]; simpl.
    + match goal with
      | |- context [add_build_args toks ?d] =>
          pose proof (add_build_args_accepts toks d) as Hb
      end.
      destruct (forallb _ toks).
      * destruct Hb as (d' & ->). simpl. eauto.
      * now rewrite Hb.
    + eauto.
  - now rewrite Ht.
Qed.

(** X1.  For a known version, resolution succeeds exactly when the tag, if
    one is given, has exactly one [":"] and every [--build-arg] token has
    exactly one ["="]; otherwise it raises [ValueError]. *)
Theorem resolve_succeeds_iff (a : args.t) (v : ver.t) :
  lookup_version VERSIONS (args.version a) = Some v ->
  ((exists p, resolve a = Ok p) <->
   tag_accepted a = true /\ build_args_accepted a = true) /\
  ((forall p, resolve a <> Ok p) -> resolve a = Raise ValueError).
Proof.
  intros Hv. pose proof (resolve_accepts a v Hv) as H.
  destruct (tag_accepted a), (build_args_accepted a); simpl in H.
  - split; [split; auto|]. intros Hno. destruct H as (p & Hp). now destruct (Hno p).
  - rewrite H. split; [|reflexivity].
    split; [intros (p & Hp); discriminate | intros [_ F]; discriminate].
  - rewrite H. split; [|reflexivity].
    split; [intros (p & Hp); discriminate | intros [F _]; discriminate].
  - rewrite H. split; [|reflexivity].
    split; [intros (p & Hp); discriminate | intros [F _]; discriminate].
Qed.

Lemma resolve_succeeds_iff_witness :
  (exists p, resolve (namespace [OptTag "von:dev"; OptBuildArg "A=1"] "1.5") = Ok p) /\
  resolve (namespace [OptTag "von"] "1.5") = Raise ValueError.
Proof.
  split.
  - apply (proj1 (resolve_succeeds_iff
                    (namespace [OptTag "von:dev"; OptBuildArg "A=1"] "1.5") _ eq_refl)).
    split; reflexivity.
  - apply (proj2 (resolve_succeeds_iff (namespace [OptTag "von"] "1.5") _ eq_refl)).
    intros p. discriminate.
Defined.

(** X3.  A known version with a tag or a [--build-arg] token that is not
    accepted ends the run with [ValueError] before anything is run, printed
    or written. *)
Theorem rejected_command_line_is_fatal
        (w : World) (opts : list cli_option) (version : string) (a : args.t) :
  parse_args opts version = Ok a ->
  tag_accepted a && build_args_accepted a = false ->
  main w opts version = (Raise ValueError, initial w) /\
  exit_status (fst (main w opts version)) = 1%Z.
Proof.
  intros Ha Hbad.
  assert (Hv : exists v, lookup_version VERSIONS (args.version a) = Some v).
  { unfold parse_args in Ha.
    destruct (existsb (String.eqb version) (keys VERSIONS)) eqn:E; [|discriminate].
    inversion Ha; subst. now apply lookup_version_known. }
  destruct Hv as (v & Hv).
  pose proof (resolve_accepts a v Hv) as H. rewrite Hbad in H.
  assert (Hmain : main w opts version = (Raise ValueError, initial w)).
  { unfold main, make_image. rewrite Ha.
    rewrite (bind_Ok (lift (Ok a)) _ (initial w) (initial w) a eq_refl).
    rewrite H. reflexivity. }
  rewrite Hmain. split; reflexivity.
Qed.

Lemma rejected_command_line_is_fatal_witness :
  main quiet_world [OptTag "a:b:c"] "1.6" = (Raise ValueError, initial quiet_world).
Proof.
  exact (proj1 (rejected_command_line_is_fatal quiet_world [OptTag "a:b:c"] "1.6"
                  _ eq_refl eq_refl)).
Defined.

(* ================================================================== *)
(** * The tag and the mapping of a resolved plan *)
(* ================================================================== *)

(** The first part of a split has no separator; the other parts are the
    split of what follows the first separator. *)
Lemma split_head (sep : ascii) (n : nat) (s x : string) (rest : list string) :
  Py.split sep (S n) s = x :: rest ->
  contains sep x = false /\
  ((rest = [] /\ s = x) \/
   (exists s', s = x ++ String sep s' /\ rest = Py.split sep n s')).
Proof.
  revert x rest; induction s as [|c s IH]; intros x rest H; simpl in H.
  - inversion H; subst. split; [reflexivity | now left].
  - destruct (Ascii.eqb_spec c sep) as [-> | Hne].
    + inversion H; subst. split; [reflexivity|]. right. now exists s.
    + destruct (Py.split sep (S n) s) as [|h t] eqn:E; inversion H; subst.
      * exfalso. eapply split_nonempty; eauto.
      * destruct (IH h rest eq_refl) as (Hh & Hcases).
        split.
        { simpl. rewrite Hh. apply Ascii.eqb_neq in Hne. now rewrite Hne. }
        destruct Hcases as [[-> ->] | (s' & -> & ->)]; [now left | right].
        now exists s'.
Qed.

Lemma split_two_parts (sep : ascii) (s x y : string) :
  unpack2 (Py.split sep 2 s) = Ok (x, y) ->
  s = x ++ String sep y /\ contains sep x = false /\ contains sep y = false.
Proof.
  intros H.
  destruct (Py.split sep 2 s) as [|x' [|y' [|z l]]] eqn:E; simpl in H; try discriminate.
  inversion H; subst.
  destruct (split_head sep 1 s x [y] E) as (Hx & [[F _] | (s' & -> & Hrest)]);
    [discriminate|].
  symmetry in Hrest.
  pose proof (split_single _ _ _ _ Hrest) as ->.
  destruct (split_head sep 0 s' s' [] Hrest) as (Hy & _).
  repeat split; assumption.
Qed.

(** X2.  In every resolved plan the tag is [tag_name:tag_version].  A
    non-empty [--tag] is the tag verbatim, and neither of its two parts
    contains a [":"]. *)
Theorem tag_is_name_colon_version (a : args.t) (p : Resolved) :
  resolve a = Ok p ->
  tag p = tag_name p ++ ":" ++ tag_version p /\
  (forall t, args.tag a = Some t -> t <> "" ->
             tag p = t /\
             contains ":" (tag_name p) = false /\
             contains ":" (tag_version p) = false).
Proof.
  unfold resolve. destruct (lookup_version VERSIONS (args.version a)) as [v|];
    [|discriminate].
  destruct (resolve_tag a v (resolve_py_ver a v)) as [[[tn tv] tg] | n | e] eqn:Ht;
    try discriminate.
  cbn [bind Monad_Result].
  destruct (resolve_build_args _ _ _ _ _) as [d | n | e]; try discriminate.
  intros H; inversion H; subst; clear H. cbn [tag tag_name tag_version].
  unfold resolve_tag in Ht.
  destruct (args.tag a) as [t|] eqn:Etag; cbn [Py.truthy_opt default] in Ht.
  - destruct (Py.truthy t) eqn:Etruthy.
    + destruct (unpack2 (Py.split ":" 2 t)) as [[x y] | n | e] eqn:Eu;
        try discriminate.
      inversion Ht; subst.
      destruct (split_two_parts _ _ _ _ Eu) as (Hs & Hx & Hy).
      split; [exact Hs|]. intros t' Ht' _. inversion Ht'; subst. auto.
    + inversion Ht; subst. split; [reflexivity|].
      intros t' Ht' Hne. inversion Ht'; subst. destruct t'; [contradiction | discriminate].
  - inversion Ht; subst. split; [reflexivity | discriminate].
Qed.

Lemma tag_is_name_colon_version_witness :
  exists p,
    resolve (namespace [OptTag "registry/von:dev"] "1.6") = Ok p /\
    tag p = "registry/von:dev" /\ tag_name p = "registry/von" /\ tag_version p = "dev".
Proof.
  eexists. split; [reflexivity|].
  split; [|split; reflexivity].
  exact (proj1 (proj2 (tag_is_name_colon_version
                         (namespace [OptTag "registry/von:dev"] "1.6") _ eq_refl)
                 "registry/von:dev" eq_refl ltac:(discriminate))).
Defined.

(** ** The mapping is a dictionary *)

Lemma get_None_keys (d : Py.dict) (k : string) :
  Py.get d k = None <-> ~ In k (map fst d).
Proof.
  induction d as [|[k' v'] d IH]; simpl.
  - tauto.
  - destruct (String.eqb_spec k k') as [-> | Hne].
    + split; [discriminate | intros H; exfalso; apply H; now left].
    + rewrite IH. split; [intros H [E | Hin]; [congruence | tauto] | tauto].
Qed.

Lemma keys_set (d : Py.dict) (k v : string) :
  map fst (Py.set d k v)
  = match Py.get d k with
    | Some _ => map fst d
    | None => (map fst d ++ [k])%list
    end.
Proof.
  induction d as [|[k' v'] d IH]; simpl; [reflexivity|].
  destruct (String.eqb k k'); simpl; [reflexivity|].
  rewrite IH. destruct (Py.get d k); reflexivity.
Qed.

Lemma NoDup_set (d : Py.dict) (k v : string) :
  NoDup (map fst d) -> NoDup (map fst (Py.set d k v)).
Proof.
  intros H. rewrite keys_set. destruct (Py.get d k) eqn:E; [exact H|].
  apply get_None_keys in E.
  apply NoDup_app; [exact H | repeat constructor; simpl; tauto |].
  intros x Hx [<- | []]. contradiction.
Qed.

Lemma NoDup_update (l : list (string * string)) (d : Py.dict) :
  NoDup (map fst d) -> NoDup (map fst (Py.update d l)).
Proof.
  unfold Py.update. revert d; induction l as [|[k v] l IH]; intros d H; simpl.
  - exact H.
  - apply IH. now apply NoDup_set.
Qed.

Lemma resolve_known (a : args.t) (p : Resolved) :
  resolve a = Ok p -> exists v, lookup_version VERSIONS (args.version a) = Some v.
Proof.
  unfold resolve. destruct (lookup_version VERSIONS (args.version a)) as [v|];
    [eauto | discriminate].
Qed.

Lemma In_get (d : Py.dict) (k v : string) :
  NoDup (map fst d) -> In (k, v) d -> Py.get d k = Some v.
Proof.
  induction d as [|[k' v'] d IH]; simpl; intros Hnd Hin; [destruct Hin|].
  inversion Hnd as [|? ? Hnotin Hnd']; subst.
  destruct Hin as [E | Hin].
  - inversion E; subst. now rewrite String.eqb_refl.
  - destruct (String.eqb_spec k k') as [-> | _]; [|now apply IH].
    exfalso. apply Hnotin. apply (in_map fst) in Hin. exact Hin.
Qed.

(** X4.  The resolved mapping binds each key once: its keys are pairwise
    distinct, and the bindings it holds are exactly those [get] returns. *)
Theorem build_args_keys_unique (a : args.t) (p : Resolved) :
  resolve a = Ok p ->
  NoDup (map fst (build_args p)) /\
  (forall k v, In (k, v) (Py.items (build_args p)) <-> Py.get (build_args p) k = Some v).
Proof.
  intros Hp. destruct (resolve_known a p Hp) as (v & Hv).
  destruct (build_args_merge a v p Hv Hp) as (user & _ & Hb).
  assert (Hnd : NoDup (map fst (build_args p))).
  { rewrite Hb. do 3 apply NoDup_update. constructor. }
  split; [exact Hnd|].
  intros k val. split; [now apply In_get | apply get_In].
Qed.

Lemma build_args_keys_unique_witness :
  exists p,
    resolve precedence_example = Ok p /\ NoDup (map fst (build_args p)).
Proof.
  eexists. split; [reflexivity|].
  exact (proj1 (build_args_keys_unique precedence_example _ eq_refl)).
Defined.

Lemma last_binding_keys (l : list (string * string)) (k : string) :
  In k (map fst l) -> last_binding l k <> None.
Proof.
  induction l as [|[k' v] l IH]; simpl; [tauto|].
  intros [-> | Hin].
  - destruct (last_binding l k); [discriminate|]. now rewrite String.eqb_refl.
  - specialize (IH Hin). destruct (last_binding l k); [discriminate | contradiction].
Qed.

(** X5.  The resolved mapping has every key of the version's catalog
    entry, the keys [python_version], [tag_name] and [tag_version], and,
    unless the build is a debug build, [indy_build_flags]. *)
Theorem build_args_has_catalog_and_derived_keys
        (a : args.t) (v : ver.t) (p : Resolved) (k : string) :
  lookup_version VERSIONS (args.version a) = Some v ->
  resolve a = Ok p ->
  In k (map fst (ver.args v))
  \/ In k ["python_version"; "tag_name"; "tag_version"]
  \/ (args.debug a = false /\ k = "indy_build_flags") ->
  exists value, Py.get (build_args p) k = Some value.
Proof.
  intros Hv Hp Hk.
  destruct (build_args_merge a v p Hv Hp) as (user & _ & Hb).
  assert (H : Py.get (build_args p) k <> None).
  { rewrite Hb, !get_update.
    destruct (last_binding user k); [discriminate|].
    destruct Hk as [Hk | [Hk | [Hd ->]]].
    - destruct (last_binding (derived_args a p) k); [discriminate|].
      pose proof (last_binding_keys _ _ Hk).
      destruct (last_binding (ver.args v) k); [discriminate | contradiction].
    - assert (Hin : In k (map fst (derived_args a p))).
      { unfold derived_args. rewrite map_app. apply in_or_app. left. exact Hk. }
      pose proof (last_binding_keys _ _ Hin).
      destruct (last_binding (derived_args a p) k); [discriminate | contradiction].
    - unfold derived_args. rewrite Hd. simpl. discriminate. }
  destruct (Py.get (build_args p) k) as [value|]; [eauto | contradiction].
Qed.

Lemma build_args_has_catalog_and_derived_keys_witness :
  exists v p value,
    lookup_version VERSIONS "dev-441" = Some v /\
    resolve (namespace [OptDebug] "dev-441") = Ok p /\
    Py.get (build_args p) "indy_crypto_rev" = Some value.
Proof.
  destruct (build_args_has_catalog_and_derived_keys
              (namespace [OptDebug] "dev-441") _ _ "indy_crypto_rev" eq_refl eq_refl)
    as (value & H).
  - left. simpl. tauto.
  - eexists. eexists. exists value. repeat split. exact H.
Defined.

(** X6.  Without [--build-arg] the mapping is, in order, the catalog
    entry's args followed by [python_version], [tag_name], [tag_version]
    and, unless the build is a debug build, [indy_build_flags=--release]. *)
Theorem build_args_without_overrides (a : args.t) (v : ver.t) (p : Resolved) :
  lookup_version VERSIONS (args.version a) = Some v ->
  resolve a = Ok p ->
  args.build_arg a = None ->
  build_args p
  = (ver.args v
       ++ [ ("python_version", py_ver p); ("tag_name", tag_name p);
            ("tag_version", tag_version p) ]
       ++ (if args.debug a then [] else [("indy_build_flags", "--release")]))%list.
Proof.
  intros Hv Hp Hnone.
  destruct (build_args_merge a v p Hv Hp) as (user & HF & Hb).
  rewrite Hnone in HF. inversion HF; subst user. rewrite Hb. clear Hb HF.
  unfold derived_args.
  unfold VERSIONS in Hv. cbn [lookup_version] in Hv.
  repeat match type of Hv with
         | (if String.eqb ?x ?y then _ else _) = _ =>
             destruct (String.eqb x y);
             [inversion Hv; subst v; destruct (args.debug a); reflexivity |]
         end.
  discriminate Hv.
Qed.

Lemma build_args_without_overrides_witness :
  exists p,
    resolve (namespace [OptDebug] "1.5") = Ok p /\
    map fst (build_args p)
    = ["indy_sdk_url"; "indy_crypto_url"; "python_version"; "tag_name"; "tag_version"].
Proof.
  eexists. split; [reflexivity|].
  rewrite (build_args_without_overrides (namespace [OptDebug] "1.5") _ _
             eq_refl eq_refl eq_refl).
  reflexivity.
Defined.

(* ================================================================== *)
(** * Reasoning about sequences of statements *)
(* ================================================================== *)

Lemma triple_bind {A B} (P : State -> Prop) (m : M A) (f : A -> M B)
      (N1 : A -> State -> Prop) (N : B -> State -> Prop) (E : Z -> State -> Prop) :
  triple P m N1 E ->
  (forall x, triple (N1 x) (f x) N E) ->
  triple P (bind m f) N E.
Proof.
  intros Hm Hf st HP. specialize (Hm st HP). cbn.
  destruct (m st) as [[x | n | e] st1]; [now apply Hf | exact Hm | exact Hm].
Qed.

Lemma triple_conseq {A} (P P' : State -> Prop) (m : M A)
      (N N' : A -> State -> Prop) (E E' : Z -> State -> Prop) :
  triple P m N E ->
  (forall st, P' st -> P st) ->
  (forall x st, N x st -> N' x st) ->
  (forall n st, E n st -> E' n st) ->
  triple P' m N' E'.
Proof.
  intros Hm HP HN HE st Hst. specialize (Hm st (HP st Hst)).
  destruct (m st) as [[x | n | e] st1]; auto.
Qed.

Lemma triple_ret {A} (P : State -> Prop) (x : A) (E : Z -> State -> Prop) :
  triple P (ret x : M A) (fun _ => P) E.
Proof. intros st HP. exact HP. Qed.

Lemma triple_when (P : State -> Prop) (b : bool) (m : M unit)
      (N : unit -> State -> Prop) (E : Z -> State -> Prop) :
  (b = true -> triple P m N E) ->
  (b = false -> forall st, P st -> N tt st) ->
  triple P (when b m) N E.
Proof.
  destruct b; intros Ht Hf; [now apply Ht|].
  intros st HP. now apply Hf.
Qed.

Section Invariant.

Variable w : World.
Variable I : State -> Prop.
Variable allowed : event -> bool.
Hypothesis closed : forall e st, allowed e = true -> I st -> I (log e st).

Lemma inv_ret {A} (x : A) : inv I (ret x : M A).
Proof. intros st H. exact H. Qed.

Lemma inv_lift {A} (r : Result A) : inv I (lift r).
Proof. intros st H. unfold lift. destruct r; exact H. Qed.

Lemma inv_sys_exit {A} (n : Z) : inv I (sys_exit n : M A).
Proof. intros st H. exact H. Qed.

Lemma inv_randint (lo hi : Z) : inv I (randint w lo hi).
Proof. intros st H. exact H. Qed.

Lemma inv_print (o : output) : allowed (Print o) = true -> inv I (print o).
Proof. intros Ha st H. now apply closed. Qed.

Lemma inv_subprocess_run (s : step) (argv : list string) (cap : bool) :
  (forall res, allowed (Run s argv cap res) = true) ->
  inv I (subprocess_run w s argv cap).
Proof.
  intros Ha st H. unfold subprocess_run.
  destruct (docker w s argv); now apply closed.
Qed.

Lemma inv_bind {A B} (m : M A) (f : A -> M B) :
  inv I m -> (forall x, inv I (f x)) -> inv I (bind m f).
Proof. intros Hm Hf. eapply triple_bind; [exact Hm | exact Hf]. Qed.

Lemma inv_when (b : bool) (m : M unit) : inv I m -> inv I (when b m).
Proof. destruct b; [trivial | intros _; apply inv_ret]. Qed.

End Invariant.

#[export] Hint Resolve inv_ret inv_lift inv_sys_exit inv_randint inv_bind inv_when
  : effects.

(** Discharges [inv] for a sequence whose events are all allowed. *)
Ltac inv_auto closed :=
  repeat first
    [ progress intros
    | match goal with
      | |- inv _ (bind _ _) => apply inv_bind
      | |- inv _ (when _ _) => apply inv_when
      | |- inv _ (ret _) => apply inv_ret
      | |- inv _ (lift _) => apply inv_lift
      | |- inv _ (sys_exit _) => apply inv_sys_exit
      | |- inv _ (randint _ _ _) => apply inv_randint
      | |- inv _ (print _) => apply (inv_print _ _ closed); reflexivity
      | |- inv _ (subprocess_run _ _ _ _) =>
          apply (inv_subprocess_run _ _ _ closed); intros ?; reflexivity
      end ].

(* ================================================================== *)
(** * Exit statuses *)
(* ================================================================== *)

Lemma exits_lift {A} (r : Result A) :
  (forall n, r <> Exit n) ->
  triple (fun _ => True) (lift r) (fun _ _ => True) status_0_or_1.
Proof.
  intros Hr st _. unfold lift. destruct r as [x | n | e]; [trivial | | now right].
  now destruct (Hr n).
Qed.

Lemma exits_for_each {A} (l : list A) (body : A -> M unit) :
  (forall x, triple (fun _ => True) (body x) (fun _ _ => True) status_0_or_1) ->
  triple (fun _ => True) (for_each l body) (fun _ _ => True) status_0_or_1.
Proof.
  intros Hb. induction l as [|x l IH]; simpl.
  - intros st _. exact Logic.I.
  - eapply triple_bind; [apply Hb | intros u; exact IH].
Qed.

(** Discharges the exit-status triple of a sequence of statements. *)
Ltac exits :=
  repeat first
    [ progress intros
    | match goal with
      | |- triple _ (bind _ _) _ _ =>
          eapply triple_bind with (N1 := fun _ _ => True)
      | |- triple _ (when _ _) _ _ => apply triple_when; [intros _ | trivial]
      | |- triple _ (if ?b then _ else _) _ _ => destruct b
      | |- triple _ (sys_exit 0) _ _ => intros ? _; now left
      | |- triple _ (sys_exit 1) _ _ => intros ? _; now right
      | |- triple _ (print _) _ _ => intros ? _; exact Logic.I
      | |- triple _ (write _ _) _ _ => intros ? _; exact Logic.I
      | |- triple _ (ret _) _ _ => intros ? _; exact Logic.I
      | |- triple _ (randint _ _ _) _ _ => intros ? _; exact Logic.I
      | |- triple _ (open_w ?w ?p) _ _ =>
          intros st _; unfold open_w; destruct (writable w p);
          [exact Logic.I | now right]
      | |- triple _ (open_r ?p) _ _ =>
          intros st _; unfold open_r; destruct (fs st p);
          [exact Logic.I | now right]
      | |- triple _ (subprocess_run ?w ?s ?argv _) _ _ =>
          intros ? _; unfold subprocess_run; destruct (docker w s argv);
          [exact Logic.I | now right]
      | |- triple _ (for_each _ _) _ _ => apply exits_for_each
      end ].

Lemma image_size_no_exit (out : string) (n : Z) : image_size out <> Exit n.
Proof.
  unfold image_size. destruct (Py.is_ascii out); [|discriminate].
  destruct (Py.int (Py.strip out)) as [k|]; [|discriminate].
  destruct (Py.fits_float k); discriminate.
Qed.

Lemma resolve_no_exit (a : args.t) (n : Z) : resolve a <> Exit n.
Proof.
  unfold resolve. destruct (lookup_version VERSIONS (args.version a)) as [v|];
    [|discriminate].
  destruct (resolve_tag_cases a v (resolve_py_ver a v)) as [([[tn tv] tg] & ->) | ->];
    [|discriminate].
  cbn [bind Monad_Result]. unfold resolve_build_args.
  destruct (args.build_arg a) as [toks|]; [|discriminate].
  match goal with
  | |- context [add_build_args toks ?d] =>
      destruct (add_build_args_cases toks d) as [(d' & ->) | ->]
  end; discriminate.
Qed.

Lemma exits_run_plan (w : World) (a : args.t) (p : Resolved) :
  triple (fun _ => True) (run_plan w a p) (fun _ _ => True) status_0_or_1.
Proof.
  unfold run_plan, build_plan, template_output, build_phase, s2i_phase,
    test_push_phase.
  destruct (template_source a p) as [src_path src_replace].
  exits.
  - destruct (build_commands a p x0) as [cmd_base cmd]. exits.
    apply exits_lift. intros n. apply image_size_no_exit.
Qed.

(** X7.  Once the argument parser has accepted the command line, the
    run ends with status 0 or 1, whatever the external commands return and
    whichever exception is raised: no statement of the script itself ends
    it with another status, and status 2 is the parser's alone. *)
Theorem accepted_command_line_exits_0_or_1
        (w : World) (opts : list cli_option) (version : string) (a : args.t) :
  parse_args opts version = Ok a ->
  exit_status (fst (main w opts version)) = 0%Z
  \/ exit_status (fst (main w opts version)) = 1%Z.
Proof.
  intros Ha. unfold main, make_image.
  rewrite (bind_Ok (lift (parse_args opts version)) _ (initial w) (initial w) a)
    by (unfold lift; now rewrite Ha).
  destruct (resolve a) as [p | n | e] eqn:Hp.
  - rewrite (bind_Ok (lift (Ok p)) _ (initial w) (initial w) p eq_refl).
    pose proof (exits_run_plan w a p (initial w) Logic.I) as H.
    destruct (run_plan w a p (initial w)) as [[u | n | e] st];
      simpl; [now left | exact H | now right].
  - now destruct (resolve_no_exit _ _ Hp).
  - rewrite (bind_Raise (lift (Raise e)) _ (initial w) (initial w) e eq_refl).
    now right.
Qed.

Lemma accepted_command_line_exits_0_or_1_witness :
  exit_status (fst (main failing_world [OptTest; OptPush] "1.6")) = 0%Z
  \/ exit_status (fst (main failing_world [OptTest; OptPush] "1.6")) = 1%Z.
Proof.
  apply (accepted_command_line_exits_0_or_1 failing_world [OptTest; OptPush] "1.6"
           (namespace [OptTest; OptPush] "1.6")).
  reflexivity.
Defined.

(* ================================================================== *)
(** * What a run leaves untouched *)
(* ================================================================== *)

Lemma inv_of_snd {A} (I : State -> Prop) (m : M A) :
  (forall st, I st -> I (snd (m st))) -> inv I m.
Proof.
  intros H st Hst. specialize (H st Hst).
  destruct (m st) as [[x | n | e] st1]; exact H.
Qed.

Lemma inv_run {A} (I : State -> Prop) (m : M A) (st : State) :
  inv I m -> I st -> I (snd (m st)).
Proof.
  intros H Hst. specialize (H st Hst).
  destruct (m st) as [[x | n | e] st1]; exact H.
Qed.

Lemma closed_fs (path : string) (c : option string) :
  forall e st, any_event e = true -> fs st path = c -> fs (log e st) path = c.
Proof. intros e st _ H. exact H. Qed.

Lemma build_plan_fs (w : World) (a : args.t) (p : Resolved) (path : string)
      (c : option string) :
  inv (fun st => fs st path = c) (build_plan w a p).
Proof.
  unfold build_plan, build_phase, s2i_phase, test_push_phase.
  apply inv_bind; [apply inv_randint | intros r].
  destruct (build_commands a p r) as [cmd_base cmd].
  destruct (args.dry_run a); inv_auto (closed_fs path c).
Qed.

(** X8.  Outside template output the script writes no file: without a
    non-empty [--output], every path holds at the end of the run what it
    held at the start, however the run ends. *)
Theorem no_file_written_without_output
        (w : World) (opts : list cli_option) (version path : string) :
  Py.truthy_opt (args.output (namespace opts version)) = false ->
  fs (snd (main w opts version)) path = files w path.
Proof.
  intros Ht. unfold main, make_image, parse_args.
  destruct (existsb (String.eqb version) (keys VERSIONS)); [|reflexivity].
  rewrite (bind_Ok (lift (Ok (namespace opts version))) _ (initial w) (initial w)
             _ eq_refl).
  apply (inv_run (fun st => fs st path = files w path)); [|reflexivity].
  apply inv_bind; [apply inv_lift | intros p].
  unfold run_plan. apply inv_bind; [|intros _; apply build_plan_fs].
  rewrite Ht. apply inv_ret.
Qed.

Lemma no_file_written_without_output_witness :
  fs (snd (main template_world [OptS2i; OptTest] "1.6")) "1.6/Dockerfile.test"
  = Some ("ARG base_image" ++ nl ++ "FROM $base_image" ++ nl).
Proof.
  apply (no_file_written_without_output template_world [OptS2i; OptTest] "1.6"
           "1.6/Dockerfile.test").
  reflexivity.
Defined.

(* ================================================================== *)
(** * Dry runs *)
(* ================================================================== *)

Lemma calls_of_app (t1 t2 : list event) :
  calls_of (t1 ++ t2) = (calls_of t1 ++ calls_of t2)%list.
Proof.
  induction t1 as [|[s argv cap res | o] t1 IH]; simpl; [reflexivity | now rewrite IH | exact IH].
Qed.

Lemma closed_no_calls :
  forall e st, is_print e = true ->
               calls_of (trace st) = [] -> calls_of (trace (log e st)) = [].
Proof.
  intros [s argv cap res | o] st He H; [discriminate|].
  simpl. rewrite calls_of_app, H. reflexivity.
Qed.

Lemma build_plan_dry (w : World) (a : args.t) (p : Resolved) :
  args.dry_run a = true ->
  inv (fun st => calls_of (trace st) = []) (build_plan w a p).
Proof.
  intros Hdry. unfold build_plan, build_phase, s2i_phase, test_push_phase.
  rewrite Hdry. cbn [negb when].
  apply inv_bind; [apply inv_randint | intros r].
  destruct (build_commands a p r) as [cmd_base cmd].
  inv_auto closed_no_calls.
Qed.

(** X9.  With [--dry-run] no external command is run, however the run
    ends.  In build mode such a run prints the main-image command, then
    the s2i command when [--s2i] is set, and ends with status 0. *)
Theorem dry_run_runs_nothing
        (w : World) (opts : list cli_option) (version : string) (a : args.t) :
  parse_args opts version = Ok a ->
  args.dry_run a = true ->
  calls_of (trace (snd (main w opts version))) = [] /\
  (forall p,
      resolve a = Ok p ->
      Py.truthy_opt (args.output a) = false ->
      main w opts version
      = (Ok tt,
         {| trace :=
              Print (Text (Py.join " " (snd (build_commands a p (cachebust w)))))
                :: (if args.s2i a
                    then [Print (Text (Py.join " "
                            [ "docker"; "build"; "--build-arg"; "base_image=" ++ tag p;
                              "-t"; s2i_tag p; "-f"; target p ++ "/Dockerfile.s2i";
                              target p ]))]
                    else []);
            fs := files w |})).
Proof.
  intros Ha Hdry. split.
  - unfold main, make_image. rewrite Ha.
    rewrite (bind_Ok (lift (Ok a)) _ (initial w) (initial w) a eq_refl).
    apply (inv_run (fun st => calls_of (trace st) = [])); [|reflexivity].
    apply inv_bind; [apply inv_lift | intros p].
    unfold run_plan. apply inv_bind; [|intros _; now apply build_plan_dry].
    apply inv_when, inv_of_snd. intros st Hst.
    now rewrite (proj1 (template_output_silent w a p st)).
  - intros p Hp Hout. unfold main.
    rewrite (make_image_resolved w opts version a p _ Ha Hp).
    unfold run_plan. rewrite Hout. cbn [when].
    rewrite (bind_Ok (@ret M Monad_M unit tt) _ (initial w) (initial w) tt eq_refl).
    unfold build_plan.
    rewrite (bind_Ok (randint w 100000 999999) _ (initial w) (initial w)
               (cachebust w) eq_refl).
    destruct (build_commands a p (cachebust w)) as [cmd_base cmd].
    unfold build_phase, s2i_phase, test_push_phase. rewrite Hdry.
    destruct (args.s2i a); reflexivity.
Qed.

Lemma dry_run_runs_nothing_witness :
  calls_of (trace (snd (main failing_world [OptDryRun; OptPush; OptS2i] "1.6"))) = [].
Proof.
  exact (proj1 (dry_run_runs_nothing failing_world [OptDryRun; OptPush; OptS2i] "1.6"
                  _ eq_refl eq_refl)).
Defined.

(* ================================================================== *)
(** * The order of the external commands *)
(* ================================================================== *)

Lemma steps_of_app (t1 t2 : list event) :
  steps_of (t1 ++ t2) = (steps_of t1 ++ steps_of t2)%list.
Proof. unfold steps_of. now rewrite calls_of_app, map_app. Qed.

Lemma StronglySorted_snoc (l : list nat) (x : nat) :
  StronglySorted lt l -> Forall (fun y => y < x) l -> StronglySorted lt (l ++ [x]).
Proof.
  induction l as [|y l IH]; intros Hs Hf; simpl.
  - repeat constructor.
  - inversion Hs; subst. inversion Hf; subst.
    constructor; [now apply IH|].
    apply Forall_app. split; [assumption | now repeat constructor].
Qed.

Lemma below_mono (r r' : nat) (st : State) : r <= r' -> below r st -> below r' st.
Proof.
  intros Hle [Hs Hf]. split; [exact Hs|].
  eapply Forall_impl; [|exact Hf]. simpl. intros s Hlt. lia.
Qed.

Lemma below_print (r : nat) (o : output) (st : State) :
  below r st -> below r (log (Print o) st).
Proof.
  unfold below, log. simpl. rewrite steps_of_app. simpl. now rewrite app_nil_r.
Qed.

Lemma below_run (r : nat) (s : step) (argv : list string) (cap : bool)
      (res : option CompletedProcess) (st : State) :
  r <= rank s -> below r st -> below (S (rank s)) (log (Run s argv cap res) st).
Proof.
  intros Hle [Hs Hf]. unfold below, log. simpl. rewrite steps_of_app. simpl.
  split.
  - rewrite map_app. simpl. apply StronglySorted_snoc; [exact Hs|].
    rewrite Forall_map. eapply Forall_impl; [|exact Hf]. simpl. intros x Hx. lia.
  - apply Forall_app. split.
    + eapply Forall_impl; [|exact Hf]. simpl. intros x Hx. lia.
    + repeat constructor.
Qed.

Section Order.

Variable w : World.

Lemma ord_print (r r' : nat) (o : output) :
  r <= r' -> triple (below r) (print o) (fun _ => below r') in_order.
Proof.
  intros Hle st H. apply (below_mono r r'); [exact Hle|]. now apply below_print.
Qed.

Lemma ord_run (r r' : nat) (s : step) (argv : list string) (cap : bool) :
  r <= rank s -> S (rank s) <= r' -> r' <= 7 ->
  triple (below r) (subprocess_run w s argv cap) (fun _ => below r') in_order.
Proof.
  intros H1 H2 H3 st H. unfold subprocess_run.
  destruct (docker w s argv).
  - apply (below_mono (S (rank s)) r'); [exact H2|]. now apply (below_run r).
  - apply (below_mono (S (rank s)) 7); [lia|]. now apply (below_run r).
Qed.

Lemma ord_silent {A} (r r' : nat) (m : M A) :
  r <= r' -> r' <= 7 ->
  (forall st, trace (snd (m st)) = trace st) ->
  triple (below r) m (fun _ => below r') in_order.
Proof.
  intros H1 H2 Hm st H.
  assert (Hb : below r (snd (m st))) by (unfold below in *; now rewrite Hm).
  destruct (m st) as [[x | n | e] st1]; simpl in Hb.
  - now apply (below_mono r r').
  - apply (below_mono r 7); [lia | exact Hb].
  - apply (below_mono r 7); [lia | exact Hb].
Qed.

End Order.

(** Discharges the order triple of a sequence of statements. *)
Ltac ord :=
  repeat first
    [ progress intros
    | match goal with
      | |- triple (below ?r) (bind (subprocess_run _ ?s _ _) _) _ _ =>
          eapply triple_bind with (N1 := fun _ => below (S (rank s)))
      | |- triple (below ?r) (bind _ _) _ _ =>
          eapply triple_bind with (N1 := fun _ => below r)
      | |- triple (below ?r) (when _ _) _ _ =>
          apply triple_when;
          [ intros _
          | intros _ ? ?; eapply below_mono; [|eassumption]; simpl; lia ]
      | |- triple (below ?r) (print _) _ _ => apply ord_print; simpl; lia
      | |- triple (below ?r) (subprocess_run _ _ _ _) _ _ =>
          apply ord_run; simpl; lia
      | |- triple (below ?r) (ret _) _ _ =>
          apply ord_silent; [simpl; lia | simpl; lia | reflexivity]
      | |- triple (below ?r) (lift _) _ _ =>
          apply ord_silent; [simpl; lia | simpl; lia | reflexivity]
      | |- triple (below ?r) (sys_exit _) _ _ =>
          apply ord_silent; [simpl; lia | simpl; lia | reflexivity]
      | |- triple (below ?r) (randint _ _ _) _ _ =>
          apply ord_silent; [simpl; lia | simpl; lia | reflexivity]
      end ].

Lemma ord_run_plan (w : World) (a : args.t) (p : Resolved) :
  triple (below 0) (run_plan w a p) (fun _ => below 7) in_order.
Proof.
  unfold run_plan.
  eapply triple_bind with (N1 := fun _ => below 0).
  - apply triple_when; [intros _ | trivial].
    apply (ord_silent 0 0); [lia | lia |]. intros st. apply template_output_silent.
  - intros _. unfold build_plan.
    eapply triple_bind with (N1 := fun _ => below 0); [ord | intros r].
    destruct (build_commands a p r) as [cmd_base cmd].
    eapply triple_bind with (N1 := fun _ => below 3).
    + unfold build_phase. destruct (args.dry_run a); ord.
    + intros _. eapply triple_bind with (N1 := fun _ => below 4).
      * unfold s2i_phase. apply triple_when;
          [intros _ | intros _ ? ?; eapply below_mono; [|eassumption]; lia].
        destruct (args.dry_run a); ord.
      * intros _. unfold test_push_phase.
        apply triple_when;
          [intros _ | intros _ ? ?; eapply below_mono; [|eassumption]; lia].
        eapply triple_bind with (N1 := fun _ => below 6); [|ord].
        apply triple_when;
          [intros _; ord | intros _ ? ?; eapply below_mono; [|eassumption]; lia].
Qed.

Lemma StronglySorted_lt_NoDup (l : list step) :
  StronglySorted lt (map rank l) -> NoDup l.
Proof.
  induction l as [|s l IH]; intros H; [constructor|].
  simpl in H. inversion H; subst. constructor; [|now apply IH].
  intros Hin. rewrite Forall_map, Forall_forall in H3. specialize (H3 s Hin). lia.
Qed.

(** X10.  The external commands of a run are run in the order base
    build, main build, size inspection, s2i build, test build, test run,
    push; none is run twice. *)
Theorem steps_in_script_order (w : World) (opts : list cli_option) (version : string) :
  StronglySorted lt (map rank (steps_of (trace (snd (main w opts version))))) /\
  NoDup (steps_of (trace (snd (main w opts version)))).
Proof.
  assert (H : below 7 (snd (main w opts version))).
  { unfold main, make_image.
    assert (H0 : below 0 (initial w)) by (split; constructor).
    destruct (parse_args opts version) as [a | n | e].
    - rewrite (bind_Ok (lift (Ok a)) _ (initial w) (initial w) a eq_refl).
      destruct (resolve a) as [p | n | e].
      + rewrite (bind_Ok (lift (Ok p)) _ (initial w) (initial w) p eq_refl).
        pose proof (ord_run_plan w a p (initial w) H0) as H.
        destruct (run_plan w a p (initial w)) as [[u | n | e] st]; exact H.
      + apply (below_mono 0); [lia | exact H0].
      + apply (below_mono 0); [lia | exact H0].
    - apply (below_mono 0); [lia | exact H0].
    - apply (below_mono 0); [lia | exact H0]. }
  destruct H as [Hs _]. split; [exact Hs | now apply StronglySorted_lt_NoDup].
Qed.

(* ================================================================== *)
(** * Pushing *)
(* ================================================================== *)

Lemma closed_before_push :
  forall e st, not_push e = true -> before_push st -> before_push (log e st).
Proof.
  intros e st He H. unfold before_push, log in *. simpl.
  rewrite steps_of_app. intros Hin. apply in_app_or in Hin as [Hin | Hin];
    [now apply H|].
  destruct e as [s argv cap res | o]; [|destruct Hin].
  destruct s; simpl in *; try discriminate; destruct Hin as [F | []]; discriminate.
Qed.

Lemma closed_tests_passed :
  forall e st, any_event e = true ->
               tests_passed (trace st) -> tests_passed (trace (log e st)).
Proof.
  intros e st _ (argv & cap & proc & Hin & Hrc).
  exists argv, cap, proc. split; [|exact Hrc].
  simpl. apply in_or_app. now left.
Qed.

Lemma inv_weaken {A} (I : State -> Prop) (m : M A) (E : Z -> State -> Prop) :
  inv I m -> (forall n st, I st -> E n st) -> triple I m (fun _ => I) E.
Proof.
  intros H HE. eapply triple_conseq; [exact H | | |]; auto.
Qed.

Lemma justified_test_push_phase (w : World) (a : args.t) (p : Resolved) :
  triple before_push (test_push_phase w a p)
         (fun _ => push_justified) (fun _ => push_justified).
Proof.
  assert (Hleft : forall (n : Z) st, before_push st -> push_justified st)
    by (intros; now left).
  unfold test_push_phase.
  apply triple_when; [intros _ | intros _ st H; now left].
  eapply triple_bind
    with (N1 := fun _ st => before_push st /\ (args.push a = true -> tests_passed (trace st))).
  - apply triple_when.
    + intros _.
      eapply triple_bind with (N1 := fun _ => before_push);
        [apply inv_weaken; [inv_auto closed_before_push | exact Hleft] | intros proc_bt].
      eapply triple_bind with (N1 := fun _ => before_push);
        [apply inv_weaken; [inv_auto closed_before_push | exact Hleft] | intros _].
      eapply triple_bind
        with (N1 := fun proc st =>
                      before_push st /\
                      In (Run TestRun ["docker"; "run"; "--rm"; "-i"; tag p ++ "-test"]
                              false (Some proc)) (trace st)).
      * intros st H. unfold subprocess_run.
        destruct (docker w TestRun _) as [proc|].
        -- split; [now apply closed_before_push|].
           simpl. apply in_or_app. right. now left.
        -- left. now apply closed_before_push.
      * intros proc.
        eapply triple_bind
          with (N1 := fun _ st => before_push st /\ tests_passed (trace st)).
        -- intros st [Hb Hin]. destruct (nonzero (returncode proc)) eqn:Hrc; cbn.
           ++ left. now apply closed_before_push.
           ++ split; [exact Hb|]. eexists _, _, proc. split; [exact Hin|].
              unfold nonzero in Hrc. now apply negb_false_iff, Z.eqb_eq in Hrc.
        -- intros _ st [Hb Ht]. cbn. split.
           ++ now apply closed_before_push.
           ++ intros _. now apply closed_tests_passed.
    + intros Hnone st H. split; [exact H|].
      intros Hpush. rewrite Hpush, orb_true_r in Hnone. discriminate.
  - intros _. apply triple_when.
    + intros Hpush.
      eapply triple_conseq with (P := fun st => tests_passed (trace st))
                                (N := fun _ st => tests_passed (trace st))
                                (E := fun _ st => tests_passed (trace st)).
      * change (inv (fun st => tests_passed (trace st))
                    (print (Text "Pushing docker image...");;
                     proc <- subprocess_run w Push
                               ["docker"; "push"; if args.s2i a then s2i_tag p else tag p]
                               false;;
                     when (nonzero (returncode proc))
                          (print (Text "push failed");; sys_exit 1))).
        inv_auto closed_tests_passed.
      * intros st [_ H]. now apply H.
      * intros _ st H. now right.
      * intros _ st H. now right.
    + intros _ st [H _]. now left.
Qed.

Lemma justified_run_plan (w : World) (a : args.t) (p : Resolved) :
  triple before_push (run_plan w a p)
         (fun _ => push_justified) (fun _ => push_justified).
Proof.
  assert (Hleft : forall (n : Z) st, before_push st -> push_justified st)
    by (intros; now left).
  unfold run_plan.
  eapply triple_bind with (N1 := fun _ => before_push).
  - apply inv_weaken; [|exact Hleft]. apply inv_when, inv_of_snd.
    intros st H. unfold before_push in *.
    now rewrite (proj1 (template_output_silent w a p st)).
  - intros _. unfold build_plan.
    eapply triple_bind with (N1 := fun _ => before_push);
      [apply inv_weaken; [apply inv_randint | exact Hleft] | intros r].
    destruct (build_commands a p r) as [cmd_base cmd].
    eapply triple_bind with (N1 := fun _ => before_push).
    + apply inv_weaken; [|exact Hleft]. unfold build_phase.
      destruct (args.dry_run a); inv_auto closed_before_push.
    + intros _. eapply triple_bind with (N1 := fun _ => before_push).
      * apply inv_weaken; [|exact Hleft]. unfold s2i_phase.
        destruct (args.dry_run a); inv_auto closed_before_push.
      * intros _. apply justified_test_push_phase.
Qed.

(** X11.  An image is pushed only after its tests have passed: whenever a
    run contains the push step, it contains a test run that returned 0. *)
Theorem push_only_after_tests_pass
        (w : World) (opts : list cli_option) (version : string) :
  In Push (steps_of (trace (snd (main w opts version)))) ->
  tests_passed (trace (snd (main w opts version))).
Proof.
  assert (H : push_justified (snd (main w opts version))).
  { assert (H0 : before_push (initial w)) by (intros []).
    unfold main, make_image.
    destruct (parse_args opts version) as [a | n | e]; [|now left | now left].
    rewrite (bind_Ok (lift (Ok a)) _ (initial w) (initial w) a eq_refl).
    destruct (resolve a) as [p | n | e]; [|now left | now left].
    rewrite (bind_Ok (lift (Ok p)) _ (initial w) (initial w) p eq_refl).
    pose proof (justified_run_plan w a p (initial w) H0) as H.
    destruct (run_plan w a p (initial w)) as [[u | n | e] st]; exact H. }
  intros Hin. destruct H as [H | H]; [contradiction | exact H].
Qed.

Lemma push_only_after_tests_pass_witness :
  tests_passed (trace (snd (main quiet_world [OptPush] "1.6"))).
Proof.
  apply (push_only_after_tests_pass quiet_world [OptPush] "1.6").
  vm_compute. tauto.
Defined.

(* ================================================================== *)
(** * A run in which every step succeeds *)
(* ================================================================== *)

Lemma triple_pure {A} (P : State -> Prop) (phi : Prop) (m : M A)
      (N : A -> State -> Prop) (E : Z -> State -> Prop) :
  (phi -> triple P m N E) -> triple (fun st => P st /\ phi) m N E.
Proof. intros H st [HP Hphi]. now apply H. Qed.

Lemma called_print (l : list (step * list string)) (o : output)
      (E : Z -> State -> Prop) :
  triple (called l) (print o) (fun _ => called l) E.
Proof.
  intros st H. unfold called in *. simpl. rewrite calls_of_app, H. simpl.
  now rewrite app_nil_r.
Qed.

Lemma called_when_print (l : list (step * list string)) (b : bool) (o : output)
      (E : Z -> State -> Prop) :
  triple (called l) (when b (print o)) (fun _ => called l) E.
Proof.
  apply triple_when; [intros ?; apply called_print | trivial].
Qed.

Section Success.

Variable w : World.
Hypothesis all_pass :
  forall s argv, exists proc, docker w s argv = Some proc /\ returncode proc = 0%Z.

(** A step and the test of its return code. *)
Lemma called_step {B} (l : list (step * list string)) (s : step)
      (argv : list string) (cap : bool) (abort : M unit) (k : unit -> M B)
      (N : B -> State -> Prop) :
  (forall u, triple (called (l ++ [(s, argv)])) (k u) N never) ->
  triple (called l)
         (bind (subprocess_run w s argv cap)
               (fun proc => bind (when (nonzero (returncode proc)) abort) k))
         N never.
Proof.
  intros Hk st H. destruct (all_pass s argv) as (proc & Hd & Hrc).
  cbn. unfold subprocess_run. rewrite Hd. unfold nonzero. rewrite Hrc. cbn.
  apply (Hk tt). unfold called in *. simpl. rewrite calls_of_app, H. reflexivity.
Qed.

Lemma called_last_step (l : list (step * list string)) (s : step)
      (argv : list string) (cap : bool) (abort : M unit) :
  triple (called l)
         (bind (subprocess_run w s argv cap)
               (fun proc => when (nonzero (returncode proc)) abort))
         (fun _ => called (l ++ [(s, argv)])) never.
Proof.
  intros st H. destruct (all_pass s argv) as (proc & Hd & Hrc).
  cbn. unfold subprocess_run. rewrite Hd. unfold nonzero. rewrite Hrc. cbn.
  unfold called in *. simpl. rewrite calls_of_app, H. reflexivity.
Qed.

Hypothesis size_ok :
  forall argv proc,
    docker w Inspect argv = Some proc -> exists n, image_size (stdout proc) = Ok n.

Lemma called_build_phase (a : args.t) (p : Resolved) (cmd_base cmd : list string) :
  args.dry_run a = false ->
  triple (called []) (build_phase w a p cmd_base cmd)
         (fun _ => called [(BaseBuild, cmd_base); (MainBuild, cmd);
                           (Inspect, inspect_cmd p)])
         never.
Proof.
  intros Hdry. unfold build_phase. rewrite Hdry.
  eapply triple_bind; [apply called_print | intros ?].
  apply called_step. intros ?. apply called_step. intros ?.
  eapply triple_bind; [apply called_when_print | intros ?].
  intros st H. cbn. unfold subprocess_run.
  destruct (all_pass Inspect ["docker"; "image"; "inspect"; tag p; "--format={{.Size}}"])
    as (proc & Hd & _).
  rewrite Hd. destruct (size_ok _ _ Hd) as (n & Hn). rewrite Hn. cbn.
  unfold called in *. simpl. rewrite !calls_of_app, H. reflexivity.
Qed.

Lemma called_s2i_phase (a : args.t) (p : Resolved) (l : list (step * list string)) :
  args.dry_run a = false ->
  triple (called l) (s2i_phase w a p)
         (fun _ => called (l ++ (if args.s2i a then [(S2iBuild, s2i_cmd p)] else [])))
         never.
Proof.
  intros Hdry. unfold s2i_phase. rewrite Hdry. destruct (args.s2i a); cbn [when].
  - eapply triple_bind; [apply called_print | intros ?].
    apply called_step. intros ?. apply called_when_print.
  - intros st H. unfold called in *. simpl. now rewrite app_nil_r.
Qed.

Lemma called_test_push_phase (a : args.t) (p : Resolved)
      (l : list (step * list string)) :
  args.dry_run a = false ->
  triple (called l) (test_push_phase w a p)
         (fun _ =>
            called (l ++ (if args.test a || args.push a
                          then [(TestBuild, test_build_cmd p); (TestRun, test_run_cmd p)]
                          else [])
                      ++ (if args.push a then [(Push, push_cmd a p)] else [])))
         never.
Proof.
  intros Hdry. unfold test_push_phase. rewrite Hdry. cbn [negb when].
  eapply triple_bind
    with (N1 := fun _ =>
                  called (l ++ (if args.test a || args.push a
                                then [(TestBuild, test_build_cmd p);
                                      (TestRun, test_run_cmd p)]
                                else []))).
  - destruct (args.test a || args.push a); cbn [when].
    + apply called_step. intros ?. apply called_step. intros ?.
      rewrite <- app_assoc. apply called_print.
    + intros st H. unfold called in *. simpl. now rewrite app_nil_r.
  - intros ?. destruct (args.push a); cbn [when].
    + eapply triple_bind; [apply called_print | intros ?].
      rewrite app_assoc. apply called_last_step.
    + intros st H. unfold called in *. simpl. now rewrite app_nil_r.
Qed.

Lemma called_build_plan (a : args.t) (p : Resolved) :
  args.dry_run a = false ->
  triple (called []) (build_plan w a p)
         (fun _ => called (full_sequence w a p)) never.
Proof.
  intros Hdry. unfold build_plan, full_sequence.
  eapply triple_bind with (N1 := fun r st => called [] st /\ r = cachebust w).
  - intros st H. split; [exact H | reflexivity].
  - intros r. apply triple_pure. intros ->.
    destruct (build_commands a p (cachebust w)) as [cmd_base cmd]. cbn [fst snd].
    eapply triple_bind; [now apply called_build_phase | intros ?].
    eapply triple_bind; [now apply called_s2i_phase | intros ?].
    now apply called_test_push_phase.
Qed.

End Success.

(** X12.  In build mode, when every external command returns 0 and the
    inspection prints a size, the run ends with status 0 after running, in
    this order: the base build, the main build, the inspection, the s2i
    build under [--s2i], the test build and the test run under [--test] or
    [--push], and under [--push] the push of the s2i tag if [--s2i] is set
    and of the main tag otherwise. *)
Theorem successful_run
        (w : World) (opts : list cli_option) (version : string)
        (a : args.t) (p : Resolved) :
  parse_args opts version = Ok a ->
  resolve a = Ok p ->
  Py.truthy_opt (args.output a) = false ->
  args.dry_run a = false ->
  (forall s argv, exists proc, docker w s argv = Some proc /\ returncode proc = 0%Z) ->
  (forall argv proc,
      docker w Inspect argv = Some proc -> exists n, image_size (stdout proc) = Ok n) ->
  fst (main w opts version) = Ok tt /\
  calls_of (trace (snd (main w opts version))) = full_sequence w a p.
Proof.
  intros Ha Hp Hout Hdry Hpass Hsize. unfold main.
  rewrite (make_image_resolved w opts version a p _ Ha Hp).
  unfold run_plan. rewrite Hout. cbn [when].
  rewrite (bind_Ok (@ret M Monad_M unit tt) _ (initial w) (initial w) tt eq_refl).
  pose proof (called_build_plan w Hpass Hsize a p Hdry (initial w) eq_refl) as H.
  destruct (build_plan w a p (initial w)) as [[[] | n | e] st]; simpl in *;
    [split; [reflexivity | exact H] | destruct H | destruct H].
Qed.

Lemma successful_run_witness :
  fst (main quiet_world [OptS2i; OptPush] "1.6") = Ok tt /\
  map fst (calls_of (trace (snd (main quiet_world [OptS2i; OptPush] "1.6"))))
  = [BaseBuild; MainBuild; Inspect; S2iBuild; TestBuild; TestRun; Push].
Proof.
  destruct (successful_run quiet_world [OptS2i; OptPush] "1.6" _ _
              eq_refl eq_refl eq_refl eq_refl) as [Hr Hc].
  - intros s argv. eexists. split; reflexivity.
  - intros argv proc H. inversion H; subst. exists 0%Z. reflexivity.
  - split; [exact Hr|]. rewrite Hc. reflexivity.
Defined.

(* ================================================================== *)
(** * An inspection that gives no size *)
(* ================================================================== *)

Lemma called_step_ok {B} (w : World) (l : list (step * list string)) (s : step)
      (argv : list string) (cap : bool) (abort : M unit) (k : unit -> M B)
      (N : B -> State -> Prop) (E : Z -> State -> Prop) :
  (exists proc, docker w s argv = Some proc /\ returncode proc = 0%Z) ->
  (forall u, triple (called (l ++ [(s, argv)])) (k u) N E) ->
  triple (called l)
         (bind (subprocess_run w s argv cap)
               (fun proc => bind (when (nonzero (returncode proc)) abort) k))
         N E.
Proof.
  intros (proc & Hd & Hrc) Hk st H.
  cbn. unfold subprocess_run. rewrite Hd. unfold nonzero. rewrite Hrc. cbn.
  apply (Hk tt). unfold called in *. simpl. rewrite calls_of_app, H. reflexivity.
Qed.

(** X13.  When both builds succeed but the inspection cannot be started
    or prints no size, the run ends there with status 1: the s2i build, the
    tests and the push are not run, whatever the options. *)
Theorem unreadable_size_stops_the_run
        (w : World) (opts : list cli_option) (version : string)
        (a : args.t) (p : Resolved) (cmd_base cmd : list string) :
  parse_args opts version = Ok a ->
  resolve a = Ok p ->
  Py.truthy_opt (args.output a) = false ->
  args.dry_run a = false ->
  build_commands a p (cachebust w) = (cmd_base, cmd) ->
  (exists proc, docker w BaseBuild cmd_base = Some proc /\ returncode proc = 0%Z) ->
  (exists proc, docker w MainBuild cmd = Some proc /\ returncode proc = 0%Z) ->
  (forall proc n,
      docker w Inspect (inspect_cmd p) = Some proc -> image_size (stdout proc) <> Ok n) ->
  exit_status (fst (main w opts version)) = 1%Z /\
  calls_of (trace (snd (main w opts version)))
  = [(BaseBuild, cmd_base); (MainBuild, cmd); (Inspect, inspect_cmd p)].
Proof.
  intros Ha Hp Hout Hdry Hcmd Hbase Hmain Hsize. unfold main.
  rewrite (make_image_resolved w opts version a p _ Ha Hp).
  unfold run_plan. rewrite Hout. cbn [when].
  rewrite (bind_Ok (@ret M Monad_M unit tt) _ (initial w) (initial w) tt eq_refl).
  unfold build_plan.
  rewrite (bind_Ok (randint w 100000 999999) _ (initial w) (initial w)
             (cachebust w) eq_refl).
  rewrite Hcmd.
  set (stop := fun (n : Z) st =>
                 n = 1%Z /\
                 called [(BaseBuild, cmd_base); (MainBuild, cmd); (Inspect, inspect_cmd p)] st).
  assert (Hphase : triple (called []) (build_phase w a p cmd_base cmd)
                          (fun _ _ => False) stop).
  { unfold build_phase. rewrite Hdry.
    eapply triple_bind; [apply called_print | intros ?].
    apply called_step_ok; [exact Hbase | intros ?].
    apply called_step_ok; [exact Hmain | intros ?].
    eapply triple_bind; [apply called_when_print | intros ?].
    intros st H. cbn. unfold subprocess_run. fold (inspect_cmd p).
    assert (Hc : forall res,
               called [(BaseBuild, cmd_base); (MainBuild, cmd); (Inspect, inspect_cmd p)]
                      (log (Run Inspect (inspect_cmd p) true res) st)).
    { intros res. unfold called in *. simpl. rewrite calls_of_app, H. reflexivity. }
    destruct (docker w Inspect (inspect_cmd p)) as [proc|] eqn:Hd.
    - pose proof (fun n => Hsize proc n eq_refl) as Hno.
      pose proof (image_size_no_exit (stdout proc)) as Hne.
      destruct (image_size (stdout proc)) as [n | n | e].
      + now destruct (Hno n).
      + now destruct (Hne n).
      + cbn. split; [reflexivity | apply Hc].
    - split; [reflexivity | apply Hc]. }
  pose proof (Hphase (initial w) eq_refl) as H. cbn.
  destruct (build_phase w a p cmd_base cmd (initial w)) as [[u | n | e] st];
    [destruct H | | ]; destruct H as [Hn Hc]; simpl; [subst n|]; auto.
Qed.

Lemma unreadable_size_stops_the_run_witness :
  exit_status (fst (main unreadable_world [OptPush] "1.6")) = 1%Z /\
  steps_of (trace (snd (main unreadable_world [OptPush] "1.6")))
  = [BaseBuild; MainBuild; Inspect].
Proof.
  destruct (unreadable_size_stops_the_run unreadable_world [OptPush] "1.6" _ _ _ _
              eq_refl eq_refl eq_refl eq_refl eq_refl) as [He Hc].
  - eexists. split; reflexivity.
  - eexists. split; reflexivity.
  - intros proc n H. inversion H; subst. discriminate.
  - split; [exact He|]. unfold steps_of. rewrite Hc. reflexivity.
Defined.

(* ================================================================== *)
(** * Which lines the ARG pattern matches *)
(* ================================================================== *)

Lemma strip_prefix_app (pre s r : string) :
  strip_prefix pre s = Some r -> s = pre ++ r.
Proof.
  revert s; induction pre as [|c pre IH]; intros s H; simpl in H.
  - now inversion H.
  - destruct s as [|c' s]; [discriminate|].
    destruct (Ascii.eqb_spec c' c) as [-> | _]; [|discriminate].
    simpl. now rewrite (IH s H).
Qed.

Lemma all_take_while (p : ascii -> bool) (s : string) :
  all p (Py.take_while p s) = true.
Proof.
  induction s as [|c s IH]; simpl; [reflexivity|].
  destruct (p c) eqn:Hc; simpl; [now rewrite Hc | reflexivity].
Qed.

Lemma blocked_drop_while (p : ascii -> bool) (s : string) :
  blocked p (Py.drop_while p s) = true.
Proof.
  induction s as [|c s IH]; simpl; [reflexivity|].
  destruct (p c) eqn:Hc; simpl; [exact IH | now rewrite Hc].
Qed.

Lemma take_while_strip_eq (s : string) :
  Py.take_while Py.not_newline (strip_eq s) = strip_eq (Py.take_while Py.not_newline s).
Proof.
  destruct s as [|c s]; simpl; [reflexivity|].
  destruct (Ascii.eqb_spec c "=") as [-> | Hne]; simpl.
  - reflexivity.
  - destruct (Py.not_newline c); simpl; [|reflexivity].
    apply Ascii.eqb_neq in Hne. now rewrite Hne.
Qed.

Lemma drop_while_strip_eq (s : string) :
  Py.drop_while Py.not_newline (strip_eq s) = Py.drop_while Py.not_newline s.
Proof.
  destruct s as [|c s]; simpl; [reflexivity|].
  destruct (Ascii.eqb_spec c "=") as [-> | Hne]; reflexivity.
Qed.

Lemma at_eol_cases (s : string) : at_eol s = true <-> s = "" \/ s = nl.
Proof.
  destruct s as [|c [|c' s]]; simpl.
  - split; [now left | reflexivity].
  - split.
    + intros H. apply Ascii.eqb_eq in H. subst. now right.
    + intros [H | H]; [discriminate|]. inversion H. reflexivity.
  - split; [discriminate | intros [H | H]; discriminate].
Qed.

Lemma arg_scan_ARG (r0 : string) :
  arg_scan ("ARG" ++ r0)
  = let ws := Py.take_while Py.is_space r0 in
    let rest := Py.drop_while Py.is_space r0 in
    let name := Py.take_while Py.is_word rest in
    let rest := strip_eq (Py.drop_while Py.is_word rest) in
    let dflt := Py.take_while Py.not_newline rest in
    let rest := Py.drop_while Py.not_newline rest in
    if Py.truthy ws && Py.truthy name && at_eol rest then Some [name; dflt] else None.
Proof. reflexivity. Qed.

Lemma word_blocks_space (name tail : string) :
  Py.truthy name = true -> all Py.is_word name = true ->
  blocked Py.is_space (name ++ tail) = true.
Proof.
  destruct name as [|c name]; [discriminate|]. simpl. intros _ H.
  apply andb_true_iff in H as [Hc _].
  destruct (Py.is_space c) eqn:Hs; [|reflexivity].
  apply space_not_word in Hs. congruence.
Qed.

(** The scan of a line with a known run of whitespace and a known name. *)
Lemma arg_scan_named (ws name tail : string) :
  Py.truthy ws = true -> all Py.is_space ws = true ->
  Py.truthy name = true -> all Py.is_word name = true ->
  blocked Py.is_word tail = true ->
  arg_scan ("ARG" ++ ws ++ name ++ tail)
  = if line_ends tail
    then Some [name; Py.take_while Py.not_newline (strip_eq tail)]
    else None.
Proof.
  intros Hws1 Hws Hn1 Hn Ht.
  rewrite arg_scan_ARG. cbv zeta.
  pose proof (word_blocks_space name tail Hn1 Hn) as Hb.
  rewrite (take_while_app _ _ _ Hws Hb), (drop_while_app _ _ _ Hws Hb).
  rewrite (take_while_app _ _ _ Hn Ht), (drop_while_app _ _ _ Hn Ht).
  rewrite Hws1, Hn1, drop_while_strip_eq. reflexivity.
Qed.

(** X14.  A line matches the ARG pattern with groups [name] and [dflt]
    exactly when it is ["ARG"], a non-empty run of whitespace, the
    non-empty run of word characters [name], a rest without newline that
    does not start with a word character, and the end of the text or one
    final newline; [dflt] is the rest without its leading ["="], if any. *)
Theorem arg_pattern_matches_iff (line name dflt : string) :
  Re.match_ ARG_PATTERN line = Some [name; dflt] <->
  exists ws rest ending,
    line = "ARG" ++ ws ++ name ++ rest ++ ending /\
    Py.truthy ws = true /\ all Py.is_space ws = true /\
    Py.truthy name = true /\ all Py.is_word name = true /\
    blocked Py.is_word (rest ++ ending) = true /\
    all Py.not_newline rest = true /\
    (ending = "" \/ ending = nl) /\
    dflt = strip_eq rest.
Proof.
  rewrite match_arg_scan. split.
  - unfold arg_scan. destruct (strip_prefix "ARG" line) as [r0|] eqn:Hpre;
      [|discriminate].
    apply strip_prefix_app in Hpre.
    set (ws := Py.take_while Py.is_space r0).
    set (r1 := Py.drop_while Py.is_space r0).
    set (nm := Py.take_while Py.is_word r1).
    set (r2 := Py.drop_while Py.is_word r1).
    destruct (Py.truthy ws) eqn:Hws; [|discriminate].
    destruct (Py.truthy nm) eqn:Hnm; [|discriminate].
    destruct (at_eol (Py.drop_while Py.not_newline (strip_eq r2))) eqn:Heol;
      [|discriminate].
    cbn [andb]. intros H. inversion H; subst name dflt. clear H.
    rewrite drop_while_strip_eq in Heol.
    exists ws, (Py.take_while Py.not_newline r2), (Py.drop_while Py.not_newline r2).
    rewrite take_drop_while.
    repeat split.
    + rewrite Hpre. unfold ws, nm, r2, r1. now rewrite !take_drop_while.
    + exact Hws.
    + apply all_take_while.
    + exact Hnm.
    + apply all_take_while.
    + apply blocked_drop_while.
    + apply all_take_while.
    + now apply at_eol_cases.
    + apply take_while_strip_eq.
  - intros (ws & rest & ending & -> & Hws1 & Hws & Hn1 & Hn & Hb & Hr & He & ->).
    rewrite (arg_scan_named ws name (rest ++ ending) Hws1 Hws Hn1 Hn Hb).
    assert (Hbe : blocked Py.not_newline ending = true)
      by (destruct He as [-> | ->]; reflexivity).
    unfold line_ends. rewrite (drop_while_app _ _ _ Hr Hbe).
    replace (at_eol ending) with true
      by (symmetry; now apply at_eol_cases).
    rewrite take_while_strip_eq, (take_while_app _ _ _ Hr Hbe). reflexivity.
Qed.

(** ** Rewriting twice *)

Lemma match_parts (line name dflt : string) :
  Re.match_ ARG_PATTERN line = Some [name; dflt] ->
  Py.truthy name = true /\ all Py.is_word name = true /\
  all Py.not_newline dflt = true.
Proof.
  rewrite match_arg_scan. unfold arg_scan.
  destruct (strip_prefix "ARG" line) as [r0|]; [|discriminate].
  destruct (Py.truthy (Py.take_while Py.is_space r0)); [|discriminate].
  destruct (Py.truthy _) eqn:Hn; [|discriminate].
  destruct (at_eol _); [|discriminate].
  cbn [andb]. intros H; inversion H; subst.
  repeat split; [exact Hn | apply all_take_while | apply all_take_while].
Qed.

Lemma at_eol_after_newline (v : string) :
  all Py.not_newline v = false ->
  at_eol (Py.drop_while Py.not_newline (v ++ nl)) = false.
Proof.
  induction v as [|c v IH]; simpl; [discriminate|].
  destruct (Py.not_newline c) eqn:Hc; simpl; [exact IH|].
  intros _. destruct v; reflexivity.
Qed.

(** The scan of a line the script has written. *)
Lemma arg_scan_written (name value : string) :
  Py.truthy name = true -> all Py.is_word name = true ->
  arg_scan ("ARG " ++ name ++ "=" ++ value ++ nl)
  = if all Py.not_newline value then Some [name; value] else None.
Proof.
  intros Hn1 Hn.
  change ("ARG " ++ name ++ "=" ++ value ++ nl)
    with ("ARG" ++ " " ++ name ++ "=" ++ value ++ nl).
  rewrite (arg_scan_named " " name ("=" ++ value ++ nl) eq_refl eq_refl Hn1 Hn eq_refl).
  change (strip_eq ("=" ++ value ++ nl)) with (value ++ nl).
  unfold line_ends. change ("=" ++ value ++ nl) with (String "=" (value ++ nl)).
  cbn [Py.drop_while]. change (Py.not_newline "=") with true. cbv iota.
  destruct (all Py.not_newline value) eqn:Hv.
  - rewrite (drop_while_app _ value nl Hv eq_refl).
    now rewrite (take_while_app _ value nl Hv eq_refl).
  - now rewrite (at_eol_after_newline value Hv).
Qed.

(** X15.  Rewriting a line is idempotent: a line the script has written
    is left as it is when it is rewritten with the same mapping. *)
Theorem rewrite_line_idempotent (d : Py.dict) (line : string) :
  rewrite_line d (rewrite_line d line) = rewrite_line d line.
Proof.
  destruct (Re.match_ ARG_PATTERN line) as [m|] eqn:Hm.
  - destruct (match_groups line m Hm) as (name & dflt & ->).
    destruct (match_parts line name dflt Hm) as (Hn1 & Hn & Hd).
    rewrite (rewrite_line_match d line name dflt Hm).
    pose proof (arg_scan_written name (default dflt (Py.get d name)) Hn1 Hn) as Hscan.
    rewrite <- match_arg_scan in Hscan.
    destruct (all Py.not_newline (default dflt (Py.get d name))) eqn:Hv.
    + rewrite (rewrite_line_match d _ name _ Hscan).
      destruct (Py.get d name); reflexivity.
    + now apply rewrite_line_no_match.
  - now rewrite !(rewrite_line_no_match d line Hm).
Qed.

(** X16.  An ARG line without a default whose name the mapping does not
    have is not copied as it is: whatever whitespace follows ["ARG"] becomes
    one space, ["="] is added after the name, and the line ends with a
    newline even if it was the last line of a file without one. *)
Theorem arg_line_without_default (d : Py.dict) (ws name ending : string) :
  Py.truthy ws = true -> all Py.is_space ws = true ->
  Py.truthy name = true -> all Py.is_word name = true ->
  ending = "" \/ ending = nl ->
  Py.get d name = None ->
  rewrite_line d ("ARG" ++ ws ++ name ++ ending) = "ARG " ++ name ++ "=" ++ nl.
Proof.
  intros Hws1 Hws Hn1 Hn He Hget.
  assert (Hm : Re.match_ ARG_PATTERN ("ARG" ++ ws ++ name ++ ending) = Some [name; ""]).
  { rewrite match_arg_scan.
    rewrite (arg_scan_named ws name ending Hws1 Hws Hn1 Hn)
      by (destruct He as [-> | ->]; reflexivity).
    destruct He as [-> | ->]; reflexivity. }
  rewrite (rewrite_line_match d _ name "" Hm), Hget. reflexivity.
Qed.

Lemma arg_line_without_default_witness :
  rewrite_line [("FOO", "1")] ("ARG" ++ "   " ++ "base_image" ++ "")
  = "ARG base_image=" ++ nl.
Proof.
  apply (arg_line_without_default [("FOO", "1")] "   " "base_image" "");
    solve [reflexivity | now left].
Defined.

(* ================================================================== *)
(** * Opening the output and the template *)
(* ================================================================== *)

(** X17.  When the output path is the template itself, the template is
    emptied before it is read: the run ends with status 0 and the file is
    empty, whatever it held. *)
Theorem template_onto_itself
        (w : World) (opts : list cli_option) (version : string)
        (a : args.t) (p : Resolved) (out : string) :
  parse_args opts version = Ok a ->
  resolve a = Ok p ->
  args.output a = Some out -> out <> "" ->
  writable w out = true ->
  fst (template_source a p) = out ->
  fst (main w opts version) = Exit 0 /\
  trace (snd (main w opts version)) = [] /\
  fs (snd (main w opts version)) out = Some "".
Proof.
  intros Ha Hp Ho Hne Hw Hsrc. unfold main.
  rewrite (make_image_resolved w opts version a p _ Ha Hp).
  unfold run_plan. rewrite Ho.
  replace (Py.truthy_opt (Some out)) with true
    by (destruct out; [contradiction | reflexivity]).
  cbn [when]. unfold template_output.
  destruct (template_source a p) as [src_path src_replace]. simpl in Hsrc. subst src_path.
  rewrite Ho. cbn [default].
  set (st1 := store out "" (initial w)).
  assert (Hopen : open_w w out (initial w) = (Ok tt, st1))
    by (unfold open_w; now rewrite Hw).
  assert (Hread : open_r out st1 = (Ok [], st1)).
  { unfold open_r, st1, store; simpl. now rewrite String.eqb_refl. }
  match goal with
  | |- context [bind (bind (open_w w out) ?f) ?g] =>
      assert (Hrun : bind (open_w w out) f (initial w) = (Exit 0, st1))
  end.
  { rewrite (bind_Ok _ _ _ _ _ Hopen), (bind_Ok _ _ _ _ _ Hread). reflexivity. }
  rewrite (bind_Exit _ _ _ _ _ Hrun).
  repeat split. unfold st1, store; simpl. now rewrite String.eqb_refl.
Qed.

Lemma template_onto_itself_witness :
  fs (snd (main template_world [OptOutput "1.6/Dockerfile.ubuntu"] "1.6"))
     "1.6/Dockerfile.ubuntu" = Some "".
Proof.
  refine (proj2 (proj2 (template_onto_itself template_world
                          [OptOutput "1.6/Dockerfile.ubuntu"] "1.6" _ _
                          "1.6/Dockerfile.ubuntu"
                          eq_refl eq_refl eq_refl _ eq_refl eq_refl))).
  discriminate.
Defined.

(** X18.  When the output cannot be opened the run ends with status 1 and
    no file is changed.  When the template is missing the run ends with
    status 1 too, but the output file has already been created or emptied. *)
Theorem template_open_failures
        (w : World) (opts : list cli_option) (version : string)
        (a : args.t) (p : Resolved) (out : string) :
  parse_args opts version = Ok a ->
  resolve a = Ok p ->
  args.output a = Some out -> out <> "" ->
  (writable w out = false ->
   main w opts version = (Raise OSError, initial w)) /\
  (writable w out = true ->
   fst (template_source a p) <> out ->
   files w (fst (template_source a p)) = None ->
   fst (main w opts version) = Raise FileNotFoundError /\
   exit_status (fst (main w opts version)) = 1%Z /\
   trace (snd (main w opts version)) = [] /\
   fs (snd (main w opts version)) out = Some "").
Proof.
  intros Ha Hp Ho Hne.
  assert (Hmain : main w opts version
                  = bind (template_output w a p) (fun _ => build_plan w a p) (initial w)).
  { unfold main. rewrite (make_image_resolved w opts version a p _ Ha Hp).
    unfold run_plan. rewrite Ho.
    replace (Py.truthy_opt (Some out)) with true
      by (destruct out; [contradiction | reflexivity]).
    reflexivity. }
  rewrite Hmain. unfold template_output.
  destruct (template_source a p) as [src_path src_replace]. cbn [fst].
  rewrite Ho. cbn [default]. split.
  - intros Hw.
    assert (Hopen : open_w w out (initial w) = (Raise OSError, initial w))
      by (unfold open_w; now rewrite Hw).
    match goal with
    | |- context [bind (bind (open_w w out) ?f) ?g] =>
        assert (Hrun : bind (open_w w out) f (initial w) = (Raise OSError, initial w))
          by (now rewrite (bind_Raise _ _ _ _ _ Hopen))
    end.
    now rewrite (bind_Raise _ _ _ _ _ Hrun).
  - intros Hw Hd Hnone.
    set (st1 := store out "" (initial w)).
    assert (Hopen : open_w w out (initial w) = (Ok tt, st1))
      by (unfold open_w; now rewrite Hw).
    assert (Hread : open_r src_path st1 = (Raise FileNotFoundError, st1)).
    { unfold open_r, st1, store, initial; simpl.
      destruct (String.eqb_spec src_path out); [contradiction|].
      now rewrite Hnone. }
    match goal with
    | |- context [bind (bind (open_w w out) ?f) ?g] =>
        assert (Hrun : bind (open_w w out) f (initial w)
                       = (Raise FileNotFoundError, st1))
    end.
    { rewrite (bind_Ok _ _ _ _ _ Hopen). now rewrite (bind_Raise _ _ _ _ _ Hread). }
    rewrite (bind_Raise _ _ _ _ _ Hrun).
    repeat split. unfold st1, store; simpl. now rewrite String.eqb_refl.
Qed.

Lemma template_open_failures_witness :
  fst (main quiet_world [OptOutput "Dockerfile.out"] "1.6") = Raise FileNotFoundError /\
  fs (snd (main quiet_world [OptOutput "Dockerfile.out"] "1.6")) "Dockerfile.out"
  = Some "".
Proof.
  assert (Hne : "Dockerfile.out" <> "") by discriminate.
  destruct (proj2 (template_open_failures quiet_world [OptOutput "Dockerfile.out"] "1.6"
                     _ _ "Dockerfile.out" eq_refl eq_refl eq_refl Hne)
              eq_refl ltac:(discriminate) eq_refl) as (H1 & _ & _ & H2).
  split; assumption.
Defined.

(* ================================================================== *)
(** * The build commands and empty option values *)
(* ================================================================== *)

(** X20.  Every resolved plan has a non-empty Dockerfile path, so both
    build commands carry [-f]: the base command names [<dockerfile>_indy]
    and tags [local_indy_base], the main command names [<dockerfile>_von]
    and tags the resolved tag; both get the same [--no-cache] and
    [--squash] flags and end with the target directory. *)
Theorem build_commands_of_resolved (a : args.t) (p : Resolved) (r : Z) :
  resolve a = Ok p ->
  dockerfile p <> "" /\
  build_commands a p r
  = ((["docker"; "build"] ++ render_build_args (build_args p)
        ++ ["-f"; (dockerfile p ++ "_indy")%string] ++ cache_flags a
        ++ ["-t"; "local_indy_base"; target p])%list,
     (["docker"; "build"] ++ render_build_args (build_args p)
        ++ ["-f"; (dockerfile p ++ "_von")%string] ++ cache_flags a
        ++ ["-t"; tag p; "--build-arg"; cachebust_arg r; target p])%list).
Proof.
  intros Hp.
  assert (Ht : Py.truthy (dockerfile p) = true).
  { unfold resolve in Hp.
    destruct (lookup_version VERSIONS (args.version a)) as [v|]; [|discriminate].
    destruct (resolve_tag a v (resolve_py_ver a v)) as [[[tn tv] tg] | n | e];
      try discriminate.
    cbn [bind Monad_Result] in Hp.
    destruct (resolve_build_args _ _ _ _ _) as [d | n | e]; try discriminate.
    inversion Hp; subst; clear Hp. cbn [dockerfile]. unfold resolve_dockerfile.
    destruct (args.file a) as [f|]; cbn [Py.truthy_opt default].
    - destruct (Py.truthy f) eqn:Hf; [exact Hf|].
      destruct (resolve_target a v); reflexivity.
    - destruct (resolve_target a v); reflexivity. }
  split.
  - intros E. rewrite E in Ht. discriminate.
  - unfold build_commands, cache_flags. rewrite Ht.
    destruct (args.no_cache a), (args.squash a); cbn [app];
      rewrite <- ?app_assoc; reflexivity.
Qed.

Lemma build_commands_of_resolved_witness :
  exists p,
    resolve (namespace [OptFile "custom/Dockerfile"; OptSquash] "1.6") = Ok p /\
    dockerfile p = "custom/Dockerfile" /\ dockerfile p <> "".
Proof.
  eexists. split; [reflexivity|]. split; [reflexivity|].
  exact (proj1 (build_commands_of_resolved
                  (namespace [OptFile "custom/Dockerfile"; OptSquash] "1.6") _ 0%Z
                  eq_refl)).
Defined.

(** X21.  An empty value given to [--tag], [--file], [--python] or
    [--output] counts as no value: the plan is resolved and run as if the
    option had not been given.  In particular [--output ""] does not select
    template output. *)
Theorem empty_values_are_absent (w : World) (a : args.t) :
  resolve (without_empty a) = resolve a /\
  (forall p st, run_plan w (without_empty a) p st = run_plan w a p st).
Proof.
  destruct a as [name tag file build_arg debug dry_run no_cache output python
                   push quiet s2i squash test version].
  split.
  - unfold resolve, without_empty, resolve_py_ver, resolve_tag, resolve_build_args,
      resolve_target, resolve_dockerfile.
    cbn [args.name args.tag args.file args.build_arg args.debug args.output
         args.python args.version].
    destruct tag as [[|c t]|], file as [[|c' f]|], python as [[|c'' y]|]; reflexivity.
  - intros p st. unfold run_plan, without_empty.
    cbn [args.output].
    destruct output as [[|c o]|]; reflexivity.
Qed.

(* ================================================================== *)
(** * Rewriting a rewritten template *)
(* ================================================================== *)

Lemma all_app (p : ascii -> bool) (x y : string) :
  all p (x ++ y) = all p x && all p y.
Proof.
  induction x as [|c x IH]; simpl; [reflexivity|].
  now rewrite IH, andb_assoc.
Qed.

Lemma all_impl (p q : ascii -> bool) (s : string) :
  (forall c, p c = true -> q c = true) -> all p s = true -> all q s = true.
Proof.
  intros Hpq. induction s as [|c s IH]; simpl; [reflexivity|].
  intros H. apply andb_true_iff in H as [Hc Hs].
  now rewrite (Hpq c Hc), (IH Hs).
Qed.

Lemma all_take_while_of (p q : ascii -> bool) (s : string) :
  all p s = true -> all p (Py.take_while q s) = true.
Proof.
  induction s as [|c s IH]; simpl; [reflexivity|].
  intros H. apply andb_true_iff in H as [Hc Hs].
  destruct (q c); simpl; [now rewrite Hc, (IH Hs) | reflexivity].
Qed.

Lemma all_drop_while_of (p q : ascii -> bool) (s : string) :
  all p s = true -> all p (Py.drop_while q s) = true.
Proof.
  induction s as [|c s IH]; simpl; [reflexivity|].
  intros H. pose proof H as H'. apply andb_true_iff in H as [Hc Hs].
  destruct (q c); simpl; [now apply IH | exact H'].
Qed.

Lemma all_strip_eq (p : ascii -> bool) (s : string) :
  all p s = true -> all p (strip_eq s) = true.
Proof.
  destruct s as [|c s]; simpl; [reflexivity|].
  intros H. destruct (Ascii.eqb c "="); [|exact H].
  now apply andb_true_iff in H.
Qed.

(** The groups of a match are made of characters of the line. *)
Lemma match_parts_of (p : ascii -> bool) (line name dflt : string) :
  all p line = true ->
  Re.match_ ARG_PATTERN line = Some [name; dflt] ->
  all p name = true /\ all p dflt = true.
Proof.
  intros Hall. rewrite match_arg_scan. unfold arg_scan.
  destruct (strip_prefix "ARG" line) as [r0|] eqn:Hpre; [|discriminate].
  apply strip_prefix_app in Hpre. subst line.
  rewrite all_app in Hall. apply andb_true_iff in Hall as [_ Hr0].
  destruct (_ && _); [|discriminate].
  intros H; inversion H; subst. split.
  - now apply all_take_while_of, all_drop_while_of.
  - now apply all_take_while_of, all_strip_eq, all_drop_while_of, all_drop_while_of.
Qed.

Lemma rewrite_line_twice (d : Py.dict) (line : string) :
  rewrite_line d (rewrite_line d line) = rewrite_line d line.
Proof.
  destruct (Re.match_ ARG_PATTERN line) as [m|] eqn:Hm.
  - destruct (match_groups line m Hm) as (name & dflt & ->).
    destruct (match_parts line name dflt Hm) as (Hn1 & Hn & Hd).
    rewrite (rewrite_line_match d line name dflt Hm).
    set (value := default dflt (Py.get d name)).
    pose proof (arg_scan_written name value Hn1 Hn) as Hscan.
    rewrite <- match_arg_scan in Hscan.
    destruct (all Py.not_newline value) eqn:Hv.
    + rewrite (rewrite_line_match d _ name value Hscan).
      unfold value. destruct (Py.get d name); reflexivity.
    + now apply rewrite_line_no_match.
  - now rewrite !(rewrite_line_no_match d line Hm).
Qed.

(** ** Lines of a text *)

Lemma lines_closed (body s : string) :
  all Py.not_newline body = true ->
  Py.lines (body ++ String Py.newline s) = (body ++ nl) :: Py.lines s.
Proof.
  induction body as [|c body IH]; intros H.
  - reflexivity.
  - simpl in H. apply andb_true_iff in H as [Hc Hb].
    unfold Py.not_newline in Hc. apply negb_true_iff in Hc.
    cbn [append Py.lines]. rewrite Hc, (IH Hb). reflexivity.
Qed.

Lemma lines_open (l : string) :
  all Py.not_newline l = true -> l <> "" -> Py.lines l = [l].
Proof.
  induction l as [|c l IH]; intros H Hne; [contradiction|].
  simpl in H. apply andb_true_iff in H as [Hc Hl].
  unfold Py.not_newline in Hc. apply negb_true_iff in Hc.
  cbn [Py.lines]. rewrite Hc.
  destruct l as [|c' l]; [reflexivity|].
  rewrite (IH Hl); [reflexivity | discriminate].
Qed.

Lemma lines_text_of (ls : list string) : proper ls -> Py.lines (text_of ls) = ls.
Proof.
  induction 1 as [| l Hl Hne | body rest Hb Hrest IH]; simpl.
  - reflexivity.
  - rewrite append_nil_r. now apply lines_open.
  - rewrite append_assoc. change (nl ++ text_of rest) with (String Py.newline (text_of rest)).
    rewrite (lines_closed _ _ Hb), IH. reflexivity.
Qed.

Lemma proper_lines (s : string) : proper (Py.lines s).
Proof.
  induction s as [|c s IH]; simpl; [constructor|].
  destruct (Ascii.eqb_spec c Py.newline) as [-> | Hne].
  - apply (proper_closed "" (Py.lines s)); [reflexivity | exact IH].
  - assert (Hc : Py.not_newline c = true)
      by (unfold Py.not_newline; apply negb_true_iff; now apply Ascii.eqb_neq).
    destruct (Py.lines s) as [|l rest]; [apply proper_open; [simpl; now rewrite Hc | discriminate]|].
    inversion IH as [| l' Hl Hnel | body rest' Hb Hrest]; subst.
    + apply proper_open; [simpl; now rewrite Hc, Hl | discriminate].
    + apply (proper_closed (String c body) rest); [simpl; now rewrite Hc, Hb | exact Hrest].
Qed.

(** A rewritten line is the line itself or a line that ends with its
    only newline. *)
Lemma rewrite_line_shape (d : Py.dict) (line : string) :
  (forall k v, Py.get d k = Some v -> all not_break v = true) ->
  rewrite_line d line = line \/
  exists body, all Py.not_newline body = true /\ rewrite_line d line = body ++ nl.
Proof.
  intros Hd. destruct (Re.match_ ARG_PATTERN line) as [m|] eqn:Hm.
  - right. destruct (match_groups line m Hm) as (name & dflt & ->).
    destruct (match_parts line name dflt Hm) as (_ & Hn & Hdf).
    rewrite (rewrite_line_match d line name dflt Hm).
    exists ("ARG " ++ name ++ "=" ++ default dflt (Py.get d name)).
    split; [|now rewrite !append_assoc].
    change ("ARG " ++ name ++ "=" ++ default dflt (Py.get d name))
      with ("ARG " ++ (name ++ ("=" ++ default dflt (Py.get d name)))).
    rewrite !all_app. rewrite (all_impl _ _ name word_not_newline Hn).
    destruct (Py.get d name) as [v|] eqn:Hg; simpl.
    + apply (all_impl not_break). 
      * intros c Hc. unfold not_break in Hc. now apply andb_true_iff in Hc.
      * now apply (Hd name).
    + exact Hdf.
  - left. now apply rewrite_line_no_match.
Qed.

Lemma proper_rewritten (d : Py.dict) (ls : list string) :
  (forall k v, Py.get d k = Some v -> all not_break v = true) ->
  proper ls -> proper (map (rewrite_line d) ls).
Proof.
  intros Hd. induction 1 as [| l Hl Hne | body rest Hb Hrest IH]; simpl.
  - constructor.
  - destruct (rewrite_line_shape d l Hd) as [-> | (body & Hb & ->)].
    + now apply proper_open.
    + apply proper_closed; [exact Hb | constructor].
  - destruct (rewrite_line_shape d (body ++ nl) Hd) as [-> | (body' & Hb' & ->)].
    + now apply proper_closed.
    + now apply proper_closed.
Qed.

(** ** Carriage returns *)

Lemma universal_newlines_no_cr (s : string) :
  all not_cr (Py.universal_newlines s) = true.
Proof.
  assert (H : forall n s, String.length s <= n ->
                          all not_cr (Py.universal_newlines s) = true).
  { induction n as [|n IH]; intros [|c t] Hlen; try reflexivity; simpl in Hlen; [lia|].
    cbn [Py.universal_newlines].
    destruct (Ascii.eqb_spec c Py.carriage_return) as [-> | Hne].
    - destruct t as [|c' t']; [reflexivity|].
      destruct (Ascii.eqb c' Py.newline).
      + cbn [all]. rewrite IH; [reflexivity | simpl in Hlen; lia].
      + cbn [all]. rewrite IH; [reflexivity | lia].
    - cbn [all]. rewrite IH; [|lia].
      unfold not_cr. apply Ascii.eqb_neq in Hne. now rewrite Hne. }
  now apply (H (String.length s)).
Qed.

Lemma universal_newlines_id (s : string) :
  all not_cr s = true -> Py.universal_newlines s = s.
Proof.
  induction s as [|c s IH]; [reflexivity|].
  cbn [all]. intros H. apply andb_true_iff in H as [Hc Hs].
  unfold not_cr in Hc. apply negb_true_iff in Hc.
  cbn [Py.universal_newlines]. now rewrite Hc, (IH Hs).
Qed.

Lemma all_text_of (p : ascii -> bool) (ls : list string) :
  all p (text_of ls) = true <-> Forall (fun l => all p l = true) ls.
Proof.
  induction ls as [|l ls IH]; simpl.
  - split; [constructor | reflexivity].
  - rewrite all_app, andb_true_iff, IH. split.
    + intros [H1 H2]. now constructor.
    + intros H. inversion H; subst. now split.
Qed.

Lemma rewrite_line_no_cr (d : Py.dict) (line : string) :
  (forall k v, Py.get d k = Some v -> all not_break v = true) ->
  all not_cr line = true -> all not_cr (rewrite_line d line) = true.
Proof.
  intros Hd Hl. destruct (Re.match_ ARG_PATTERN line) as [m|] eqn:Hm.
  - destruct (match_groups line m Hm) as (name & dflt & ->).
    destruct (match_parts_of not_cr line name dflt Hl Hm) as (Hn & Hdf).
    rewrite (rewrite_line_match d line name dflt Hm).
    change ("ARG " ++ name ++ "=" ++ default dflt (Py.get d name) ++ nl)
      with ("ARG " ++ (name ++ ("=" ++ (default dflt (Py.get d name) ++ nl)))).
    rewrite !all_app, Hn.
    destruct (Py.get d name) as [v|] eqn:Hg; cbn [default].
    + rewrite (all_impl not_break not_cr v); [reflexivity | | now apply (Hd name)].
      intros c Hc. unfold not_break in Hc. now apply andb_true_iff in Hc.
    + now rewrite Hdf.
  - now rewrite (rewrite_line_no_match d line Hm).
Qed.

(** X22.  Template output is a fixed point: when no value of the mapping
    contains a line break, rewriting the text the script has written, with
    the same mapping, writes the same lines again. *)
Theorem template_output_idempotent (d : Py.dict) (content : string) :
  (forall k v, Py.get d k = Some v -> all not_break v = true) ->
  rewritten_lines d (text_of (rewritten_lines d content)) = rewritten_lines d content.
Proof.
  intros Hd. unfold rewritten_lines at 1. unfold template_lines at 1.
  assert (Hcr : all not_cr (text_of (rewritten_lines d content)) = true).
  { apply all_text_of. unfold rewritten_lines. rewrite Forall_map.
    assert (Hin : Forall (fun l => all not_cr l = true) (template_lines content)).
    { apply all_text_of. unfold template_lines. rewrite text_of_lines.
      apply universal_newlines_no_cr. }
    eapply Forall_impl; [|exact Hin]. intros l Hl. now apply rewrite_line_no_cr. }
  rewrite (universal_newlines_id _ Hcr).
  rewrite lines_text_of.
  - unfold rewritten_lines. rewrite map_map.
    apply map_ext. intros line. apply rewrite_line_twice.
  - unfold rewritten_lines. apply proper_rewritten; [exact Hd|].
    apply proper_lines.
Qed.

Lemma template_output_idempotent_witness :
  rewritten_lines [("FOO", "baz")]
    (text_of (rewritten_lines [("FOO", "baz")] ("ARG  FOO" ++ nl ++ "RUN make")))
  = ["ARG FOO=baz" ++ nl; "RUN make"].
Proof.
  rewrite (template_output_idempotent [("FOO", "baz")] ("ARG  FOO" ++ nl ++ "RUN make")).
  - reflexivity.
  - intros k v H. simpl in H. destruct (String.eqb k "FOO"); inversion H. reflexivity.
Defined.

(* ================================================================== *)
(** * Reading back a printed size *)
(* ================================================================== *)

Lemma rev_onto_spec (s acc : string) : Py.rev_onto acc s = Py.rev s ++ acc.
Proof.
  unfold Py.rev. revert acc; induction s as [|c s IH]; intros acc; simpl.
  - reflexivity.
  - rewrite (IH (String c acc)), (IH (String c "")), append_assoc. reflexivity.
Qed.

Lemma rev_cons (c : ascii) (s : string) : Py.rev (String c s) = Py.rev s ++ String c "".
Proof. unfold Py.rev at 1. simpl. apply rev_onto_spec. Qed.

Lemma rev_app (x y : string) : Py.rev (x ++ y) = Py.rev y ++ Py.rev x.
Proof.
  induction x as [|c x IH]; simpl.
  - now rewrite append_nil_r.
  - now rewrite !rev_cons, IH, append_assoc.
Qed.

Lemma rev_involutive (s : string) : Py.rev (Py.rev s) = s.
Proof.
  induction s as [|c s IH]; [reflexivity|].
  rewrite rev_cons, rev_app, IH. reflexivity.
Qed.

Lemma all_rev (p : ascii -> bool) (s : string) : all p (Py.rev s) = all p s.
Proof.
  induction s as [|c s IH]; [reflexivity|].
  rewrite rev_cons, all_app, IH. simpl. rewrite andb_true_r. apply andb_comm.
Qed.

Lemma solid_blocks_space (s : string) :
  all solid s = true -> blocked Py.is_space s = true.
Proof.
  destruct s as [|c s]; [reflexivity|]. simpl. intros H.
  apply andb_true_iff in H as [Hc _]. unfold solid in Hc.
  now apply andb_true_iff in Hc.
Qed.

Lemma drop_while_all (p : ascii -> bool) (s : string) :
  all p s = true -> Py.drop_while p s = "".
Proof.
  induction s as [|c s IH]; simpl; [reflexivity|].
  intros H. apply andb_true_iff in H as [Hc Hs]. now rewrite Hc, IH.
Qed.

(** Stripping removes the whitespace around a run of solid characters. *)
Lemma strip_solid (s t : string) :
  all solid s = true -> all Py.is_space t = true -> Py.strip (s ++ t) = s.
Proof.
  intros Hs Ht. unfold Py.strip. destruct s as [|c s].
  - simpl. now rewrite (drop_while_all _ _ Ht).
  - assert (Hb : blocked Py.is_space (String c s) = true)
      by now apply solid_blocks_space.
    assert (H1 : Py.drop_while Py.is_space (String c s ++ t) = String c s ++ t).
    { simpl in Hb |- *. apply negb_true_iff in Hb. now rewrite Hb. }
    rewrite H1, rev_app.
    rewrite drop_while_app.
    + apply rev_involutive.
    + now rewrite all_rev.
    + apply solid_blocks_space. now rewrite all_rev.
Qed.

Lemma solid_digits (d : Decimal.uint) :
  all solid (NilEmpty.string_of_uint d) = true.
Proof.
  induction d; simpl; try rewrite IHd; reflexivity.
Qed.

Lemma is_ascii_solid (s : string) : all solid s = true -> Py.is_ascii s = true.
Proof.
  induction s as [|c s IH]; simpl; [reflexivity|].
  intros H. apply andb_true_iff in H as [Hc Hs]. unfold solid in Hc.
  apply andb_true_iff in Hc as [_ Hc]. now rewrite Hc, IH.
Qed.

(** Reading digits one by one is the decimal reading of the library. *)
Lemma int_digits_read_on (d : Decimal.uint) (acc : N) :
  Py.int_digits (Z.of_N acc) true (NilEmpty.string_of_uint d)
  = Some (Z.of_N (read_on d acc)).
Proof.
  revert acc; induction d; intros acc;
    [ destruct acc; reflexivity | .. ];
    match goal with
    | |- context [read_on (?D d) acc] =>
        cbn [NilEmpty.string_of_uint Py.int_digits];
        match goal with
        | |- context [Py.digit ?c] =>
            let v := eval vm_compute in (Py.digit c) in
            change (Py.digit c) with v; cbv iota beta
        end;
        destruct acc as [|a];
        [ exact (IHd (read_on (D Decimal.Nil) N0))
        | etransitivity;
          [ | exact (IHd (Npos (Pos.of_uint_acc (D Decimal.Nil) a))) ];
          f_equal; cbn [Pos.of_uint_acc Z.of_N]; lia ]
    end.
Qed.

Lemma int_digits_first (d : Decimal.uint) :
  d <> Decimal.Nil ->
  Py.int_digits 0 false (NilEmpty.string_of_uint d)
  = Py.int_digits 0 true (NilEmpty.string_of_uint d).
Proof.
  destruct d; intros H; [contradiction | reflexivity ..].
Qed.

Lemma int_digits_positive (p : positive) :
  Py.int_digits 0 false (NilEmpty.string_of_uint (Pos.to_uint p)) = Some (Zpos p).
Proof.
  rewrite (int_digits_first _ (DecimalPos.Unsigned.to_uint_nonnil p)).
  etransitivity; [exact (int_digits_read_on (Pos.to_uint p) N0)|].
  cbn [read_on]. now rewrite DecimalPos.Unsigned.of_to.
Qed.

Lemma int_of_digits (d : Decimal.uint) :
  d <> Decimal.Nil ->
  Py.int (NilEmpty.string_of_uint d)
  = Py.int_digits 0 false (NilEmpty.string_of_uint d).
Proof.
  intros Hd. unfold Py.int.
  replace (Py.strip (NilEmpty.string_of_uint d)) with (NilEmpty.string_of_uint d).
  - destruct d; [contradiction | reflexivity ..].
  - symmetry. rewrite <- (append_nil_r (NilEmpty.string_of_uint d)) at 1.
    apply strip_solid; [apply solid_digits | reflexivity].
Qed.

Lemma int_str (n : Z) : Py.int (Py.str n) = Some n.
Proof.
  unfold Py.str. destruct n as [|p|p]; [reflexivity | |].
  - change (NilZero.string_of_int (Z.to_int (Zpos p)))
      with (NilZero.string_of_uint (Pos.to_uint p)).
    pose proof (DecimalPos.Unsigned.to_uint_nonnil p) as Hd.
    assert (Hs : NilZero.string_of_uint (Pos.to_uint p)
                 = NilEmpty.string_of_uint (Pos.to_uint p)).
    { unfold NilZero.string_of_uint. destruct (Pos.to_uint p); [contradiction | reflexivity ..]. }
    rewrite Hs, (int_of_digits _ Hd). apply int_digits_positive.
  - change (NilZero.string_of_int (Z.to_int (Zneg p)))
      with (String "-" (NilZero.string_of_uint (Pos.to_uint p))).
    pose proof (DecimalPos.Unsigned.to_uint_nonnil p) as Hd.
    assert (Hs : NilZero.string_of_uint (Pos.to_uint p)
                 = NilEmpty.string_of_uint (Pos.to_uint p)).
    { unfold NilZero.string_of_uint. destruct (Pos.to_uint p); [contradiction | reflexivity ..]. }
    rewrite Hs. unfold Py.int.
    replace (Py.strip (String "-" (NilEmpty.string_of_uint (Pos.to_uint p))))
      with (String "-" (NilEmpty.string_of_uint (Pos.to_uint p))).
    + cbv iota beta. rewrite int_digits_positive. reflexivity.
    + symmetry.
      rewrite <- (append_nil_r (String "-" (NilEmpty.string_of_uint (Pos.to_uint p)))) at 1.
      apply strip_solid; [|reflexivity].
      cbn [all]. now rewrite solid_digits.
Qed.

Lemma solid_str (n : Z) : all solid (Py.str n) = true.
Proof.
  unfold Py.str. destruct n as [|p|p]; [reflexivity | |]; simpl;
    unfold NilZero.string_of_uint;
    destruct (Pos.to_uint p) eqn:E; try reflexivity; rewrite <- E;
    try apply solid_digits; cbn [all]; now rewrite solid_digits.
Qed.

(** X23.  The size is read back from its decimal rendering: when the
    inspection prints an integer that a double can hold, followed by a
    newline, line 171 reads that integer. *)
Theorem image_size_reads_back (n : Z) :
  Py.fits_float n = true -> image_size (Py.str n ++ nl) = Ok n.
Proof.
  intros Hfit. unfold image_size.
  assert (Hascii : Py.is_ascii (Py.str n ++ nl) = true).
  { pose proof (is_ascii_solid (Py.str n) (solid_str n)) as H.
    clear -H. induction (Py.str n) as [|c s IH]; [reflexivity|].
    simpl in *. apply andb_true_iff in H as [Hc Hs]. now rewrite Hc, IH. }
  rewrite Hascii.
  rewrite (strip_solid (Py.str n) nl (solid_str n) eq_refl).
  now rewrite int_str, Hfit.
Qed.

Lemma image_size_reads_back_witness : image_size ("1482431" ++ nl) = Ok 1482431%Z.
Proof.
  apply (image_size_reads_back 1482431). reflexivity.
Defined.

(* ================================================================== *)
(** * Line endings of the output *)
(* ================================================================== *)

Lemma rewritten_no_cr (d : Py.dict) (content : string) :
  (forall k v, Py.get d k = Some v -> all not_break v = true) ->
  all not_cr (text_of (rewritten_lines d content)) = true.
Proof.
  intros Hd. apply all_text_of. unfold rewritten_lines. rewrite Forall_map.
  assert (Hin : Forall (fun l => all not_cr l = true) (template_lines content)).
  { apply all_text_of. unfold template_lines. rewrite text_of_lines.
    apply universal_newlines_no_cr. }
  eapply Forall_impl; [|exact Hin]. intros l Hl. now apply rewrite_line_no_cr.
Qed.

(** X24.  The text written has no carriage return when no value of the
    mapping has a line break: a template with [\r\n] or [\r] line endings
    is written with [\n] line endings. *)
Theorem output_has_unix_line_endings (d : Py.dict) (content : string) :
  (forall k v, Py.get d k = Some v -> all not_break v = true) ->
  all not_cr (text_of (rewritten_lines d content)) = true /\
  ((forall line, In line (template_lines content) ->
                 Re.match_ ARG_PATTERN line = None) ->
   text_of (rewritten_lines d content) = Py.universal_newlines content).
Proof.
  intros Hd. split; [now apply rewritten_no_cr|].
  intros Hnone. unfold rewritten_lines. rewrite (rewritten_identity _ _ Hnone).
  unfold template_lines. apply text_of_lines.
Qed.

Lemma output_has_unix_line_endings_witness :
  text_of (rewritten_lines [] ("FROM a" ++ String Py.carriage_return nl ++ "RUN b"
                                 ++ String Py.carriage_return ""))
  = "FROM a" ++ nl ++ "RUN b" ++ nl.
Proof.
  rewrite (proj2 (output_has_unix_line_endings [] _ ltac:(discriminate))).
  - reflexivity.
  - intros line Hin. simpl in Hin.
    destruct Hin as [<- | [<- | []]]; reflexivity.
Defined.
